(** * NVIDIA GeForce command-submission engine (hw/display/geforce.c)

    A shallow embedding of the ring puller, the method dispatcher, the
    handle resolver (RAMHT), the channel context store (RAMFC) and the
    DMA address translator of the emulated GeForce card, followed by the
    properties of the design document that were checked against them.

    Conventions.
    - A [uint32_t] is a [Z] in [0, 2^32); every C operation that can leave
      that range is followed by [u32].  A [uint8_t] is wrapped by [u8].
    - Device memory ([s->vram]) and guest physical memory
      ([address_space_memory]) are byte-addressed maps [Z -> byte];
      multi-byte accesses are little endian ([ldl_le_p], [stl_le_p], ...).
    - C arrays are lists, read with [!!] and written with [<[ i := v ]>].
      An index outside the array is undefined behaviour in C; the model
      reads a default value and drops the write there.
    - A loop whose termination depends on guest data takes a [fuel : nat]
      and returns [None] when the fuel runs out. *)

From Stdlib Require Import ZArith Lia List Bool Znumtheory.
From stdpp Require Import base list.
From coqutil Require Import Byte Word.LittleEndianList.

Local Open Scope Z_scope.
Set Implicit Arguments.

(** ** Fixed-width arithmetic *)

Definition u32 (x : Z) : Z := x mod 2 ^ 32.
Definition u8 (x : Z) : Z := x mod 2 ^ 8.

(** C truth value of an integer expression. *)
Definition nonzero (x : Z) : bool := negb (x =? 0).

(** ** Byte-addressed memory *)

Definition Memory : Type := Z -> byte.

Definition mem_load (m : Memory) (a : Z) (n : nat) : list byte :=
  map (fun i : nat => m (a + Z.of_nat i)) (seq 0 n).

Fixpoint mem_store (m : Memory) (a : Z) (bs : list byte) : Memory :=
  match bs with
  | [] => m
  | b :: bs' => mem_store (fun x => if x =? a then b else m x) (a + 1) bs'
  end.

(** [ldl_le_p], [stl_le_p], [stq_le_p] of qemu/bswap.h. *)
Definition ldl_le_p (m : Memory) (a : Z) : Z := le_combine (mem_load m a 4).
Definition stl_le_p (m : Memory) (a : Z) (v : Z) : Memory := mem_store m a (le_split 4 v).
Definition stq_le_p (m : Memory) (a : Z) (v : Z) : Memory := mem_store m a (le_split 8 v).

(** ** Constants of geforce.h *)

Definition GEFORCE_CHANNEL_COUNT : Z := 32.
Definition GEFORCE_SUBCHANNEL_COUNT : Z := 8.
Definition GEFORCE_CACHE1_SIZE : Z := 64.

(** The object classes [geforce_execute_command] knows how to run. *)
Inductive GeForceClass : Type :=
| ClassClip | ClassM2mf | ClassRop | ClassPatt | ClassGdi
| ClassImageBlit | ClassIfc | ClassSurf2d | ClassD3d.

(** The [switch (cls8)] of [geforce_execute_command]. *)
Definition class_of_id (cls8 : Z) : option GeForceClass :=
  if cls8 =? 0x19 then Some ClassClip
  else if cls8 =? 0x39 then Some ClassM2mf
  else if cls8 =? 0x43 then Some ClassRop
  else if cls8 =? 0x44 then Some ClassPatt
  else if cls8 =? 0x4a then Some ClassGdi
  else if (cls8 =? 0x5f) || (cls8 =? 0x9f) then Some ClassImageBlit
  else if (cls8 =? 0x61) || (cls8 =? 0x65) || (cls8 =? 0x8a) then Some ClassIfc
  else if cls8 =? 0x62 then Some ClassSurf2d
  else if cls8 =? 0x97 then Some ClassD3d
  else None.

Section Model.

(** The accumulator registers of the class handlers ([s2d_*], [ifc_*],
    [blit_*], [m2mf_*], [d3d_*], [rop], [clip_*], [patt_*], [gdi_*] of
    [GeForceChannel]).  The handlers and the raster operations they fire
    are outside the command-submission engine; their registers are kept
    abstract. *)
Variable ClassRegs : Type.

(** ** Data model (geforce.h) *)

Record GeForceSubchannel : Type := {
  object : Z;     (* uint32_t *)
  engine : Z;     (* uint8_t *)
  notifier : Z    (* uint32_t *)
}.

Record GeForceDataState : Type := {
  mthd : Z;
  subc : Z;
  mcnt : Z;
  ni : bool
}.

Record GeForceChannel : Type := {
  subr_return : Z;
  subr_active : bool;
  dma_state : GeForceDataState;
  schs : list GeForceSubchannel;       (* GEFORCE_SUBCHANNEL_COUNT entries *)
  notify_pending : bool;
  notify_type : Z;
  class_regs : ClassRegs
}.

(** [GeForceState], restricted to the fields the engine reads or writes.
    [sysmem] is [address_space_memory]; [irq_level] is the level last
    passed to [pci_set_irq]; [dispatch_log] is a history variable that
    records every call of [geforce_execute_command] as
    (chid, subc, method, param), oldest first. *)
Record GeForceState : Type := {
  card_type : Z;
  memsize : Z;
  ramin_flip : Z;
  class_mask : Z;
  vram : Memory;
  sysmem : Memory;
  irq_level : bool;
  mc_intr_en : Z;
  bus_intr : Z;
  bus_intr_en : Z;
  fifo_intr : Z;
  fifo_intr_en : Z;
  graph_intr : Z;
  graph_nsource : Z;
  graph_intr_en : Z;
  graph_notify : Z;
  crtc_intr : Z;
  crtc_intr_en : Z;
  fifo_ramht : Z;
  fifo_ramfc : Z;
  fifo_cache1_push1 : Z;
  fifo_cache1_put : Z;
  fifo_cache1_dma_instance : Z;
  fifo_cache1_dma_put : Z;
  fifo_cache1_dma_get : Z;
  fifo_cache1_ref_cnt : Z;
  fifo_cache1_pull0 : Z;
  fifo_cache1_semaphore : Z;
  fifo_cache1_get : Z;
  fifo_cache1_method : list Z;         (* GEFORCE_CACHE1_SIZE entries *)
  fifo_cache1_data : list Z;           (* GEFORCE_CACHE1_SIZE entries *)
  channels : list GeForceChannel;      (* GEFORCE_CHANNEL_COUNT entries *)
  dispatch_log : list (Z * Z * Z * Z)
}.

(** Field assignments. *)

Definition set_object (v : Z) (c : GeForceSubchannel) : GeForceSubchannel :=
  {| object := v; engine := engine c; notifier := notifier c |}.

Definition set_engine (v : Z) (c : GeForceSubchannel) : GeForceSubchannel :=
  {| object := object c; engine := v; notifier := notifier c |}.

Definition set_notifier (v : Z) (c : GeForceSubchannel) : GeForceSubchannel :=
  {| object := object c; engine := engine c; notifier := v |}.

Definition set_mthd (v : Z) (d : GeForceDataState) : GeForceDataState :=
  {| mthd := v; subc := subc d; mcnt := mcnt d; ni := ni d |}.

Definition set_mcnt (v : Z) (d : GeForceDataState) : GeForceDataState :=
  {| mthd := mthd d; subc := subc d; mcnt := v; ni := ni d |}.

Definition set_subr_return (v : Z) (c : GeForceChannel) : GeForceChannel :=
  {| subr_return := v; subr_active := subr_active c; dma_state := dma_state c; schs := schs c;
     notify_pending := notify_pending c; notify_type := notify_type c; class_regs := class_regs c |}.

Definition set_subr_active (v : bool) (c : GeForceChannel) : GeForceChannel :=
  {| subr_return := subr_return c; subr_active := v; dma_state := dma_state c; schs := schs c;
     notify_pending := notify_pending c; notify_type := notify_type c; class_regs := class_regs c |}.

Definition set_dma_state (v : GeForceDataState) (c : GeForceChannel) : GeForceChannel :=
  {| subr_return := subr_return c; subr_active := subr_active c; dma_state := v; schs := schs c;
     notify_pending := notify_pending c; notify_type := notify_type c; class_regs := class_regs c |}.

Definition set_schs (v : list GeForceSubchannel) (c : GeForceChannel) : GeForceChannel :=
  {| subr_return := subr_return c; subr_active := subr_active c; dma_state := dma_state c; schs := v;
     notify_pending := notify_pending c; notify_type := notify_type c; class_regs := class_regs c |}.

Definition set_notify_pending (v : bool) (c : GeForceChannel) : GeForceChannel :=
  {| subr_return := subr_return c; subr_active := subr_active c; dma_state := dma_state c;
     schs := schs c; notify_pending := v; notify_type := notify_type c; class_regs := class_regs c |}.

Definition set_notify_type (v : Z) (c : GeForceChannel) : GeForceChannel :=
  {| subr_return := subr_return c; subr_active := subr_active c; dma_state := dma_state c;
     schs := schs c; notify_pending := notify_pending c; notify_type := v; class_regs := class_regs c |}.

Definition set_class_regs (v : ClassRegs) (c : GeForceChannel) : GeForceChannel :=
  {| subr_return := subr_return c; subr_active := subr_active c; dma_state := dma_state c;
     schs := schs c; notify_pending := notify_pending c; notify_type := notify_type c;
     class_regs := v |}.

Definition set_vram (v : Memory) (s : GeForceState) : GeForceState :=
  {| card_type := card_type s; memsize := memsize s; ramin_flip := ramin_flip s;
     class_mask := class_mask s; vram := v; sysmem := sysmem s; irq_level := irq_level s;
     mc_intr_en := mc_intr_en s; bus_intr := bus_intr s; bus_intr_en := bus_intr_en s;
     fifo_intr := fifo_intr s; fifo_intr_en := fifo_intr_en s; graph_intr := graph_intr s;
     graph_nsource := graph_nsource s; graph_intr_en := graph_intr_en s;
     graph_notify := graph_notify s; crtc_intr := crtc_intr s; crtc_intr_en := crtc_intr_en s;
     fifo_ramht := fifo_ramht s; fifo_ramfc := fifo_ramfc s;
     fifo_cache1_push1 := fifo_cache1_push1 s; fifo_cache1_put := fifo_cache1_put s;
     fifo_cache1_dma_instance := fifo_cache1_dma_instance s;
     fifo_cache1_dma_put := fifo_cache1_dma_put s; fifo_cache1_dma_get := fifo_cache1_dma_get s;
     fifo_cache1_ref_cnt := fifo_cache1_ref_cnt s; fifo_cache1_pull0 := fifo_cache1_pull0 s;
     fifo_cache1_semaphore := fifo_cache1_semaphore s; fifo_cache1_get := fifo_cache1_get s;
     fifo_cache1_method := fifo_cache1_method s; fifo_cache1_data := fifo_cache1_data s;
     channels := channels s; dispatch_log := dispatch_log s |}.

Definition set_sysmem (v : Memory) (s : GeForceState) : GeForceState :=
  {| card_type := card_type s; memsize := memsize s; ramin_flip := ramin_flip s;
     class_mask := class_mask s; vram := vram s; sysmem := v; irq_level := irq_level s;
     mc_intr_en := mc_intr_en s; bus_intr := bus_intr s; bus_intr_en := bus_intr_en s;
     fifo_intr := fifo_intr s; fifo_intr_en := fifo_intr_en s; graph_intr := graph_intr s;
     graph_nsource := graph_nsource s; graph_intr_en := graph_intr_en s;
     graph_notify := graph_notify s; crtc_intr := crtc_intr s; crtc_intr_en := crtc_intr_en s;
     fifo_ramht := fifo_ramht s; fifo_ramfc := fifo_ramfc s;
     fifo_cache1_push1 := fifo_cache1_push1 s; fifo_cache1_put := fifo_cache1_put s;
     fifo_cache1_dma_instance := fifo_cache1_dma_instance s;
     fifo_cache1_dma_put := fifo_cache1_dma_put s; fifo_cache1_dma_get := fifo_cache1_dma_get s;
     fifo_cache1_ref_cnt := fifo_cache1_ref_cnt s; fifo_cache1_pull0 := fifo_cache1_pull0 s;
     fifo_cache1_semaphore := fifo_cache1_semaphore s; fifo_cache1_get := fifo_cache1_get s;
     fifo_cache1_method := fifo_cache1_method s; fifo_cache1_data := fifo_cache1_data s;
     channels := channels s; dispatch_log := dispatch_log s |}.

Definition set_irq_level (v : bool) (s : GeForceState) : GeForceState :=
  {| card_type := card_type s; memsize := memsize s; ramin_flip := ramin_flip s;
     class_mask := class_mask s; vram := vram s; sysmem := sysmem s; irq_level := v;
     mc_intr_en := mc_intr_en s; bus_intr := bus_intr s; bus_intr_en := bus_intr_en s;
     fifo_intr := fifo_intr s; fifo_intr_en := fifo_intr_en s; graph_intr := graph_intr s;
     graph_nsource := graph_nsource s; graph_intr_en := graph_intr_en s;
     graph_notify := graph_notify s; crtc_intr := crtc_intr s; crtc_intr_en := crtc_intr_en s;
     fifo_ramht := fifo_ramht s; fifo_ramfc := fifo_ramfc s;
     fifo_cache1_push1 := fifo_cache1_push1 s; fifo_cache1_put := fifo_cache1_put s;
     fifo_cache1_dma_instance := fifo_cache1_dma_instance s;
     fifo_cache1_dma_put := fifo_cache1_dma_put s; fifo_cache1_dma_get := fifo_cache1_dma_get s;
     fifo_cache1_ref_cnt := fifo_cache1_ref_cnt s; fifo_cache1_pull0 := fifo_cache1_pull0 s;
     fifo_cache1_semaphore := fifo_cache1_semaphore s; fifo_cache1_get := fifo_cache1_get s;
     fifo_cache1_method := fifo_cache1_method s; fifo_cache1_data := fifo_cache1_data s;
     channels := channels s; dispatch_log := dispatch_log s |}.

Definition set_fifo_intr (v : Z) (s : GeForceState) : GeForceState :=
  {| card_type := card_type s; memsize := memsize s; ramin_flip := ramin_flip s;
     class_mask := class_mask s; vram := vram s; sysmem := sysmem s; irq_level := irq_level s;
     mc_intr_en := mc_intr_en s; bus_intr := bus_intr s; bus_intr_en := bus_intr_en s;
     fifo_intr := v; fifo_intr_en := fifo_intr_en s; graph_intr := graph_intr s;
     graph_nsource := graph_nsource s; graph_intr_en := graph_intr_en s;
     graph_notify := graph_notify s; crtc_intr := crtc_intr s; crtc_intr_en := crtc_intr_en s;
     fifo_ramht := fifo_ramht s; fifo_ramfc := fifo_ramfc s;
     fifo_cache1_push1 := fifo_cache1_push1 s; fifo_cache1_put := fifo_cache1_put s;
     fifo_cache1_dma_instance := fifo_cache1_dma_instance s;
     fifo_cache1_dma_put := fifo_cache1_dma_put s; fifo_cache1_dma_get := fifo_cache1_dma_get s;
     fifo_cache1_ref_cnt := fifo_cache1_ref_cnt s; fifo_cache1_pull0 := fifo_cache1_pull0 s;
     fifo_cache1_semaphore := fifo_cache1_semaphore s; fifo_cache1_get := fifo_cache1_get s;
     fifo_cache1_method := fifo_cache1_method s; fifo_cache1_data := fifo_cache1_data s;
     channels := channels s; dispatch_log := dispatch_log s |}.

Definition set_graph_intr (v : Z) (s : GeForceState) : GeForceState :=
  {| card_type := card_type s; memsize := memsize s; ramin_flip := ramin_flip s;
     class_mask := class_mask s; vram := vram s; sysmem := sysmem s; irq_level := irq_level s;
     mc_intr_en := mc_intr_en s; bus_intr := bus_intr s; bus_intr_en := bus_intr_en s;
     fifo_intr := fifo_intr s; fifo_intr_en := fifo_intr_en s; graph_intr := v;
     graph_nsource := graph_nsource s; graph_intr_en := graph_intr_en s;
     graph_notify := graph_notify s; crtc_intr := crtc_intr s; crtc_intr_en := crtc_intr_en s;
     fifo_ramht := fifo_ramht s; fifo_ramfc := fifo_ramfc s;
     fifo_cache1_push1 := fifo_cache1_push1 s; fifo_cache1_put := fifo_cache1_put s;
     fifo_cache1_dma_instance := fifo_cache1_dma_instance s;
     fifo_cache1_dma_put := fifo_cache1_dma_put s; fifo_cache1_dma_get := fifo_cache1_dma_get s;
     fifo_cache1_ref_cnt := fifo_cache1_ref_cnt s; fifo_cache1_pull0 := fifo_cache1_pull0 s;
     fifo_cache1_semaphore := fifo_cache1_semaphore s; fifo_cache1_get := fifo_cache1_get s;
     fifo_cache1_method := fifo_cache1_method s; fifo_cache1_data := fifo_cache1_data s;
     channels := channels s; dispatch_log := dispatch_log s |}.

Definition set_graph_nsource (v : Z) (s : GeForceState) : GeForceState :=
  {| card_type := card_type s; memsize := memsize s; ramin_flip := ramin_flip s;
     class_mask := class_mask s; vram := vram s; sysmem := sysmem s; irq_level := irq_level s;
     mc_intr_en := mc_intr_en s; bus_intr := bus_intr s; bus_intr_en := bus_intr_en s;
     fifo_intr := fifo_intr s; fifo_intr_en := fifo_intr_en s; graph_intr := graph_intr s;
     graph_nsource := v; graph_intr_en := graph_intr_en s; graph_notify := graph_notify s;
     crtc_intr := crtc_intr s; crtc_intr_en := crtc_intr_en s; fifo_ramht := fifo_ramht s;
     fifo_ramfc := fifo_ramfc s; fifo_cache1_push1 := fifo_cache1_push1 s;
     fifo_cache1_put := fifo_cache1_put s; fifo_cache1_dma_instance := fifo_cache1_dma_instance s;
     fifo_cache1_dma_put := fifo_cache1_dma_put s; fifo_cache1_dma_get := fifo_cache1_dma_get s;
     fifo_cache1_ref_cnt := fifo_cache1_ref_cnt s; fifo_cache1_pull0 := fifo_cache1_pull0 s;
     fifo_cache1_semaphore := fifo_cache1_semaphore s; fifo_cache1_get := fifo_cache1_get s;
     fifo_cache1_method := fifo_cache1_method s; fifo_cache1_data := fifo_cache1_data s;
     channels := channels s; dispatch_log := dispatch_log s |}.

Definition set_graph_notify (v : Z) (s : GeForceState) : GeForceState :=
  {| card_type := card_type s; memsize := memsize s; ramin_flip := ramin_flip s;
     class_mask := class_mask s; vram := vram s; sysmem := sysmem s; irq_level := irq_level s;
     mc_intr_en := mc_intr_en s; bus_intr := bus_intr s; bus_intr_en := bus_intr_en s;
     fifo_intr := fifo_intr s; fifo_intr_en := fifo_intr_en s; graph_intr := graph_intr s;
     graph_nsource := graph_nsource s; graph_intr_en := graph_intr_en s; graph_notify := v;
     crtc_intr := crtc_intr s; crtc_intr_en := crtc_intr_en s; fifo_ramht := fifo_ramht s;
     fifo_ramfc := fifo_ramfc s; fifo_cache1_push1 := fifo_cache1_push1 s;
     fifo_cache1_put := fifo_cache1_put s; fifo_cache1_dma_instance := fifo_cache1_dma_instance s;
     fifo_cache1_dma_put := fifo_cache1_dma_put s; fifo_cache1_dma_get := fifo_cache1_dma_get s;
     fifo_cache1_ref_cnt := fifo_cache1_ref_cnt s; fifo_cache1_pull0 := fifo_cache1_pull0 s;
     fifo_cache1_semaphore := fifo_cache1_semaphore s; fifo_cache1_get := fifo_cache1_get s;
     fifo_cache1_method := fifo_cache1_method s; fifo_cache1_data := fifo_cache1_data s;
     channels := channels s; dispatch_log := dispatch_log s |}.

Definition set_fifo_cache1_push1 (v : Z) (s : GeForceState) : GeForceState :=
  {| card_type := card_type s; memsize := memsize s; ramin_flip := ramin_flip s;
     class_mask := class_mask s; vram := vram s; sysmem := sysmem s; irq_level := irq_level s;
     mc_intr_en := mc_intr_en s; bus_intr := bus_intr s; bus_intr_en := bus_intr_en s;
     fifo_intr := fifo_intr s; fifo_intr_en := fifo_intr_en s; graph_intr := graph_intr s;
     graph_nsource := graph_nsource s; graph_intr_en := graph_intr_en s;
     graph_notify := graph_notify s; crtc_intr := crtc_intr s; crtc_intr_en := crtc_intr_en s;
     fifo_ramht := fifo_ramht s; fifo_ramfc := fifo_ramfc s; fifo_cache1_push1 := v;
     fifo_cache1_put := fifo_cache1_put s; fifo_cache1_dma_instance := fifo_cache1_dma_instance s;
     fifo_cache1_dma_put := fifo_cache1_dma_put s; fifo_cache1_dma_get := fifo_cache1_dma_get s;
     fifo_cache1_ref_cnt := fifo_cache1_ref_cnt s; fifo_cache1_pull0 := fifo_cache1_pull0 s;
     fifo_cache1_semaphore := fifo_cache1_semaphore s; fifo_cache1_get := fifo_cache1_get s;
     fifo_cache1_method := fifo_cache1_method s; fifo_cache1_data := fifo_cache1_data s;
     channels := channels s; dispatch_log := dispatch_log s |}.

Definition set_fifo_cache1_put (v : Z) (s : GeForceState) : GeForceState :=
  {| card_type := card_type s; memsize := memsize s; ramin_flip := ramin_flip s;
     class_mask := class_mask s; vram := vram s; sysmem := sysmem s; irq_level := irq_level s;
     mc_intr_en := mc_intr_en s; bus_intr := bus_intr s; bus_intr_en := bus_intr_en s;
     fifo_intr := fifo_intr s; fifo_intr_en := fifo_intr_en s; graph_intr := graph_intr s;
     graph_nsource := graph_nsource s; graph_intr_en := graph_intr_en s;
     graph_notify := graph_notify s; crtc_intr := crtc_intr s; crtc_intr_en := crtc_intr_en s;
     fifo_ramht := fifo_ramht s; fifo_ramfc := fifo_ramfc s;
     fifo_cache1_push1 := fifo_cache1_push1 s; fifo_cache1_put := v;
     fifo_cache1_dma_instance := fifo_cache1_dma_instance s;
     fifo_cache1_dma_put := fifo_cache1_dma_put s; fifo_cache1_dma_get := fifo_cache1_dma_get s;
     fifo_cache1_ref_cnt := fifo_cache1_ref_cnt s; fifo_cache1_pull0 := fifo_cache1_pull0 s;
     fifo_cache1_semaphore := fifo_cache1_semaphore s; fifo_cache1_get := fifo_cache1_get s;
     fifo_cache1_method := fifo_cache1_method s; fifo_cache1_data := fifo_cache1_data s;
     channels := channels s; dispatch_log := dispatch_log s |}.

Definition set_fifo_cache1_dma_instance (v : Z) (s : GeForceState) : GeForceState :=
  {| card_type := card_type s; memsize := memsize s; ramin_flip := ramin_flip s;
     class_mask := class_mask s; vram := vram s; sysmem := sysmem s; irq_level := irq_level s;
     mc_intr_en := mc_intr_en s; bus_intr := bus_intr s; bus_intr_en := bus_intr_en s;
     fifo_intr := fifo_intr s; fifo_intr_en := fifo_intr_en s; graph_intr := graph_intr s;
     graph_nsource := graph_nsource s; graph_intr_en := graph_intr_en s;
     graph_notify := graph_notify s; crtc_intr := crtc_intr s; crtc_intr_en := crtc_intr_en s;
     fifo_ramht := fifo_ramht s; fifo_ramfc := fifo_ramfc s;
     fifo_cache1_push1 := fifo_cache1_push1 s; fifo_cache1_put := fifo_cache1_put s;
     fifo_cache1_dma_instance := v; fifo_cache1_dma_put := fifo_cache1_dma_put s;
     fifo_cache1_dma_get := fifo_cache1_dma_get s; fifo_cache1_ref_cnt := fifo_cache1_ref_cnt s;
     fifo_cache1_pull0 := fifo_cache1_pull0 s; fifo_cache1_semaphore := fifo_cache1_semaphore s;
     fifo_cache1_get := fifo_cache1_get s; fifo_cache1_method := fifo_cache1_method s;
     fifo_cache1_data := fifo_cache1_data s; channels := channels s; dispatch_log := dispatch_log s |}.

Definition set_fifo_cache1_dma_put (v : Z) (s : GeForceState) : GeForceState :=
  {| card_type := card_type s; memsize := memsize s; ramin_flip := ramin_flip s;
     class_mask := class_mask s; vram := vram s; sysmem := sysmem s; irq_level := irq_level s;
     mc_intr_en := mc_intr_en s; bus_intr := bus_intr s; bus_intr_en := bus_intr_en s;
     fifo_intr := fifo_intr s; fifo_intr_en := fifo_intr_en s; graph_intr := graph_intr s;
     graph_nsource := graph_nsource s; graph_intr_en := graph_intr_en s;
     graph_notify := graph_notify s; crtc_intr := crtc_intr s; crtc_intr_en := crtc_intr_en s;
     fifo_ramht := fifo_ramht s; fifo_ramfc := fifo_ramfc s;
     fifo_cache1_push1 := fifo_cache1_push1 s; fifo_cache1_put := fifo_cache1_put s;
     fifo_cache1_dma_instance := fifo_cache1_dma_instance s; fifo_cache1_dma_put := v;
     fifo_cache1_dma_get := fifo_cache1_dma_get s; fifo_cache1_ref_cnt := fifo_cache1_ref_cnt s;
     fifo_cache1_pull0 := fifo_cache1_pull0 s; fifo_cache1_semaphore := fifo_cache1_semaphore s;
     fifo_cache1_get := fifo_cache1_get s; fifo_cache1_method := fifo_cache1_method s;
     fifo_cache1_data := fifo_cache1_data s; channels := channels s; dispatch_log := dispatch_log s |}.

Definition set_fifo_cache1_dma_get (v : Z) (s : GeForceState) : GeForceState :=
  {| card_type := card_type s; memsize := memsize s; ramin_flip := ramin_flip s;
     class_mask := class_mask s; vram := vram s; sysmem := sysmem s; irq_level := irq_level s;
     mc_intr_en := mc_intr_en s; bus_intr := bus_intr s; bus_intr_en := bus_intr_en s;
     fifo_intr := fifo_intr s; fifo_intr_en := fifo_intr_en s; graph_intr := graph_intr s;
     graph_nsource := graph_nsource s; graph_intr_en := graph_intr_en s;
     graph_notify := graph_notify s; crtc_intr := crtc_intr s; crtc_intr_en := crtc_intr_en s;
     fifo_ramht := fifo_ramht s; fifo_ramfc := fifo_ramfc s;
     fifo_cache1_push1 := fifo_cache1_push1 s; fifo_cache1_put := fifo_cache1_put s;
     fifo_cache1_dma_instance := fifo_cache1_dma_instance s;
     fifo_cache1_dma_put := fifo_cache1_dma_put s; fifo_cache1_dma_get := v;
     fifo_cache1_ref_cnt := fifo_cache1_ref_cnt s; fifo_cache1_pull0 := fifo_cache1_pull0 s;
     fifo_cache1_semaphore := fifo_cache1_semaphore s; fifo_cache1_get := fifo_cache1_get s;
     fifo_cache1_method := fifo_cache1_method s; fifo_cache1_data := fifo_cache1_data s;
     channels := channels s; dispatch_log := dispatch_log s |}.

Definition set_fifo_cache1_ref_cnt (v : Z) (s : GeForceState) : GeForceState :=
  {| card_type := card_type s; memsize := memsize s; ramin_flip := ramin_flip s;
     class_mask := class_mask s; vram := vram s; sysmem := sysmem s; irq_level := irq_level s;
     mc_intr_en := mc_intr_en s; bus_intr := bus_intr s; bus_intr_en := bus_intr_en s;
     fifo_intr := fifo_intr s; fifo_intr_en := fifo_intr_en s; graph_intr := graph_intr s;
     graph_nsource := graph_nsource s; graph_intr_en := graph_intr_en s;
     graph_notify := graph_notify s; crtc_intr := crtc_intr s; crtc_intr_en := crtc_intr_en s;
     fifo_ramht := fifo_ramht s; fifo_ramfc := fifo_ramfc s;
     fifo_cache1_push1 := fifo_cache1_push1 s; fifo_cache1_put := fifo_cache1_put s;
     fifo_cache1_dma_instance := fifo_cache1_dma_instance s;
     fifo_cache1_dma_put := fifo_cache1_dma_put s; fifo_cache1_dma_get := fifo_cache1_dma_get s;
     fifo_cache1_ref_cnt := v; fifo_cache1_pull0 := fifo_cache1_pull0 s;
     fifo_cache1_semaphore := fifo_cache1_semaphore s; fifo_cache1_get := fifo_cache1_get s;
     fifo_cache1_method := fifo_cache1_method s; fifo_cache1_data := fifo_cache1_data s;
     channels := channels s; dispatch_log := dispatch_log s |}.

Definition set_fifo_cache1_pull0 (v : Z) (s : GeForceState) : GeForceState :=
  {| card_type := card_type s; memsize := memsize s; ramin_flip := ramin_flip s;
     class_mask := class_mask s; vram := vram s; sysmem := sysmem s; irq_level := irq_level s;
     mc_intr_en := mc_intr_en s; bus_intr := bus_intr s; bus_intr_en := bus_intr_en s;
     fifo_intr := fifo_intr s; fifo_intr_en := fifo_intr_en s; graph_intr := graph_intr s;
     graph_nsource := graph_nsource s; graph_intr_en := graph_intr_en s;
     graph_notify := graph_notify s; crtc_intr := crtc_intr s; crtc_intr_en := crtc_intr_en s;
     fifo_ramht := fifo_ramht s; fifo_ramfc := fifo_ramfc s;
     fifo_cache1_push1 := fifo_cache1_push1 s; fifo_cache1_put := fifo_cache1_put s;
     fifo_cache1_dma_instance := fifo_cache1_dma_instance s;
     fifo_cache1_dma_put := fifo_cache1_dma_put s; fifo_cache1_dma_get := fifo_cache1_dma_get s;
     fifo_cache1_ref_cnt := fifo_cache1_ref_cnt s; fifo_cache1_pull0 := v;
     fifo_cache1_semaphore := fifo_cache1_semaphore s; fifo_cache1_get := fifo_cache1_get s;
     fifo_cache1_method := fifo_cache1_method s; fifo_cache1_data := fifo_cache1_data s;
     channels := channels s; dispatch_log := dispatch_log s |}.

Definition set_fifo_cache1_semaphore (v : Z) (s : GeForceState) : GeForceState :=
  {| card_type := card_type s; memsize := memsize s; ramin_flip := ramin_flip s;
     class_mask := class_mask s; vram := vram s; sysmem := sysmem s; irq_level := irq_level s;
     mc_intr_en := mc_intr_en s; bus_intr := bus_intr s; bus_intr_en := bus_intr_en s;
     fifo_intr := fifo_intr s; fifo_intr_en := fifo_intr_en s; graph_intr := graph_intr s;
     graph_nsource := graph_nsource s; graph_intr_en := graph_intr_en s;
     graph_notify := graph_notify s; crtc_intr := crtc_intr s; crtc_intr_en := crtc_intr_en s;
     fifo_ramht := fifo_ramht s; fifo_ramfc := fifo_ramfc s;
     fifo_cache1_push1 := fifo_cache1_push1 s; fifo_cache1_put := fifo_cache1_put s;
     fifo_cache1_dma_instance := fifo_cache1_dma_instance s;
     fifo_cache1_dma_put := fifo_cache1_dma_put s; fifo_cache1_dma_get := fifo_cache1_dma_get s;
     fifo_cache1_ref_cnt := fifo_cache1_ref_cnt s; fifo_cache1_pull0 := fifo_cache1_pull0 s;
     fifo_cache1_semaphore := v; fifo_cache1_get := fifo_cache1_get s;
     fifo_cache1_method := fifo_cache1_method s; fifo_cache1_data := fifo_cache1_data s;
     channels := channels s; dispatch_log := dispatch_log s |}.

Definition set_fifo_cache1_get (v : Z) (s : GeForceState) : GeForceState :=
  {| card_type := card_type s; memsize := memsize s; ramin_flip := ramin_flip s;
     class_mask := class_mask s; vram := vram s; sysmem := sysmem s; irq_level := irq_level s;
     mc_intr_en := mc_intr_en s; bus_intr := bus_intr s; bus_intr_en := bus_intr_en s;
     fifo_intr := fifo_intr s; fifo_intr_en := fifo_intr_en s; graph_intr := graph_intr s;
     graph_nsource := graph_nsource s; graph_intr_en := graph_intr_en s;
     graph_notify := graph_notify s; crtc_intr := crtc_intr s; crtc_intr_en := crtc_intr_en s;
     fifo_ramht := fifo_ramht s; fifo_ramfc := fifo_ramfc s;
     fifo_cache1_push1 := fifo_cache1_push1 s; fifo_cache1_put := fifo_cache1_put s;
     fifo_cache1_dma_instance := fifo_cache1_dma_instance s;
     fifo_cache1_dma_put := fifo_cache1_dma_put s; fifo_cache1_dma_get := fifo_cache1_dma_get s;
     fifo_cache1_ref_cnt := fifo_cache1_ref_cnt s; fifo_cache1_pull0 := fifo_cache1_pull0 s;
     fifo_cache1_semaphore := fifo_cache1_semaphore s; fifo_cache1_get := v;
     fifo_cache1_method := fifo_cache1_method s; fifo_cache1_data := fifo_cache1_data s;
     channels := channels s; dispatch_log := dispatch_log s |}.

Definition set_fifo_cache1_method (v : list Z) (s : GeForceState) : GeForceState :=
  {| card_type := card_type s; memsize := memsize s; ramin_flip := ramin_flip s;
     class_mask := class_mask s; vram := vram s; sysmem := sysmem s; irq_level := irq_level s;
     mc_intr_en := mc_intr_en s; bus_intr := bus_intr s; bus_intr_en := bus_intr_en s;
     fifo_intr := fifo_intr s; fifo_intr_en := fifo_intr_en s; graph_intr := graph_intr s;
     graph_nsource := graph_nsource s; graph_intr_en := graph_intr_en s;
     graph_notify := graph_notify s; crtc_intr := crtc_intr s; crtc_intr_en := crtc_intr_en s;
     fifo_ramht := fifo_ramht s; fifo_ramfc := fifo_ramfc s;
     fifo_cache1_push1 := fifo_cache1_push1 s; fifo_cache1_put := fifo_cache1_put s;
     fifo_cache1_dma_instance := fifo_cache1_dma_instance s;
     fifo_cache1_dma_put := fifo_cache1_dma_put s; fifo_cache1_dma_get := fifo_cache1_dma_get s;
     fifo_cache1_ref_cnt := fifo_cache1_ref_cnt s; fifo_cache1_pull0 := fifo_cache1_pull0 s;
     fifo_cache1_semaphore := fifo_cache1_semaphore s; fifo_cache1_get := fifo_cache1_get s;
     fifo_cache1_method := v; fifo_cache1_data := fifo_cache1_data s; channels := channels s;
     dispatch_log := dispatch_log s |}.

Definition set_fifo_cache1_data (v : list Z) (s : GeForceState) : GeForceState :=
  {| card_type := card_type s; memsize := memsize s; ramin_flip := ramin_flip s;
     class_mask := class_mask s; vram := vram s; sysmem := sysmem s; irq_level := irq_level s;
     mc_intr_en := mc_intr_en s; bus_intr := bus_intr s; bus_intr_en := bus_intr_en s;
     fifo_intr := fifo_intr s; fifo_intr_en := fifo_intr_en s; graph_intr := graph_intr s;
     graph_nsource := graph_nsource s; graph_intr_en := graph_intr_en s;
     graph_notify := graph_notify s; crtc_intr := crtc_intr s; crtc_intr_en := crtc_intr_en s;
     fifo_ramht := fifo_ramht s; fifo_ramfc := fifo_ramfc s;
     fifo_cache1_push1 := fifo_cache1_push1 s; fifo_cache1_put := fifo_cache1_put s;
     fifo_cache1_dma_instance := fifo_cache1_dma_instance s;
     fifo_cache1_dma_put := fifo_cache1_dma_put s; fifo_cache1_dma_get := fifo_cache1_dma_get s;
     fifo_cache1_ref_cnt := fifo_cache1_ref_cnt s; fifo_cache1_pull0 := fifo_cache1_pull0 s;
     fifo_cache1_semaphore := fifo_cache1_semaphore s; fifo_cache1_get := fifo_cache1_get s;
     fifo_cache1_method := fifo_cache1_method s; fifo_cache1_data := v; channels := channels s;
     dispatch_log := dispatch_log s |}.

Definition set_channels (v : list GeForceChannel) (s : GeForceState) : GeForceState :=
  {| card_type := card_type s; memsize := memsize s; ramin_flip := ramin_flip s;
     class_mask := class_mask s; vram := vram s; sysmem := sysmem s; irq_level := irq_level s;
     mc_intr_en := mc_intr_en s; bus_intr := bus_intr s; bus_intr_en := bus_intr_en s;
     fifo_intr := fifo_intr s; fifo_intr_en := fifo_intr_en s; graph_intr := graph_intr s;
     graph_nsource := graph_nsource s; graph_intr_en := graph_intr_en s;
     graph_notify := graph_notify s; crtc_intr := crtc_intr s; crtc_intr_en := crtc_intr_en s;
     fifo_ramht := fifo_ramht s; fifo_ramfc := fifo_ramfc s;
     fifo_cache1_push1 := fifo_cache1_push1 s; fifo_cache1_put := fifo_cache1_put s;
     fifo_cache1_dma_instance := fifo_cache1_dma_instance s;
     fifo_cache1_dma_put := fifo_cache1_dma_put s; fifo_cache1_dma_get := fifo_cache1_dma_get s;
     fifo_cache1_ref_cnt := fifo_cache1_ref_cnt s; fifo_cache1_pull0 := fifo_cache1_pull0 s;
     fifo_cache1_semaphore := fifo_cache1_semaphore s; fifo_cache1_get := fifo_cache1_get s;
     fifo_cache1_method := fifo_cache1_method s; fifo_cache1_data := fifo_cache1_data s;
     channels := v; dispatch_log := dispatch_log s |}.

Definition set_dispatch_log (v : list (Z * Z * Z * Z)) (s : GeForceState) : GeForceState :=
  {| card_type := card_type s; memsize := memsize s; ramin_flip := ramin_flip s;
     class_mask := class_mask s; vram := vram s; sysmem := sysmem s; irq_level := irq_level s;
     mc_intr_en := mc_intr_en s; bus_intr := bus_intr s; bus_intr_en := bus_intr_en s;
     fifo_intr := fifo_intr s; fifo_intr_en := fifo_intr_en s; graph_intr := graph_intr s;
     graph_nsource := graph_nsource s; graph_intr_en := graph_intr_en s;
     graph_notify := graph_notify s; crtc_intr := crtc_intr s; crtc_intr_en := crtc_intr_en s;
     fifo_ramht := fifo_ramht s; fifo_ramfc := fifo_ramfc s;
     fifo_cache1_push1 := fifo_cache1_push1 s; fifo_cache1_put := fifo_cache1_put s;
     fifo_cache1_dma_instance := fifo_cache1_dma_instance s;
     fifo_cache1_dma_put := fifo_cache1_dma_put s; fifo_cache1_dma_get := fifo_cache1_dma_get s;
     fifo_cache1_ref_cnt := fifo_cache1_ref_cnt s; fifo_cache1_pull0 := fifo_cache1_pull0 s;
     fifo_cache1_semaphore := fifo_cache1_semaphore s; fifo_cache1_get := fifo_cache1_get s;
     fifo_cache1_method := fifo_cache1_method s; fifo_cache1_data := fifo_cache1_data s;
     channels := channels s; dispatch_log := v |}.

(** ** Array accesses

    [&s->channels[chid]] and [ch->schs[subc]]. *)

Context `{Inhabited ClassRegs}.

#[export] Instance GeForceSubchannel_inhabited : Inhabited GeForceSubchannel :=
  populate {| object := 0; engine := 0; notifier := 0 |}.

#[export] Instance GeForceDataState_inhabited : Inhabited GeForceDataState :=
  populate {| mthd := 0; subc := 0; mcnt := 0; ni := false |}.

#[export] Instance GeForceChannel_inhabited : Inhabited GeForceChannel :=
  populate {| subr_return := 0; subr_active := false; dma_state := inhabitant; schs := [];
              notify_pending := false; notify_type := 0; class_regs := inhabitant |}.

Definition get_channel (s : GeForceState) (chid : Z) : GeForceChannel :=
  channels s !!! Z.to_nat chid.

Definition put_channel (chid : Z) (c : GeForceChannel) (s : GeForceState) : GeForceState :=
  set_channels (<[Z.to_nat chid := c]> (channels s)) s.

Definition get_subch (c : GeForceChannel) (sc : Z) : GeForceSubchannel :=
  schs c !!! Z.to_nat sc.

Definition put_subch (sc : Z) (x : GeForceSubchannel) (c : GeForceChannel) : GeForceChannel :=
  set_schs (<[Z.to_nat sc := x]> (schs c)) c.

(** ** Memory access functions *)

Definition geforce_vram_read32 (s : GeForceState) (addr : Z) : Z :=
  if u32 (addr + 3) <? memsize s then ldl_le_p (vram s) addr else 0.

Definition geforce_vram_write32 (s : GeForceState) (addr val : Z) : GeForceState :=
  if u32 (addr + 3) <? memsize s then set_vram (stl_le_p (vram s) addr val) s else s.

Definition geforce_vram_write64 (s : GeForceState) (addr val : Z) : GeForceState :=
  if u32 (addr + 7) <? memsize s then set_vram (stq_le_p (vram s) addr val) s else s.

Definition geforce_ramin_read32 (s : GeForceState) (addr : Z) : Z :=
  geforce_vram_read32 s (Z.lxor addr (ramin_flip s)).

Definition geforce_ramin_write32 (s : GeForceState) (addr val : Z) : GeForceState :=
  geforce_vram_write32 s (Z.lxor addr (ramin_flip s)) val.

(** Physical memory access helpers ([ldl_le_phys], [stl_le_phys],
    [stq_le_phys] on [address_space_memory]).  Guest memory is a byte
    map of its own here.  Which guest addresses are backed by RAM, and
    which by the BARs of the card that [geforce_realize] registers, is
    decided by the memory map of the machine, outside this device; so
    the statements below compute the address of a guest access and never
    rely on what a guest address reads back or on guest memory lying
    apart from device memory. *)

Definition geforce_physical_read32 (s : GeForceState) (addr : Z) : Z :=
  ldl_le_p (sysmem s) addr.

Definition geforce_physical_write32 (s : GeForceState) (addr val : Z) : GeForceState :=
  set_sysmem (stl_le_p (sysmem s) addr val) s.

Definition geforce_physical_write64 (s : GeForceState) (addr val : Z) : GeForceState :=
  set_sysmem (stq_le_p (sysmem s) addr val) s.

(** ** DMA access functions *)

Definition geforce_dma_pt_lookup (s : GeForceState) (obj addr : Z) : Z :=
  let address_adj := u32 (addr + Z.shiftr (geforce_ramin_read32 s obj) 20) in
  let page_offset := Z.land address_adj 0xFFF in
  let page_index := Z.shiftr address_adj 12 in
  let page :=
    Z.land (geforce_ramin_read32 s (u32 (u32 (obj + 8) + u32 (page_index * 4)))) 0xFFFFF000 in
  Z.lor page page_offset.

Definition geforce_dma_lin_lookup (s : GeForceState) (obj addr : Z) : Z :=
  let adjust := Z.shiftr (geforce_ramin_read32 s obj) 20 in
  let base := Z.land (geforce_ramin_read32 s (u32 (obj + 8))) 0xFFFFF000 in
  u32 (u32 (base + adjust) + addr).

(** The address resolution every [geforce_dma_read*] and
    [geforce_dma_write*] starts with:
    [if (flags & 0x00002000) lin_lookup else pt_lookup]. *)
Definition geforce_dma_addr_abs (s : GeForceState) (flags obj addr : Z) : Z :=
  if nonzero (Z.land flags 0x00002000)
  then geforce_dma_lin_lookup s obj addr
  else geforce_dma_pt_lookup s obj addr.

Definition geforce_dma_read32 (s : GeForceState) (obj addr : Z) : Z :=
  let flags := geforce_ramin_read32 s obj in
  let addr_abs := geforce_dma_addr_abs s flags obj addr in
  if nonzero (Z.land flags 0x00020000)
  then geforce_physical_read32 s addr_abs
  else geforce_vram_read32 s addr_abs.

Definition geforce_dma_write32 (s : GeForceState) (obj addr val : Z) : GeForceState :=
  let flags := geforce_ramin_read32 s obj in
  let addr_abs := geforce_dma_addr_abs s flags obj addr in
  if nonzero (Z.land flags 0x00020000)
  then geforce_physical_write32 s addr_abs val
  else geforce_vram_write32 s addr_abs val.

Definition geforce_dma_write64 (s : GeForceState) (obj addr val : Z) : GeForceState :=
  let flags := geforce_ramin_read32 s obj in
  let addr_abs := geforce_dma_addr_abs s flags obj addr in
  if nonzero (Z.land flags 0x00020000)
  then geforce_physical_write64 s addr_abs val
  else geforce_vram_write64 s addr_abs val.

(** ** IRQ management *)

Definition geforce_update_irq (s : GeForceState) : GeForceState :=
  let level := 0 in
  let level :=
    if nonzero (Z.land (bus_intr s) (bus_intr_en s)) then Z.lor level 0x10000000 else level in
  let level :=
    if nonzero (Z.land (fifo_intr s) (fifo_intr_en s)) then Z.lor level 0x00000100 else level in
  let level :=
    if nonzero (Z.land (graph_intr s) (graph_intr_en s)) then Z.lor level 0x00001000 else level in
  let level :=
    if nonzero (Z.land (crtc_intr s) (crtc_intr_en s)) then Z.lor level 0x01000000 else level in
  set_irq_level (nonzero level && nonzero (Z.land (mc_intr_en s) 1)) s.

(** ** RAMFC access *)

Definition geforce_ramfc_address (s : GeForceState) (chid offset : Z) : Z :=
  let ramfc :=
    if card_type s <? 0x40
    then u32 (Z.shiftl (Z.land (fifo_ramfc s) 0xFFF) 8)
    else u32 (Z.shiftl (Z.land (fifo_ramfc s) 0xFFF) 16) in
  let ramfc_ch_size := if card_type s <? 0x40 then 0x40 else 0x80 in
  u32 (u32 (ramfc + u32 (chid * ramfc_ch_size)) + offset).

Definition geforce_ramfc_write32 (s : GeForceState) (chid offset value : Z) : GeForceState :=
  geforce_ramin_write32 s (geforce_ramfc_address s chid offset) value.

Definition geforce_ramfc_read32 (s : GeForceState) (chid offset : Z) : Z :=
  geforce_ramin_read32 s (geforce_ramfc_address s chid offset).

(** ** RAMHT lookup *)

Definition ramht_addr (s : GeForceState) : Z :=
  u32 (Z.shiftl (Z.land (fifo_ramht s) 0xFFF) 8).

Definition ramht_bits (s : GeForceState) : Z :=
  Z.land (Z.shiftr (fifo_ramht s) 16) 0xFF + 9.

(** [1 << ramht_bits << 3], wrapped to 32 bits. *)
Definition ramht_size (s : GeForceState) : Z :=
  u32 (Z.shiftl (Z.shiftl 1 (ramht_bits s)) 3).

(** [while (x) { hash ^= (x & ((1 << ramht_bits) - 1)); x >>= ramht_bits; }] *)
Fixpoint ramht_hash_fold (fuel : nat) (bits x hash : Z) : option Z :=
  match fuel with
  | O => None
  | S fuel' =>
      if nonzero x
      then ramht_hash_fold fuel' bits (Z.shiftr x bits)
             (Z.lxor hash (Z.land x (u32 (Z.shiftl 1 bits - 1))))
      else Some hash
  end.

(** The starting probe offset, [hash] at the entry of the [do] loop. *)
Definition ramht_hash (fuel : nat) (s : GeForceState) (handle chid : Z) : option Z :=
  match ramht_hash_fold fuel (ramht_bits s) handle 0 with
  | None => None
  | Some hash =>
      let hash := Z.lxor hash (u32 (Z.shiftl (Z.land chid 0xF) (ramht_bits s - 4))) in
      Some (u32 (Z.shiftl hash 3))
  end.

(** The two words of the slot at byte offset [it] of the table. *)
Definition ramht_slot_handle (s : GeForceState) (it : Z) : Z :=
  geforce_ramin_read32 s (u32 (ramht_addr s + it)).

Definition ramht_slot_context (s : GeForceState) (it : Z) : Z :=
  geforce_ramin_read32 s (u32 (u32 (ramht_addr s + it) + 4)).

(** Decoding of a context word; the layout depends on the generation. *)
Definition ramht_ctx_chid (s : GeForceState) (context : Z) : Z :=
  if card_type s <? 0x40
  then Z.land (Z.shiftr context 24) 0x1F
  else Z.land (Z.shiftr context 23) 0x1F.

Definition ramht_ctx_object (s : GeForceState) (context : Z) : Z :=
  if card_type s <? 0x40
  then u32 (Z.shiftl (Z.land context 0xFFFF) 4)
  else u32 (Z.shiftl (Z.land context 0xFFFFF) 4).

Definition ramht_ctx_engine (s : GeForceState) (context : Z) : Z :=
  if card_type s <? 0x40
  then u8 (Z.land (Z.shiftr context 16) 0xFF)
  else u8 (Z.land (Z.shiftr context 20) 0x7).

(** The two tests that make the loop return from a slot. *)
Definition ramht_slot_matches (s : GeForceState) (handle chid it : Z) : bool :=
  (ramht_slot_handle s it =? handle)
  && (chid =? ramht_ctx_chid s (ramht_slot_context s it)).

(** [it += 8; if (it >= ramht_size) it = 0;] *)
Definition ramht_next (s : GeForceState) (it : Z) : Z :=
  let it := u32 (it + 8) in
  if ramht_size s <=? it then 0 else it.

(** The offset the loop examines in its [k]-th iteration when it started
    at [hash]: forward by 8 bytes per step, wrapping at the table size. *)
Definition ramht_probe_offset (s : GeForceState) (hash k : Z) : Z :=
  (hash + 8 * k) mod ramht_size s.

(** The byte offsets of the slots of the table, and the tests "no slot
    matches" and "the handle is stored in no slot but [it0]". *)
Definition ramht_slots (s : GeForceState) : list Z :=
  map (fun k : nat => 8 * Z.of_nat k) (seq 0 (Z.to_nat (2 ^ ramht_bits s))).

Definition ramht_no_match (s : GeForceState) (handle chid : Z) : bool :=
  forallb (fun it => negb (ramht_slot_matches s handle chid it)) (ramht_slots s).

Definition ramht_handle_only_at (s : GeForceState) (handle it0 : Z) : bool :=
  forallb (fun it => (it =? it0) || negb (ramht_slot_handle s it =? handle)) (ramht_slots s).

(** The [do ... while (it != hash)] loop.  The result is the context word
    of the slot the loop returned from, or [None] when the loop ran to
    its end and the failure was logged. *)
Fixpoint ramht_probe (fuel : nat) (s : GeForceState) (handle chid hash it : Z)
  : option (option Z) :=
  match fuel with
  | O => None
  | S fuel' =>
      if ramht_slot_matches s handle chid it
      then Some (Some (ramht_slot_context s it))
      else
        let it := ramht_next s it in
        if it =? hash then Some None else ramht_probe fuel' s handle chid hash it
  end.

(** The assignments through the output pointers, [if (object) { *object =
    ... }] and [if (engine) { *engine = ... }]. *)
Definition ramht_store_result (s : GeForceState) (context : Z) (obj eng : option Z)
  : option Z * option Z :=
  (match obj with
   | Some _ => Some (ramht_ctx_object s context)
   | None => None
   end,
   match eng with
   | Some _ => Some (ramht_ctx_engine s context)
   | None => None
   end).

(** [geforce_ramht_lookup].  An output pointer is [None] when the caller
    passes [NULL] and [Some v] when it points to a location holding [v];
    the result gives the contents of the two locations after the call. *)
Definition geforce_ramht_lookup (fuel : nat) (s : GeForceState) (handle chid : Z)
    (obj eng : option Z) : option (option Z * option Z) :=
  match ramht_hash fuel s handle chid with
  | None => None
  | Some hash =>
      match ramht_probe fuel s handle chid hash hash with
      | None => None
      | Some None => Some (obj, eng)
      | Some (Some context) => Some (ramht_store_result s context obj eng)
      end
  end.

(** ** Class handlers

    [geforce_execute_clip], [geforce_execute_m2mf], [geforce_execute_rop],
    [geforce_execute_patt], [geforce_execute_gdi],
    [geforce_execute_imageblit], [geforce_execute_ifc],
    [geforce_execute_surf2d] and [geforce_execute_d3d], with the raster
    operations they fire, are taken as an interface.  A handler reads the
    device state and writes device memory, guest memory and the class
    registers of its channel, nothing else; [geforce_get_current_time]
    reads the virtual clock.  The interface stands for a call that
    returns: the statements about the puller that go through a handler
    are statements about the decoding and the order of the calls, for
    handler calls that come back.  The copy loops of [geforce_m2mf], which
    do not come back for every register content, are modelled on their
    own below. *)
Class ClassOps : Type := {
  geforce_get_current_time : GeForceState -> Z;
  geforce_execute_class :
    GeForceClass -> GeForceState -> Z -> Z -> Z -> Z -> Z -> Memory * Memory * ClassRegs
}.

Context {ops : ClassOps}.

(** ** Method dispatcher *)

(** The [switch (cls8)] with the call of the selected handler. *)
Definition execute_class (s : GeForceState) (chid sc cls method param : Z) : GeForceState :=
  match class_of_id (u8 cls) with
  | None => s
  | Some k =>
      let '(vm, sm, regs) := geforce_execute_class k s chid sc cls method param in
      let s := set_sysmem sm (set_vram vm s) in
      put_channel chid (set_class_regs regs (get_channel s chid)) s
  end.

(** "Handle notifications". *)
Definition execute_notify (s : GeForceState) (chid sc : Z) : GeForceState :=
  if notify_pending (get_channel s chid) then
    let s := put_channel chid (set_notify_pending false (get_channel s chid)) s in
    let nfy := notifier (get_subch (get_channel s chid) sc) in
    let s :=
      if negb (Z.land (geforce_ramin_read32 s nfy) 0xFF =? 0x30) then
        let s := geforce_dma_write64 s nfy 0x0 (geforce_get_current_time s) in
        let s := geforce_dma_write32 s nfy 0x8 0 in
        geforce_dma_write32 s nfy 0xC 0
      else s in
    if nonzero (notify_type (get_channel s chid)) then
      let s := set_graph_intr (Z.lor (graph_intr s) 0x00000001) s in
      let s := geforce_update_irq s in
      let s := set_graph_nsource (Z.lor (graph_nsource s) 0x00000001) s in
      set_graph_notify 0x00110000 s
    else s
  else s.

(** "Update object state before binding": the first block of the bind. *)
Definition bind_save_notifier (s : GeForceState) (chid sc : Z) : GeForceState :=
  let sub := get_subch (get_channel s chid) sc in
  if engine sub =? 0x01 then
    let word1 := geforce_ramin_read32 s (u32 (object sub + 0x4)) in
    let word1 :=
      if card_type s <? 0x40
      then Z.lor (Z.land word1 0x0000FFFF) (u32 (Z.shiftl (Z.shiftr (notifier sub) 4) 16))
      else Z.lor (Z.land word1 0xFFF00000) (Z.shiftr (notifier sub) 4) in
    geforce_ramin_write32 s (u32 (object sub + 0x4)) word1
  else s.

(** "Read object properties": the notifier of a newly bound object. *)
Definition bind_load_notifier (s : GeForceState) (chid sc : Z) : GeForceState :=
  let ch := get_channel s chid in
  let sub := get_subch ch sc in
  let word1 := geforce_ramin_read32 s (u32 (object sub + 0x4)) in
  let nfy :=
    if card_type s <? 0x40
    then u32 (Z.shiftl (Z.shiftr word1 16) 4)
    else u32 (Z.shiftl (Z.land word1 0xFFFFF) 4) in
  put_channel chid (put_subch sc (set_notifier nfy sub) ch) s.

(** The [if (software_method)] block.  [fifo_cache1_method] and
    [fifo_cache1_data] are arrays of [GEFORCE_CACHE1_SIZE] entries.  With
    the cursor inside the queue the two assignments are the two list
    updates.  With [fifo_cache1_put / 4] at or beyond the end of the
    arrays the C assignments go past them, which C leaves undefined; the
    list updates then change nothing, so what is proved about the
    contents of the queue is proved for a cursor inside it. *)
Definition software_method_push (s : GeForceState) (sc method param : Z) : GeForceState :=
  let s := set_fifo_intr (Z.lor (fifo_intr s) 0x00000001) s in
  let s := geforce_update_irq s in
  let s := set_fifo_cache1_pull0 (Z.lor (fifo_cache1_pull0 s) 0x00000100) s in
  let s :=
    set_fifo_cache1_method
      (<[Z.to_nat (fifo_cache1_put s / 4) :=
           Z.lor (u32 (Z.shiftl method 2)) (u32 (Z.shiftl sc 13))]> (fifo_cache1_method s)) s in
  let s :=
    set_fifo_cache1_data
      (<[Z.to_nat (fifo_cache1_put s / 4) := param]> (fifo_cache1_data s)) s in
  let s := set_fifo_cache1_put (u32 (fifo_cache1_put s + 4)) s in
  if fifo_cache1_put s =? GEFORCE_CACHE1_SIZE * 4 then set_fifo_cache1_put 0 s else s.

(** The body of [geforce_execute_command] up to the software-method
    block; the result carries the [software_method] flag and the value of
    [param] at that point. *)
Definition execute_method (pfuel : nat) (s : GeForceState) (chid sc method param : Z)
  : option (GeForceState * bool * Z) :=
  if method =? 0x000 then
    let s := bind_save_notifier s chid sc in
    let ch := get_channel s chid in
    let sub := get_subch ch sc in
    match geforce_ramht_lookup pfuel s param chid (Some (object sub)) (Some (engine sub)) with
    | None => None
    | Some (obj, eng) =>
        let sub := set_engine (default (engine sub) eng)
                     (set_object (default (object sub) obj) sub) in
        let s := put_channel chid (put_subch sc sub ch) s in
        if engine sub =? 0x01 then Some (bind_load_notifier s chid sc, false, param)
        else if engine sub =? 0x00 then Some (s, true, param)
        else Some (s, false, param)
    end
  else if method =? 0x014 then
    Some (set_fifo_cache1_ref_cnt param s, false, param)
  else if 0x040 <=? method then
    let sub := get_subch (get_channel s chid) sc in
    if engine sub =? 0x01 then
      match
        (if (0x060 <=? method) && (method <? 0x080)
         then geforce_ramht_lookup pfuel s param chid (Some param) None
         else Some (Some param, None))
      with
      | None => None
      | Some (p, _) =>
          let param := default param p in
          let cls := Z.land (geforce_ramin_read32 s (object sub)) (class_mask s) in
          let s := execute_class s chid sc cls method param in
          let s := execute_notify s chid sc in
          let ch := get_channel s chid in
          let s :=
            if method =? 0x041 then
              put_channel chid (set_notify_type param (set_notify_pending true ch)) s
            else if method =? 0x060 then
              put_channel chid (put_subch sc (set_notifier param (get_subch ch sc)) ch) s
            else s in
          Some (s, false, param)
      end
    else if engine sub =? 0x00 then Some (s, true, param)
    else Some (s, false, param)
  else Some (s, false, param).

(** [geforce_execute_command]: the new state and the returned [bool]. *)
Definition geforce_execute_command (pfuel : nat) (s : GeForceState) (chid sc method param : Z)
  : option (GeForceState * bool) :=
  let s := set_dispatch_log (dispatch_log s ++ [(chid, sc, method, param)]) s in
  match execute_method pfuel s chid sc method param with
  | None => None
  | Some (s, software_method, param) =>
      let s := if software_method then software_method_push s sc method param else s in
      Some (s, true)
  end.

(** ** FIFO processing *)

(** The test in front of the early [return]s. *)
Definition fifo_idle (s : GeForceState) (chid : Z) : bool :=
  let oldchid := Z.land (fifo_cache1_push1 s) 0x1F in
  if oldchid =? chid
  then fifo_cache1_dma_put s =? fifo_cache1_dma_get s
  else geforce_ramfc_read32 s chid 0x0 =? geforce_ramfc_read32 s chid 0x4.

(** "Save old context": the five live registers go to the RAMFC record
    of the outgoing channel. *)
Definition fifo_save_context (s : GeForceState) (oldchid sro : Z) : GeForceState :=
  let s := geforce_ramfc_write32 s oldchid 0x0 (fifo_cache1_dma_put s) in
  let s := geforce_ramfc_write32 s oldchid 0x4 (fifo_cache1_dma_get s) in
  let s := geforce_ramfc_write32 s oldchid 0x8 (fifo_cache1_ref_cnt s) in
  let s := geforce_ramfc_write32 s oldchid 0xC (fifo_cache1_dma_instance s) in
  geforce_ramfc_write32 s oldchid sro (fifo_cache1_semaphore s).

(** "Load new context": the same five fields of the incoming channel. *)
Definition fifo_load_context (s : GeForceState) (chid sro : Z) : GeForceState :=
  let s := set_fifo_cache1_dma_put (geforce_ramfc_read32 s chid 0x0) s in
  let s := set_fifo_cache1_dma_get (geforce_ramfc_read32 s chid 0x4) s in
  let s := set_fifo_cache1_ref_cnt (geforce_ramfc_read32 s chid 0x8) s in
  let s := set_fifo_cache1_dma_instance (geforce_ramfc_read32 s chid 0xC) s in
  set_fifo_cache1_semaphore (geforce_ramfc_read32 s chid sro) s.

(** "Context switch if needed". *)
Definition fifo_context_switch (s : GeForceState) (chid : Z) : GeForceState :=
  let oldchid := Z.land (fifo_cache1_push1 s) 0x1F in
  if negb (oldchid =? chid) then
    let sro := if card_type s <? 0x40 then 0x2C else 0x30 in
    let s := fifo_save_context s oldchid sro in
    let s := fifo_load_context s chid sro in
    set_fifo_cache1_push1 (Z.lor (Z.land (fifo_cache1_push1 s) 0xFFFFFFE0) chid) s
  else s.

(** The word the loop body fetches. *)
Definition fifo_fetch (s : GeForceState) : Z :=
  geforce_dma_read32 s (u32 (Z.shiftl (fifo_cache1_dma_instance s) 4)) (fifo_cache1_dma_get s).

(** "Parse command header". *)
Definition fifo_parse_header (s : GeForceState) (chid word : Z) : GeForceState :=
  let ch := get_channel s chid in
  if Z.land word 0xe0000003 =? 0x20000000 then
    set_fifo_cache1_dma_get (Z.land word 0x1fffffff) s
  else if Z.land word 3 =? 1 then
    set_fifo_cache1_dma_get (Z.land word 0xfffffffc) s
  else if Z.land word 3 =? 2 then
    if subr_active ch then s
    else
      let s :=
        put_channel chid (set_subr_active true (set_subr_return (fifo_cache1_dma_get s) ch)) s in
      set_fifo_cache1_dma_get (Z.land word 0xfffffffc) s
  else if word =? 0x00020000 then
    if negb (subr_active ch) then s
    else
      let s := set_fifo_cache1_dma_get (subr_return ch) s in
      put_channel chid (set_subr_active false ch) s
  else if Z.land word 0xa0030003 =? 0 then
    put_channel chid
      (set_dma_state {| mthd := Z.land (Z.shiftr word 2) 0x7ff;
                        subc := Z.land (Z.shiftr word 13) 7;
                        mcnt := Z.land (Z.shiftr word 18) 0x7ff;
                        ni := nonzero (Z.land word 0x40000000) |} ch) s
  else s.

(** One iteration of the [while] loop.  The [bool] is [true] when the
    iteration leaves the loop through [break]. *)
Definition fifo_step (pfuel : nat) (s : GeForceState) (chid : Z)
  : option (GeForceState * bool) :=
  let word := fifo_fetch s in
  let s := set_fifo_cache1_dma_get (u32 (fifo_cache1_dma_get s + 4)) s in
  let st := dma_state (get_channel s chid) in
  if nonzero (mcnt st) then
    match geforce_execute_command pfuel s chid (subc st) (mthd st) word with
    | None => None
    | Some (s, false) =>
        Some (set_fifo_cache1_dma_get (u32 (fifo_cache1_dma_get s - 4)) s, true)
    | Some (s, true) =>
        let ch := get_channel s chid in
        let st := dma_state ch in
        let st := if negb (ni st) then set_mthd (u32 (mthd st + 1)) st else st in
        let st := set_mcnt (u32 (mcnt st - 1)) st in
        Some (put_channel chid (set_dma_state st ch) s, false)
    end
  else Some (fifo_parse_header s chid word, false).

(** [while (s->fifo_cache1_dma_get != s->fifo_cache1_dma_put) { ... }] *)
Fixpoint fifo_loop (pfuel fuel : nat) (s : GeForceState) (chid : Z) : option GeForceState :=
  match fuel with
  | O => None
  | S fuel' =>
      if fifo_cache1_dma_get s =? fifo_cache1_dma_put s then Some s
      else
        match fifo_step pfuel s chid with
        | None => None
        | Some (s, true) => Some s
        | Some (s, false) => fifo_loop pfuel fuel' s chid
        end
  end.

Definition geforce_fifo_process (pfuel fuel : nat) (s : GeForceState) (chid : Z)
  : option GeForceState :=
  if fifo_idle s chid then Some s
  else fifo_loop pfuel fuel (fifo_context_switch s chid) chid.

(** The first [n] iterations of the loop, as far as the loop runs. *)
Fixpoint fifo_iter (pfuel n : nat) (s : GeForceState) (chid : Z) : option GeForceState :=
  match n with
  | O => Some s
  | S n' =>
      if fifo_cache1_dma_get s =? fifo_cache1_dma_put s then None
      else
        match fifo_step pfuel s chid with
        | Some (s, false) => fifo_iter pfuel n' s chid
        | _ => None
        end
  end.

(** ** Predicates of the statements *)

(** The decode state of a channel. *)
Definition pull_state (c : GeForceChannel) : GeForceDataState * Z * bool :=
  (dma_state c, subr_return c, subr_active c).

(** What a dispatched method leaves as it was: the configuration, the
    pull cursor registers, the dispatch history, the number of channels
    and the decode state of every channel. *)
Definition dispatch_frame (s s' : GeForceState) : Prop :=
  card_type s' = card_type s /\ memsize s' = memsize s /\ ramin_flip s' = ramin_flip s
  /\ class_mask s' = class_mask s /\ fifo_ramht s' = fifo_ramht s
  /\ fifo_ramfc s' = fifo_ramfc s /\ fifo_cache1_push1 s' = fifo_cache1_push1 s
  /\ fifo_cache1_dma_instance s' = fifo_cache1_dma_instance s
  /\ fifo_cache1_dma_put s' = fifo_cache1_dma_put s
  /\ fifo_cache1_dma_get s' = fifo_cache1_dma_get s
  /\ fifo_cache1_semaphore s' = fifo_cache1_semaphore s
  /\ dispatch_log s' = dispatch_log s
  /\ length (channels s') = length (channels s)
  /\ forall c, pull_state (get_channel s' c) = pull_state (get_channel s c).

(** [chid] indexes an element of [s->channels]. *)
Definition valid_chid (s : GeForceState) (chid : Z) : Prop :=
  0 <= chid /\ (Z.to_nat chid < length (channels s))%nat.

(** The iteration that starts in [s] leaves the cursor one word further:
    parameters are pending, or the fetched word is not a jump, an old
    jump, a call with no subroutine active or a return with one active. *)
Definition fifo_keeps_cursor (s : GeForceState) (chid : Z) : bool :=
  let word := fifo_fetch s in
  let ch := get_channel s chid in
  nonzero (mcnt (dma_state ch))
  || negb ((Z.land word 0xe0000003 =? 0x20000000)
           || (Z.land word 3 =? 1)
           || ((Z.land word 3 =? 2) && negb (subr_active ch))
           || ((word =? 0x00020000) && subr_active ch)).

(** The first [n] iterations from [s] all keep the cursor, and none of
    them runs out of lookup fuel. *)
Fixpoint fifo_straight (pfuel n : nat) (s : GeForceState) (chid : Z) : bool :=
  match n with
  | O => true
  | S n' =>
      fifo_keeps_cursor s chid
      && match fifo_step pfuel s chid with
         | Some (s', _) => fifo_straight pfuel n' s' chid
         | None => false
         end
  end.

(** The five words of the RAMFC record of [chid] that hold the pull
    cursor, and the test that each of them lies in device memory. *)
Definition ramfc_sro (s : GeForceState) : Z := if card_type s <? 0x40 then 0x2C else 0x30.

Definition ramfc_offsets (s : GeForceState) : list Z := [0x0; 0x4; 0x8; 0xC; ramfc_sro s].

Definition ramfc_record (s : GeForceState) (chid : Z) : list Z :=
  map (geforce_ramfc_read32 s chid) (ramfc_offsets s).

Definition ramfc_word_in_vram (s : GeForceState) (chid off : Z) : bool :=
  u32 (Z.lxor (geforce_ramfc_address s chid off) (ramin_flip s) + 3) <? memsize s.

Definition ramfc_in_vram (s : GeForceState) (chid : Z) : bool :=
  forallb (ramfc_word_in_vram s chid) (ramfc_offsets s).

(** The start of RAMFC and the size of a record, as mathematical
    integers. *)
Definition ramfc_base (s : GeForceState) : Z :=
  if card_type s <? 0x40
  then Z.land (fifo_ramfc s) 0xFFF * 2 ^ 8
  else Z.land (fifo_ramfc s) 0xFFF * 2 ^ 16.

Definition ramfc_stride (s : GeForceState) : Z := if card_type s <? 0x40 then 0x40 else 0x80.

(** [s'] differs from [s] at most in the contents of device memory, as
    far as the configuration and the pull registers go. *)
Definition vram_only (s s' : GeForceState) : Prop :=
  card_type s' = card_type s /\ memsize s' = memsize s /\ ramin_flip s' = ramin_flip s
  /\ fifo_ramfc s' = fifo_ramfc s /\ fifo_cache1_push1 s' = fifo_cache1_push1 s
  /\ fifo_cache1_dma_put s' = fifo_cache1_dma_put s
  /\ fifo_cache1_dma_get s' = fifo_cache1_dma_get s
  /\ fifo_cache1_ref_cnt s' = fifo_cache1_ref_cnt s
  /\ fifo_cache1_dma_instance s' = fifo_cache1_dma_instance s
  /\ fifo_cache1_semaphore s' = fifo_cache1_semaphore s.

(** The five live registers of the pull cursor. *)
Definition pull_registers (s : GeForceState) : Z * Z * Z * Z * Z :=
  (fifo_cache1_dma_put s, fifo_cache1_dma_get s, fifo_cache1_ref_cnt s,
   fifo_cache1_dma_instance s, fifo_cache1_semaphore s).

Definition pull_registers_u32 (s : GeForceState) : Prop :=
  0 <= fifo_cache1_dma_put s < 2 ^ 32 /\ 0 <= fifo_cache1_dma_get s < 2 ^ 32
  /\ 0 <= fifo_cache1_ref_cnt s < 2 ^ 32 /\ 0 <= fifo_cache1_dma_instance s < 2 ^ 32
  /\ 0 <= fifo_cache1_semaphore s < 2 ^ 32.

(** ** MMIO write handler: the two cache cursor registers

    [case 0x003210] (PFIFO_CACHE1_PUT) and [case 0x003270]
    (PFIFO_CACHE1_GET) of [geforce_mmio_write]. *)

Definition geforce_mmio_write_cache1_put (s : GeForceState) (val : Z) : GeForceState :=
  set_fifo_cache1_put (u32 val) s.

Definition geforce_mmio_write_cache1_get (s : GeForceState) (val : Z) : GeForceState :=
  let s := set_fifo_cache1_get (Z.land (u32 val) (GEFORCE_CACHE1_SIZE * 4 - 1)) s in
  let s :=
    if negb (fifo_cache1_get s =? fifo_cache1_put s)
    then set_fifo_intr (Z.lor (fifo_intr s) 0x00000001) s
    else
      let s := set_fifo_intr (Z.land (fifo_intr s) 0xFFFFFFFE) s in
      set_fifo_cache1_pull0 (Z.land (fifo_cache1_pull0 s) 0xFFFFFEFF) s in
  geforce_update_irq s.

(** The address formulas as the design document words them (section 4.1):
    the page table indexed by [offset >> 12], and the linear base taken
    from the second word of the descriptor. *)
Definition spec_paged_address (s : GeForceState) (obj offset : Z) : Z :=
  Z.lor (Z.land (geforce_ramin_read32 s (u32 (obj + 8 + 4 * Z.shiftr offset 12))) 0xFFFFF000)
        (Z.land offset 0xFFF).

Definition spec_linear_address (s : GeForceState) (obj offset : Z) : Z :=
  u32 (Z.land (geforce_ramin_read32 s (u32 (obj + 4))) 0xFFFFF000
       + Z.shiftr (geforce_ramin_read32 s obj) 20 + offset).

End Model.

(** ** A sample device

    A GeForce 3 as [geforce_realize] and [geforce_reset] leave it (64 MiB
    of device memory, instance memory flipped at [memsize - 64], all
    queues and channels cleared), with given contents of device memory
    and given RAMHT and RAMFC registers.  The class registers hold the
    raster operation of the channel, and the interface is instantiated
    with [geforce_execute_rop]; the other handlers leave the state. *)

#[export] Instance sample_ops : ClassOps Z := {|
  geforce_get_current_time := fun _ => 0x1000;
  geforce_execute_class := fun k s chid sc cls method param =>
    (vram s, sysmem s,
     match k with
     | ClassRop => if method =? 0x0c0 then u8 param else class_regs (get_channel s chid)
     | _ => class_regs (get_channel s chid)
     end)
|}.

Definition zero_memory : Memory := fun _ => Byte.x00.

(** Device memory holding the given 32-bit words at the given instance
    addresses. *)
Definition ramin_words (flip : Z) (l : list (Z * Z)) : Memory :=
  fold_right (fun '(a, w) m => stl_le_p m (Z.lxor a flip) w) zero_memory l.

Definition sample_subchannel (eng obj : Z) : GeForceSubchannel :=
  {| object := obj; engine := eng; notifier := 0 |}.

Definition sample_channel (st : GeForceDataState) (sub : GeForceSubchannel) : GeForceChannel Z :=
  {| subr_return := 0; subr_active := false; dma_state := st;
     schs := replicate 8 sub; notify_pending := false; notify_type := 0; class_regs := 0 |}.

Definition sample_state (words : list (Z * Z)) (ramht ramfc : Z) (ch : GeForceChannel Z)
  : GeForceState Z :=
  {| card_type := 0; memsize := 0x4000000; ramin_flip := 0x4000000 - 64; class_mask := 0x00000FFF;
     vram := ramin_words (0x4000000 - 64) words; sysmem := zero_memory; irq_level := false;
     mc_intr_en := 0; bus_intr := 0; bus_intr_en := 0; fifo_intr := 0; fifo_intr_en := 0;
     graph_intr := 0; graph_nsource := 0; graph_intr_en := 0; graph_notify := 0;
     crtc_intr := 0; crtc_intr_en := 0; fifo_ramht := ramht; fifo_ramfc := ramfc;
     fifo_cache1_push1 := 0; fifo_cache1_put := 0; fifo_cache1_dma_instance := 0;
     fifo_cache1_dma_put := 0; fifo_cache1_dma_get := 0; fifo_cache1_ref_cnt := 0;
     fifo_cache1_pull0 := 0; fifo_cache1_semaphore := 0; fifo_cache1_get := 0;
     fifo_cache1_method := replicate 64 0; fifo_cache1_data := replicate 64 0;
     channels := replicate 32 ch; dispatch_log := [] |}.

Definition idle_state_data : GeForceDataState := {| mthd := 0; subc := 0; mcnt := 0; ni := false |}.

(** Descriptors at instance address 0x1000: a paged one with page-table
    entry 0 = 0x5000; a paged one with adjust 1 and two page-table
    entries; a linear one with adjust 0x10 and base 0x2000 at byte offset
    8; the same with 0x2000 in its second word and 0x7000 at offset 8. *)
Definition paged_state : GeForceState Z :=
  sample_state [(0x1000, 0x00000000); (0x1008, 0x00005003)] 0 0
    (sample_channel idle_state_data (sample_subchannel 0 0)).

Definition paged_adjust_state : GeForceState Z :=
  sample_state [(0x1000, 0x00100000); (0x1008, 0x00005000); (0x100C, 0x00009000)] 0 0
    (sample_channel idle_state_data (sample_subchannel 0 0)).

Definition linear_state : GeForceState Z :=
  sample_state [(0x1000, 0x01002000); (0x1008, 0x00002003)] 0 0
    (sample_channel idle_state_data (sample_subchannel 0 0)).

Definition linear_second_word_state : GeForceState Z :=
  sample_state [(0x1000, 0x01002000); (0x1004, 0x00002000); (0x1008, 0x00007000)] 0 0
    (sample_channel idle_state_data (sample_subchannel 0 0)).

(** A handle table of 512 slots at instance address 0x1000 that holds
    handle 0x12345678 of channel 5 in its natural slot (byte offset
    0x3E0), bound to object 0x1000 on engine 1; and the same table with
    the entry pushed to the next slot by an entry of channel 21, which
    hashes to the same slot.  Every subchannel is bound to the object at
    instance address 0x2000 on engine 1. *)
Definition ramht_state : GeForceState Z :=
  sample_state [(0x1000 + 0x3E0, 0x12345678); (0x1000 + 0x3E4, 0x05010100)] 0x00000010 0
    (sample_channel idle_state_data (sample_subchannel 1 0x2000)).

Definition ramht_collision_state : GeForceState Z :=
  sample_state [(0x1000 + 0x3E0, 0x12345678); (0x1000 + 0x3E4, 0x15000200);
                (0x1000 + 0x3E8, 0x12345678); (0x1000 + 0x3EC, 0x05010100)] 0x00000010 0
    (sample_channel idle_state_data (sample_subchannel 1 0x2000)).

(** A ring in device memory at 0x10000, described by the linear
    descriptor at instance address 0x1000 (instance 0x100), for channel
    0.  The class of the object at instance address 0x2000 is 0x43. *)
Definition ring_state (ring : list Z) (st : GeForceDataState) (sub : GeForceSubchannel)
  : GeForceState Z :=
  let words :=
    [(0x1000, 0x00002000); (0x1008, 0x00010000); (0x2000, 0x00000043)]
    ++ imap (fun i w => (Z.lxor (0x10000 + 4 * Z.of_nat i) (0x4000000 - 64), w)) ring in
  set_fifo_cache1_dma_put (4 * Z.of_nat (length ring))
    (set_fifo_cache1_dma_instance 0x100
       (sample_state words 0x00000010 0x00000020 (sample_channel st sub))).

(** The header of three parameters for subchannel 2, bound to the object
    of class 0x43 on engine 1. *)
Definition header_ring_state : GeForceState Z :=
  ring_state [0x000C4400; 0xAAAA0001; 0xAAAA0002; 0xAAAA0003] idle_state_data
    (sample_subchannel 1 0x2000).

(** Two parameters pending for method 0x100 of a subchannel on engine 0. *)
Definition software_ring_state : GeForceState Z :=
  ring_state [0x11; 0x22] {| mthd := 0x100; subc := 0; mcnt := 2; ni := false |}
    (sample_subchannel 0 0).

(** A ring whose first word is a jump to offset 0. *)
Definition jump_self_state : GeForceState Z :=
  ring_state [0x00000001] idle_state_data (sample_subchannel 0 0).

(** A ring of a header without parameters, an unexpected word and a
    header of one parameter with that parameter. *)
Definition straight_ring_state : GeForceState Z :=
  ring_state [0x00000400; 0x80000000; 0x00040400; 0x0000000C] idle_state_data
    (sample_subchannel 0 0).

(** Channel 0 active with live pull registers, the ring of channel 1
    non-empty in its RAMFC record at instance address 0x2040. *)
Definition switch_state : GeForceState Z :=
  set_fifo_cache1_semaphore 9
    (set_fifo_cache1_ref_cnt 7
       (set_fifo_cache1_dma_get 0x10
          (set_fifo_cache1_dma_put 0x40
             (set_fifo_cache1_dma_instance 0x123
                (sample_state [(0x2040, 0x20); (0x2044, 0x0)] 0 0x00000020
                   (sample_channel idle_state_data (sample_subchannel 0 0))))))).

(** What processing channel 1 may leave: its ring drained. *)
Definition switch_back_state : GeForceState Z :=
  let s1 := fifo_context_switch switch_state 1 in
  set_fifo_cache1_dma_get (fifo_cache1_dma_put s1) s1.

(** ** Device realization

    The part of [geforce_realize] that fixes the configuration of the
    card from its model; [None] is the path through [error_setg]. *)

Definition u16 (x : Z) : Z := x mod 2 ^ 16.

Definition GEFORCE_3 : Z := 0.
Definition GEFORCE_FX_5900 : Z := 1.
Definition GEFORCE_6800 : Z := 2.

(** [MiB] of qemu/units.h. *)
Definition MiB : Z := 1048576.

Record GeForceSetup : Type := {
  setup_device_id : Z;
  setup_revision_id : Z;
  setup_memsize : Z;
  setup_bar2_size : Z;
  setup_straps0_primary_original : Z;
  setup_subsystem_id : Z;
  setup_memsize_mask : Z;
  setup_ramin_flip : Z;
  setup_class_mask : Z;
  setup_straps0_primary : Z;
  setup_ramin_bar : bool      (* BAR 2 is registered *)
}.

Definition geforce_realize (card_type : Z) : option GeForceSetup :=
  match
    (if card_type =? GEFORCE_3 then
       Some (0x0202, 0xA3, 64 * MiB, 0x00080000, Z.lor 0x7FF86C6B 0x00000180)
     else if card_type =? GEFORCE_FX_5900 then
       Some (0x0331, 0, 128 * MiB, 0x01000000, Z.lor 0x7FF86C4B 0x00000180)
     else if card_type =? GEFORCE_6800 then
       Some (0x0045, 0, 256 * MiB, 0x01000000, Z.lor 0x7FF86C4B 0x00000180)
     else None)
  with
  | None => None
  | Some (device_id, revision_id, memsize, bar2_size, straps) =>
      Some {| setup_device_id := device_id;
              setup_revision_id := revision_id;
              setup_memsize := memsize;
              setup_bar2_size := bar2_size;
              setup_straps0_primary_original := straps;
              setup_subsystem_id :=
                if card_type =? GEFORCE_3 then 0x2863
                else if card_type =? GEFORCE_FX_5900 then 0x297B else 0x2996;
              setup_memsize_mask := u32 (memsize - 1);
              setup_ramin_flip := u32 (memsize - 64);
              setup_class_mask := if card_type <? 0x40 then 0x00000FFF else 0x0000FFFF;
              setup_straps0_primary := straps;
              setup_ramin_bar := negb (card_type =? GEFORCE_FX_5900) |}
  end.

(** ** Class handlers: memory-to-memory format and vertex data *)

(** The registers of [GeForceChannel] that [geforce_m2mf] reads. *)
Record M2mfRegs : Type := {
  m2mf_src : Z;
  m2mf_dst : Z;
  m2mf_src_offset : Z;
  m2mf_dst_offset : Z;
  m2mf_src_pitch : Z;
  m2mf_dst_pitch : Z;
  m2mf_line_length : Z;
  m2mf_line_count : Z
}.

(** The register cases of [geforce_execute_m2mf] (methods 0x061 to
    0x0c8); method 0x0ca, which starts the copy, is [geforce_m2mf]. *)
Definition geforce_execute_m2mf_regs (r : M2mfRegs) (method param : Z) : M2mfRegs :=
  if method =? 0x061 then
    {| m2mf_src := param; m2mf_dst := m2mf_dst r;
       m2mf_src_offset := m2mf_src_offset r; m2mf_dst_offset := m2mf_dst_offset r;
       m2mf_src_pitch := m2mf_src_pitch r; m2mf_dst_pitch := m2mf_dst_pitch r;
       m2mf_line_length := m2mf_line_length r; m2mf_line_count := m2mf_line_count r |}
  else if method =? 0x062 then
    {| m2mf_src := m2mf_src r; m2mf_dst := param;
       m2mf_src_offset := m2mf_src_offset r; m2mf_dst_offset := m2mf_dst_offset r;
       m2mf_src_pitch := m2mf_src_pitch r; m2mf_dst_pitch := m2mf_dst_pitch r;
       m2mf_line_length := m2mf_line_length r; m2mf_line_count := m2mf_line_count r |}
  else if method =? 0x0c3 then
    {| m2mf_src := m2mf_src r; m2mf_dst := m2mf_dst r;
       m2mf_src_offset := param; m2mf_dst_offset := m2mf_dst_offset r;
       m2mf_src_pitch := m2mf_src_pitch r; m2mf_dst_pitch := m2mf_dst_pitch r;
       m2mf_line_length := m2mf_line_length r; m2mf_line_count := m2mf_line_count r |}
  else if method =? 0x0c4 then
    {| m2mf_src := m2mf_src r; m2mf_dst := m2mf_dst r;
       m2mf_src_offset := m2mf_src_offset r; m2mf_dst_offset := param;
       m2mf_src_pitch := m2mf_src_pitch r; m2mf_dst_pitch := m2mf_dst_pitch r;
       m2mf_line_length := m2mf_line_length r; m2mf_line_count := m2mf_line_count r |}
  else if method =? 0x0c5 then
    {| m2mf_src := m2mf_src r; m2mf_dst := m2mf_dst r;
       m2mf_src_offset := m2mf_src_offset r; m2mf_dst_offset := m2mf_dst_offset r;
       m2mf_src_pitch := param; m2mf_dst_pitch := m2mf_dst_pitch r;
       m2mf_line_length := m2mf_line_length r; m2mf_line_count := m2mf_line_count r |}
  else if method =? 0x0c6 then
    {| m2mf_src := m2mf_src r; m2mf_dst := m2mf_dst r;
       m2mf_src_offset := m2mf_src_offset r; m2mf_dst_offset := m2mf_dst_offset r;
       m2mf_src_pitch := m2mf_src_pitch r; m2mf_dst_pitch := param;
       m2mf_line_length := m2mf_line_length r; m2mf_line_count := m2mf_line_count r |}
  else if method =? 0x0c7 then
    {| m2mf_src := m2mf_src r; m2mf_dst := m2mf_dst r;
       m2mf_src_offset := m2mf_src_offset r; m2mf_dst_offset := m2mf_dst_offset r;
       m2mf_src_pitch := m2mf_src_pitch r; m2mf_dst_pitch := m2mf_dst_pitch r;
       m2mf_line_length := param; m2mf_line_count := m2mf_line_count r |}
  else if method =? 0x0c8 then
    {| m2mf_src := m2mf_src r; m2mf_dst := m2mf_dst r;
       m2mf_src_offset := m2mf_src_offset r; m2mf_dst_offset := m2mf_dst_offset r;
       m2mf_src_pitch := m2mf_src_pitch r; m2mf_dst_pitch := m2mf_dst_pitch r;
       m2mf_line_length := m2mf_line_length r; m2mf_line_count := param |}
  else r.

(** The position in [d3d_vertex_data[4][16][4]] that method 0x606 of
    [geforce_execute_d3d] writes next. *)
Record D3dVertexCursor : Type := {
  d3d_vertex_index : Z;
  d3d_attrib_index : Z;
  d3d_comp_index : Z
}.

(** [case 0x606]: the cursor after the store. *)
Definition geforce_execute_d3d_vertex_data (c : D3dVertexCursor) : D3dVertexCursor :=
  let comp := u32 (d3d_comp_index c + 1) in
  if comp =? 4 then
    let attrib := u32 (d3d_attrib_index c + 1) in
    if attrib =? 16 then
      let vertex := u32 (d3d_vertex_index c + 1) in
      if 3 <=? vertex
      then {| d3d_vertex_index := 0; d3d_attrib_index := 0; d3d_comp_index := 0 |}
      else {| d3d_vertex_index := vertex; d3d_attrib_index := 0; d3d_comp_index := 0 |}
    else {| d3d_vertex_index := d3d_vertex_index c; d3d_attrib_index := attrib;
            d3d_comp_index := 0 |}
  else {| d3d_vertex_index := d3d_vertex_index c; d3d_attrib_index := d3d_attrib_index c;
          d3d_comp_index := comp |}.

(** The position as an offset into the flattened array. *)
Definition d3d_vertex_data_offset (c : D3dVertexCursor) : Z :=
  (d3d_vertex_index c * 16 + d3d_attrib_index c) * 4 + d3d_comp_index c.

(** ** Further predicates and register cases *)

Section Registers.
Context {ClassRegs : Type} `{Inhabited ClassRegs} {ops : ClassOps ClassRegs}.
Implicit Types s : GeForceState ClassRegs.

(** The get cursor and the return address of an active subroutine of
    channel [chid] are word aligned. *)
Definition cursor_aligned s (chid : Z) : Prop :=
  fifo_cache1_dma_get s mod 4 = 0
  /\ (subr_active (get_channel s chid) = true -> subr_return (get_channel s chid) mod 4 = 0).

(** Assignments to the remaining interrupt and configuration registers. *)

Definition set_mc_intr_en (v : Z) s : GeForceState ClassRegs :=
  {| card_type := card_type s; memsize := memsize s; ramin_flip := ramin_flip s;
     class_mask := class_mask s; vram := vram s; sysmem := sysmem s; irq_level := irq_level s;
     mc_intr_en := v; bus_intr := bus_intr s; bus_intr_en := bus_intr_en s;
     fifo_intr := fifo_intr s; fifo_intr_en := fifo_intr_en s; graph_intr := graph_intr s;
     graph_nsource := graph_nsource s; graph_intr_en := graph_intr_en s;
     graph_notify := graph_notify s; crtc_intr := crtc_intr s; crtc_intr_en := crtc_intr_en s;
     fifo_ramht := fifo_ramht s; fifo_ramfc := fifo_ramfc s;
     fifo_cache1_push1 := fifo_cache1_push1 s; fifo_cache1_put := fifo_cache1_put s;
     fifo_cache1_dma_instance := fifo_cache1_dma_instance s;
     fifo_cache1_dma_put := fifo_cache1_dma_put s; fifo_cache1_dma_get := fifo_cache1_dma_get s;
     fifo_cache1_ref_cnt := fifo_cache1_ref_cnt s; fifo_cache1_pull0 := fifo_cache1_pull0 s;
     fifo_cache1_semaphore := fifo_cache1_semaphore s; fifo_cache1_get := fifo_cache1_get s;
     fifo_cache1_method := fifo_cache1_method s; fifo_cache1_data := fifo_cache1_data s;
     channels := channels s; dispatch_log := dispatch_log s |}.

Definition set_bus_intr (v : Z) s : GeForceState ClassRegs :=
  {| card_type := card_type s; memsize := memsize s; ramin_flip := ramin_flip s;
     class_mask := class_mask s; vram := vram s; sysmem := sysmem s; irq_level := irq_level s;
     mc_intr_en := mc_intr_en s; bus_intr := v; bus_intr_en := bus_intr_en s;
     fifo_intr := fifo_intr s; fifo_intr_en := fifo_intr_en s; graph_intr := graph_intr s;
     graph_nsource := graph_nsource s; graph_intr_en := graph_intr_en s;
     graph_notify := graph_notify s; crtc_intr := crtc_intr s; crtc_intr_en := crtc_intr_en s;
     fifo_ramht := fifo_ramht s; fifo_ramfc := fifo_ramfc s;
     fifo_cache1_push1 := fifo_cache1_push1 s; fifo_cache1_put := fifo_cache1_put s;
     fifo_cache1_dma_instance := fifo_cache1_dma_instance s;
     fifo_cache1_dma_put := fifo_cache1_dma_put s; fifo_cache1_dma_get := fifo_cache1_dma_get s;
     fifo_cache1_ref_cnt := fifo_cache1_ref_cnt s; fifo_cache1_pull0 := fifo_cache1_pull0 s;
     fifo_cache1_semaphore := fifo_cache1_semaphore s; fifo_cache1_get := fifo_cache1_get s;
     fifo_cache1_method := fifo_cache1_method s; fifo_cache1_data := fifo_cache1_data s;
     channels := channels s; dispatch_log := dispatch_log s |}.

Definition set_bus_intr_en (v : Z) s : GeForceState ClassRegs :=
  {| card_type := card_type s; memsize := memsize s; ramin_flip := ramin_flip s;
     class_mask := class_mask s; vram := vram s; sysmem := sysmem s; irq_level := irq_level s;
     mc_intr_en := mc_intr_en s; bus_intr := bus_intr s; bus_intr_en := v; fifo_intr := fifo_intr s;
     fifo_intr_en := fifo_intr_en s; graph_intr := graph_intr s; graph_nsource := graph_nsource s;
     graph_intr_en := graph_intr_en s; graph_notify := graph_notify s; crtc_intr := crtc_intr s;
     crtc_intr_en := crtc_intr_en s; fifo_ramht := fifo_ramht s; fifo_ramfc := fifo_ramfc s;
     fifo_cache1_push1 := fifo_cache1_push1 s; fifo_cache1_put := fifo_cache1_put s;
     fifo_cache1_dma_instance := fifo_cache1_dma_instance s;
     fifo_cache1_dma_put := fifo_cache1_dma_put s; fifo_cache1_dma_get := fifo_cache1_dma_get s;
     fifo_cache1_ref_cnt := fifo_cache1_ref_cnt s; fifo_cache1_pull0 := fifo_cache1_pull0 s;
     fifo_cache1_semaphore := fifo_cache1_semaphore s; fifo_cache1_get := fifo_cache1_get s;
     fifo_cache1_method := fifo_cache1_method s; fifo_cache1_data := fifo_cache1_data s;
     channels := channels s; dispatch_log := dispatch_log s |}.

Definition set_fifo_intr_en (v : Z) s : GeForceState ClassRegs :=
  {| card_type := card_type s; memsize := memsize s; ramin_flip := ramin_flip s;
     class_mask := class_mask s; vram := vram s; sysmem := sysmem s; irq_level := irq_level s;
     mc_intr_en := mc_intr_en s; bus_intr := bus_intr s; bus_intr_en := bus_intr_en s;
     fifo_intr := fifo_intr s; fifo_intr_en := v; graph_intr := graph_intr s;
     graph_nsource := graph_nsource s; graph_intr_en := graph_intr_en s;
     graph_notify := graph_notify s; crtc_intr := crtc_intr s; crtc_intr_en := crtc_intr_en s;
     fifo_ramht := fifo_ramht s; fifo_ramfc := fifo_ramfc s;
     fifo_cache1_push1 := fifo_cache1_push1 s; fifo_cache1_put := fifo_cache1_put s;
     fifo_cache1_dma_instance := fifo_cache1_dma_instance s;
     fifo_cache1_dma_put := fifo_cache1_dma_put s; fifo_cache1_dma_get := fifo_cache1_dma_get s;
     fifo_cache1_ref_cnt := fifo_cache1_ref_cnt s; fifo_cache1_pull0 := fifo_cache1_pull0 s;
     fifo_cache1_semaphore := fifo_cache1_semaphore s; fifo_cache1_get := fifo_cache1_get s;
     fifo_cache1_method := fifo_cache1_method s; fifo_cache1_data := fifo_cache1_data s;
     channels := channels s; dispatch_log := dispatch_log s |}.

Definition set_graph_intr_en (v : Z) s : GeForceState ClassRegs :=
  {| card_type := card_type s; memsize := memsize s; ramin_flip := ramin_flip s;
     class_mask := class_mask s; vram := vram s; sysmem := sysmem s; irq_level := irq_level s;
     mc_intr_en := mc_intr_en s; bus_intr := bus_intr s; bus_intr_en := bus_intr_en s;
     fifo_intr := fifo_intr s; fifo_intr_en := fifo_intr_en s; graph_intr := graph_intr s;
     graph_nsource := graph_nsource s; graph_intr_en := v; graph_notify := graph_notify s;
     crtc_intr := crtc_intr s; crtc_intr_en := crtc_intr_en s; fifo_ramht := fifo_ramht s;
     fifo_ramfc := fifo_ramfc s; fifo_cache1_push1 := fifo_cache1_push1 s;
     fifo_cache1_put := fifo_cache1_put s; fifo_cache1_dma_instance := fifo_cache1_dma_instance s;
     fifo_cache1_dma_put := fifo_cache1_dma_put s; fifo_cache1_dma_get := fifo_cache1_dma_get s;
     fifo_cache1_ref_cnt := fifo_cache1_ref_cnt s; fifo_cache1_pull0 := fifo_cache1_pull0 s;
     fifo_cache1_semaphore := fifo_cache1_semaphore s; fifo_cache1_get := fifo_cache1_get s;
     fifo_cache1_method := fifo_cache1_method s; fifo_cache1_data := fifo_cache1_data s;
     channels := channels s; dispatch_log := dispatch_log s |}.

Definition set_crtc_intr (v : Z) s : GeForceState ClassRegs :=
  {| card_type := card_type s; memsize := memsize s; ramin_flip := ramin_flip s;
     class_mask := class_mask s; vram := vram s; sysmem := sysmem s; irq_level := irq_level s;
     mc_intr_en := mc_intr_en s; bus_intr := bus_intr s; bus_intr_en := bus_intr_en s;
     fifo_intr := fifo_intr s; fifo_intr_en := fifo_intr_en s; graph_intr := graph_intr s;
     graph_nsource := graph_nsource s; graph_intr_en := graph_intr_en s;
     graph_notify := graph_notify s; crtc_intr := v; crtc_intr_en := crtc_intr_en s;
     fifo_ramht := fifo_ramht s; fifo_ramfc := fifo_ramfc s;
     fifo_cache1_push1 := fifo_cache1_push1 s; fifo_cache1_put := fifo_cache1_put s;
     fifo_cache1_dma_instance := fifo_cache1_dma_instance s;
     fifo_cache1_dma_put := fifo_cache1_dma_put s; fifo_cache1_dma_get := fifo_cache1_dma_get s;
     fifo_cache1_ref_cnt := fifo_cache1_ref_cnt s; fifo_cache1_pull0 := fifo_cache1_pull0 s;
     fifo_cache1_semaphore := fifo_cache1_semaphore s; fifo_cache1_get := fifo_cache1_get s;
     fifo_cache1_method := fifo_cache1_method s; fifo_cache1_data := fifo_cache1_data s;
     channels := channels s; dispatch_log := dispatch_log s |}.

Definition set_crtc_intr_en (v : Z) s : GeForceState ClassRegs :=
  {| card_type := card_type s; memsize := memsize s; ramin_flip := ramin_flip s;
     class_mask := class_mask s; vram := vram s; sysmem := sysmem s; irq_level := irq_level s;
     mc_intr_en := mc_intr_en s; bus_intr := bus_intr s; bus_intr_en := bus_intr_en s;
     fifo_intr := fifo_intr s; fifo_intr_en := fifo_intr_en s; graph_intr := graph_intr s;
     graph_nsource := graph_nsource s; graph_intr_en := graph_intr_en s;
     graph_notify := graph_notify s; crtc_intr := crtc_intr s; crtc_intr_en := v;
     fifo_ramht := fifo_ramht s; fifo_ramfc := fifo_ramfc s;
     fifo_cache1_push1 := fifo_cache1_push1 s; fifo_cache1_put := fifo_cache1_put s;
     fifo_cache1_dma_instance := fifo_cache1_dma_instance s;
     fifo_cache1_dma_put := fifo_cache1_dma_put s; fifo_cache1_dma_get := fifo_cache1_dma_get s;
     fifo_cache1_ref_cnt := fifo_cache1_ref_cnt s; fifo_cache1_pull0 := fifo_cache1_pull0 s;
     fifo_cache1_semaphore := fifo_cache1_semaphore s; fifo_cache1_get := fifo_cache1_get s;
     fifo_cache1_method := fifo_cache1_method s; fifo_cache1_data := fifo_cache1_data s;
     channels := channels s; dispatch_log := dispatch_log s |}.

Definition set_fifo_ramht (v : Z) s : GeForceState ClassRegs :=
  {| card_type := card_type s; memsize := memsize s; ramin_flip := ramin_flip s;
     class_mask := class_mask s; vram := vram s; sysmem := sysmem s; irq_level := irq_level s;
     mc_intr_en := mc_intr_en s; bus_intr := bus_intr s; bus_intr_en := bus_intr_en s;
     fifo_intr := fifo_intr s; fifo_intr_en := fifo_intr_en s; graph_intr := graph_intr s;
     graph_nsource := graph_nsource s; graph_intr_en := graph_intr_en s;
     graph_notify := graph_notify s; crtc_intr := crtc_intr s; crtc_intr_en := crtc_intr_en s;
     fifo_ramht := v; fifo_ramfc := fifo_ramfc s; fifo_cache1_push1 := fifo_cache1_push1 s;
     fifo_cache1_put := fifo_cache1_put s; fifo_cache1_dma_instance := fifo_cache1_dma_instance s;
     fifo_cache1_dma_put := fifo_cache1_dma_put s; fifo_cache1_dma_get := fifo_cache1_dma_get s;
     fifo_cache1_ref_cnt := fifo_cache1_ref_cnt s; fifo_cache1_pull0 := fifo_cache1_pull0 s;
     fifo_cache1_semaphore := fifo_cache1_semaphore s; fifo_cache1_get := fifo_cache1_get s;
     fifo_cache1_method := fifo_cache1_method s; fifo_cache1_data := fifo_cache1_data s;
     channels := channels s; dispatch_log := dispatch_log s |}.

Definition set_fifo_ramfc (v : Z) s : GeForceState ClassRegs :=
  {| card_type := card_type s; memsize := memsize s; ramin_flip := ramin_flip s;
     class_mask := class_mask s; vram := vram s; sysmem := sysmem s; irq_level := irq_level s;
     mc_intr_en := mc_intr_en s; bus_intr := bus_intr s; bus_intr_en := bus_intr_en s;
     fifo_intr := fifo_intr s; fifo_intr_en := fifo_intr_en s; graph_intr := graph_intr s;
     graph_nsource := graph_nsource s; graph_intr_en := graph_intr_en s;
     graph_notify := graph_notify s; crtc_intr := crtc_intr s; crtc_intr_en := crtc_intr_en s;
     fifo_ramht := fifo_ramht s; fifo_ramfc := v; fifo_cache1_push1 := fifo_cache1_push1 s;
     fifo_cache1_put := fifo_cache1_put s; fifo_cache1_dma_instance := fifo_cache1_dma_instance s;
     fifo_cache1_dma_put := fifo_cache1_dma_put s; fifo_cache1_dma_get := fifo_cache1_dma_get s;
     fifo_cache1_ref_cnt := fifo_cache1_ref_cnt s; fifo_cache1_pull0 := fifo_cache1_pull0 s;
     fifo_cache1_semaphore := fifo_cache1_semaphore s; fifo_cache1_get := fifo_cache1_get s;
     fifo_cache1_method := fifo_cache1_method s; fifo_cache1_data := fifo_cache1_data s;
     channels := channels s; dispatch_log := dispatch_log s |}.

(** ** MMIO handlers: the interrupt registers

    [val] is the 64-bit value of the access; an assignment to a
    [uint32_t] field keeps its low 32 bits. *)

(** The value [geforce_mmio_read] returns for PMC_INTR ([case 0x000100]). *)
Definition geforce_mmio_read_pmc_intr s : Z :=
  let val := 0 in
  let val :=
    if nonzero (Z.land (bus_intr s) (bus_intr_en s)) then Z.lor val 0x10000000 else val in
  let val :=
    if nonzero (Z.land (fifo_intr s) (fifo_intr_en s)) then Z.lor val 0x00000100 else val in
  let val :=
    if nonzero (Z.land (graph_intr s) (graph_intr_en s)) then Z.lor val 0x00001000 else val in
  let val :=
    if nonzero (Z.land (crtc_intr s) (crtc_intr_en s)) then Z.lor val 0x01000000 else val in
  val.

(** [geforce_mmio_read] at the addresses of the interrupt registers;
    [None] at any other address. *)
Definition geforce_mmio_read_intr s (addr : Z) : option Z :=
  if addr =? 0x000100 then Some (geforce_mmio_read_pmc_intr s)
  else if addr =? 0x000140 then Some (mc_intr_en s)
  else if addr =? 0x001100 then Some (bus_intr s)
  else if addr =? 0x001140 then Some (bus_intr_en s)
  else if addr =? 0x002100 then Some (fifo_intr s)
  else if addr =? 0x002140 then Some (fifo_intr_en s)
  else if addr =? 0x400100 then Some (graph_intr s)
  else if addr =? 0x40013c then Some (if 0x40 <=? card_type s then graph_intr_en s else 0)
  else if addr =? 0x400140 then Some (if card_type s <? 0x40 then graph_intr_en s else 0)
  else if addr =? 0x600100 then Some (crtc_intr s)
  else if addr =? 0x600140 then Some (crtc_intr_en s)
  else None.

(** [geforce_mmio_write] at the same addresses (PMC_INTR itself has no
    write case). *)
Definition geforce_mmio_write_intr s (addr val : Z) : option (GeForceState ClassRegs) :=
  if addr =? 0x000140 then Some (geforce_update_irq (set_mc_intr_en (u32 val) s))
  else if addr =? 0x001100 then
    Some (geforce_update_irq (set_bus_intr (u32 (Z.land (bus_intr s) (Z.lnot val))) s))
  else if addr =? 0x001140 then Some (geforce_update_irq (set_bus_intr_en (u32 val) s))
  else if addr =? 0x002100 then
    Some (geforce_update_irq (set_fifo_intr (u32 (Z.land (fifo_intr s) (Z.lnot val))) s))
  else if addr =? 0x002140 then Some (geforce_update_irq (set_fifo_intr_en (u32 val) s))
  else if addr =? 0x400100 then
    Some (geforce_update_irq (set_graph_intr (u32 (Z.land (graph_intr s) (Z.lnot val))) s))
  else if addr =? 0x40013c then
    Some (if 0x40 <=? card_type s then geforce_update_irq (set_graph_intr_en (u32 val) s) else s)
  else if addr =? 0x400140 then
    Some (if card_type s <? 0x40 then geforce_update_irq (set_graph_intr_en (u32 val) s) else s)
  else if addr =? 0x600100 then
    Some (geforce_update_irq (set_crtc_intr (u32 (Z.land (crtc_intr s) (Z.lnot val))) s))
  else if addr =? 0x600140 then Some (geforce_update_irq (set_crtc_intr_en (u32 val) s))
  else None.

(** ** VBlank timer

    [acquire_active] is the field of that name; the result carries its
    value after the call.  Rearming the timer is outside the model. *)
Definition geforce_vblank_timer (pfuel fuel : nat) (acquire_active : bool) s
  : option (GeForceState ClassRegs * bool) :=
  let s := set_crtc_intr (Z.lor (crtc_intr s) 0x00000001) s in
  let s := geforce_update_irq s in
  if acquire_active then
    match
      fold_left
        (fun acc (i : nat) =>
           match acc with
           | Some s => geforce_fifo_process pfuel fuel s (Z.of_nat i)
           | None => None
           end)
        (seq 0 (Z.to_nat GEFORCE_CHANNEL_COUNT)) (Some s)
    with
    | Some s => Some (s, false)
    | None => None
    end
  else Some (s, acquire_active).

(** ** MMIO handlers: the software-method queue and the channel window *)

(** PFIFO_CACHE1_STATUS ([case 0x003214]) and PFIFO_RUNOUT_STATUS
    ([case 0x002400]) of [geforce_mmio_read]. *)
Definition geforce_mmio_read_cache1_status s : Z :=
  let val := 0x00000010 in
  if negb (fifo_cache1_get s =? fifo_cache1_put s) then 0x00000000 else val.

(** PFIFO_CACHE1_PULL0 ([case 0x003250]) of [geforce_mmio_read]: the
    value read and the state after the read. *)
Definition geforce_mmio_read_cache1_pull0 s : Z * GeForceState ClassRegs :=
  let s :=
    if negb (fifo_cache1_get s =? fifo_cache1_put s)
    then set_fifo_cache1_pull0 (Z.lor (fifo_cache1_pull0 s) 0x00000100) s
    else s in
  (fifo_cache1_pull0 s, s).

(** "FIFO channel access": the channel id and the offset an address of
    one of the two windows selects. *)
Definition mmio_fifo_window (addr : Z) : bool :=
  ((0x800000 <=? addr) && (addr <? 0xA00000)) || ((0xC00000 <=? addr) && (addr <? 0xE00000)).

Definition mmio_fifo_chid (addr : Z) : Z :=
  let chid :=
    if (0x800000 <=? addr) && (addr <? 0xA00000)
    then u32 (Z.land (Z.shiftr addr 16) 0x1F)
    else u32 (Z.land (Z.shiftr addr 12) 0x1FF) in
  if GEFORCE_CHANNEL_COUNT <=? chid then 0 else chid.

Definition mmio_fifo_offset (addr : Z) : Z :=
  if (0x800000 <=? addr) && (addr <? 0xA00000)
  then u32 (Z.land addr 0x1FFF)
  else u32 (Z.land addr 0x1FF).

(** [geforce_mmio_read] at an address of the channel windows. *)
Definition geforce_mmio_read_fifo_channel s (addr : Z) : Z :=
  let chid := mmio_fifo_chid addr in
  let offset := mmio_fifo_offset addr in
  if offset =? 0x10 then 0xffff
  else if (0x40 <=? offset) && (offset <=? 0x48) then
    let curchid := Z.land (fifo_cache1_push1 s) 0x1F in
    if curchid =? chid then
      if offset =? 0x40 then fifo_cache1_dma_put s
      else if offset =? 0x44 then fifo_cache1_dma_get s
      else if offset =? 0x48 then fifo_cache1_ref_cnt s
      else 0
    else
      if offset =? 0x40 then geforce_ramfc_read32 s chid 0x0
      else if offset =? 0x44 then geforce_ramfc_read32 s chid 0x4
      else if offset =? 0x48 then geforce_ramfc_read32 s chid 0x8
      else 0
  else 0.

(** [geforce_mmio_write] at an address of the channel windows. *)
Definition geforce_mmio_write_fifo_channel (pfuel fuel : nat) s (addr val : Z)
  : option (GeForceState ClassRegs) :=
  let chid := mmio_fifo_chid addr in
  let offset := mmio_fifo_offset addr in
  if offset =? 0x40 then
    let curchid := Z.land (fifo_cache1_push1 s) 0x1F in
    let s :=
      if curchid =? chid
      then set_fifo_cache1_dma_put (u32 val) s
      else geforce_ramfc_write32 s chid 0x0 (u32 val) in
    geforce_fifo_process pfuel fuel s chid
  else Some s.

(** ** The engine-1 branch of [geforce_execute_command]

    The statements after the handle translation: the class handler, the
    notification block and the two methods handled in place.  [param] is
    the parameter after the translation. *)
Definition execute_graphics_method s (chid sc method param : Z) : GeForceState ClassRegs :=
  let sub := get_subch (get_channel s chid) sc in
  let cls := Z.land (geforce_ramin_read32 s (object sub)) (class_mask s) in
  let s := execute_class s chid sc cls method param in
  let s := execute_notify s chid sc in
  let ch := get_channel s chid in
  if method =? 0x041 then
    put_channel chid (set_notify_type param (set_notify_pending true ch)) s
  else if method =? 0x060 then
    put_channel chid (put_subch sc (set_notifier param (get_subch ch sc)) ch) s
  else s.

(** What the notification block reads and writes: the armed flag and the
    type of the channel, and [graph_intr], [graph_nsource] and
    [graph_notify]. *)
Definition graph_regs s : Z * Z * Z := (graph_intr s, graph_nsource s, graph_notify s).

Definition notify_state s (chid : Z) : bool * Z * (Z * Z * Z) :=
  (notify_pending (get_channel s chid), notify_type (get_channel s chid), graph_regs s).

(** ** [geforce_m2mf]

    The inner loop, [for (uint32_t i = 0; i < ch->m2mf_line_length;
    i += 4)], and the outer loop, [for (uint16_t y = 0;
    y < ch->m2mf_line_count; y++)], each with its own fuel.  The display
    update that follows is outside the model. *)
Fixpoint m2mf_copy_line (lfuel : nat) s (r : M2mfRegs) (src_offset dst_offset i : Z)
  : option (GeForceState ClassRegs) :=
  match lfuel with
  | O => None
  | S lfuel' =>
      if i <? m2mf_line_length r then
        let data := geforce_dma_read32 s (m2mf_src r) (u32 (src_offset + i)) in
        let s := geforce_dma_write32 s (m2mf_dst r) (u32 (dst_offset + i)) data in
        m2mf_copy_line lfuel' s r src_offset dst_offset (u32 (i + 4))
      else Some s
  end.

Fixpoint m2mf_copy_lines (lfuel fuel : nat) s (r : M2mfRegs) (src_offset dst_offset y : Z)
  : option (GeForceState ClassRegs) :=
  match fuel with
  | O => None
  | S fuel' =>
      if y <? m2mf_line_count r then
        match m2mf_copy_line lfuel s r src_offset dst_offset 0 with
        | None => None
        | Some s =>
            m2mf_copy_lines lfuel fuel' s r (u32 (src_offset + m2mf_src_pitch r))
              (u32 (dst_offset + m2mf_dst_pitch r)) (u16 (y + 1))
        end
      else Some s
  end.

Definition geforce_m2mf (lfuel fuel : nat) s (r : M2mfRegs) : option (GeForceState ClassRegs) :=
  m2mf_copy_lines lfuel fuel s r (m2mf_src_offset r) (m2mf_dst_offset r) 0.

(** Software methods pushed one after the other, first to last. *)
Definition software_method_pushes s (l : list (Z * Z * Z)) : GeForceState ClassRegs :=
  fold_left (fun s '(sc, method, param) => software_method_push s sc method param) l s.

End Registers.

(** ** Further sample states *)

(** The handle table of [ramht_state], with the object at instance
    address 0x1000 holding notifier 0xAB0 in its second word, and every
    subchannel bound to the object at 0x2000 on engine 1 with notifier
    0x12345678. *)
Definition bind_state : GeForceState Z :=
  sample_state [(0x1000 + 0x3E0, 0x12345678); (0x1000 + 0x3E4, 0x05010100);
                (0x1004, 0x00AB0000)] 0x00000010 0
    (sample_channel idle_state_data {| object := 0x2000; engine := 1; notifier := 0x12345678 |}).

(** Three parameters pending for the non-incrementing method 0x100 of
    subchannel 1, bound to engine 0. *)
Definition nonincrement_ring_state : GeForceState Z :=
  ring_state [0x33; 0x44; 0x55] {| mthd := 0x100; subc := 1; mcnt := 3; ni := true |}
    (sample_subchannel 0 0).

(** A ring that calls the subroutine at offset 8 from offset 0; the
    subroutine is a single return word. *)
Definition call_ring_state : GeForceState Z :=
  ring_state [0x0000000A; 0x00000000; 0x00020000] idle_state_data (sample_subchannel 0 0).

(** The same ring with the put cursor at an address that is not a
    multiple of four. *)
Definition misaligned_put_state : GeForceState Z :=
  set_fifo_cache1_dma_put 0x6 call_ring_state.

(** The software-method queue of [software_ring_state] with the put
    cursor at its last entry. *)
Definition queue_end_state : GeForceState Z :=
  set_fifo_cache1_get 0xFC (set_fifo_cache1_put 0xFC software_ring_state).

(** Two linear DMA objects in device memory: a source at instance
    address 0x1000 with base 0x80000 and a destination at 0x1100 with
    base 0x90000; device memory holds the words 0x11111111 and 0x22222222
    at 0x80000 and 0x80004 (instance addresses 0x3F7FFC0 and 0x3F7FFC4). *)
Definition m2mf_state : GeForceState Z :=
  sample_state [(0x1000, 0x00002000); (0x1008, 0x00080000);
                (0x1100, 0x00002000); (0x1108, 0x00090000);
                (0x3F7FFC0, 0x11111111); (0x3F7FFC4, 0x22222222)] 0 0
    (sample_channel idle_state_data (sample_subchannel 0 0)).

Definition m2mf_regs (line_length line_count : Z) : M2mfRegs :=
  {| m2mf_src := 0x1000; m2mf_dst := 0x1100; m2mf_src_offset := 0; m2mf_dst_offset := 0;
     m2mf_src_pitch := 8; m2mf_dst_pitch := 8; m2mf_line_length := line_length;
     m2mf_line_count := line_count |}.

(** [bind_state] with a notification of type 1 armed on channel 0. *)
Definition armed_state : GeForceState Z :=
  put_channel 0 (set_notify_type 1 (set_notify_pending true (get_channel bind_state 0)))
    bind_state.

(** An empty handle table with size exponent 20 in [fifo_ramht]: the
    table has [2 ^ 29] slots and its size in bytes, [1 << 29 << 3], is 0
    in 32 bits. *)
Definition ramht_wrapped_state : GeForceState Z :=
  sample_state [] 0x00140000 0 (sample_channel idle_state_data (sample_subchannel 0 0)).

(** * Properties *)

Unset Implicit Arguments.

Lemma u32_range x : 0 <= u32 x < 2 ^ 32.
Proof. unfold u32. apply Z.mod_pos_bound. lia. Qed.

Lemma u32_small x : 0 <= x < 2 ^ 32 -> u32 x = x.
Proof. intros. unfold u32. apply Z.mod_small. lia. Qed.

Lemma u32_add_l x y : u32 (u32 x + y) = u32 (x + y).
Proof. unfold u32. apply Zplus_mod_idemp_l. Qed.

Lemma u32_add_r x y : u32 (x + u32 y) = u32 (x + y).
Proof. unfold u32. apply Zplus_mod_idemp_r. Qed.

Lemma nonzero_true x : nonzero x = true <-> x <> 0.
Proof. unfold nonzero. rewrite negb_true_iff, Z.eqb_neq. tauto. Qed.

Lemma nonzero_false x : nonzero x = false <-> x = 0.
Proof. unfold nonzero. rewrite negb_false_iff, Z.eqb_eq. tauto. Qed.

(** ** Memory *)

Lemma mem_store_outside bs : forall m a x,
  x < a \/ a + Z.of_nat (length bs) <= x -> mem_store m a bs x = m x.
Proof.
  induction bs as [|b bs IH]; intros m a x Hx; simpl in *; [reflexivity|].
  rewrite IH by lia.
  destruct (Z.eqb_spec x a); [lia | reflexivity].
Qed.

Lemma mem_store_inside bs : forall m a (i : nat),
  (i < length bs)%nat -> Some (mem_store m a bs (a + Z.of_nat i)) = bs !! i.
Proof.
  induction bs as [|b bs IH]; intros m a i Hi; simpl in *; [lia|].
  destruct i as [|i].
  - rewrite mem_store_outside by lia. simpl.
    replace (a + Z.of_nat 0) with a by lia. now rewrite Z.eqb_refl.
  - replace (a + Z.of_nat (S i)) with (a + 1 + Z.of_nat i) by lia. rewrite IH by lia. reflexivity.
Qed.

Lemma mem_load_store_same bs m a : mem_load (mem_store m a bs) a (length bs) = bs.
Proof.
  apply list_eq. intros i. unfold mem_load.
  rewrite list_lookup_fmap.
  destruct (decide (i < length bs)%nat) as [Hi|Hi].
  - rewrite lookup_seq_lt by lia. simpl. now apply mem_store_inside.
  - rewrite lookup_seq_ge by lia. simpl. symmetry. apply lookup_ge_None. lia.
Qed.

Lemma mem_load_store_disjoint bs m a a' n :
  a' + Z.of_nat n <= a \/ a + Z.of_nat (length bs) <= a' ->
  mem_load (mem_store m a bs) a' n = mem_load m a' n.
Proof.
  intros Hd. unfold mem_load. apply map_ext_in. intros i Hi.
  apply in_seq in Hi. apply mem_store_outside. lia.
Qed.

Lemma ldl_stl_same m a v : 0 <= v < 2 ^ 32 -> ldl_le_p (stl_le_p m a v) a = v.
Proof.
  intros Hv. unfold ldl_le_p, stl_le_p.
  pose proof (mem_load_store_same (le_split 4 v) m a) as E.
  rewrite length_le_split in E. rewrite E, le_combine_split.
  apply Z.mod_small. simpl. lia.
Qed.

Lemma ldl_stl_disjoint m a a' v :
  a' + 4 <= a \/ a + 4 <= a' -> ldl_le_p (stl_le_p m a v) a' = ldl_le_p m a'.
Proof.
  intros Hd. unfold ldl_le_p, stl_le_p.
  rewrite mem_load_store_disjoint; [reflexivity|]. rewrite length_le_split. lia.
Qed.

Lemma ldl_range m a : 0 <= ldl_le_p m a < 2 ^ 32.
Proof. unfold ldl_le_p. pose proof (le_combine_bound (mem_load m a 4)) as B.
  unfold mem_load in B. rewrite length_map, length_seq in B. exact B. Qed.

(** ** Bit-level facts *)

Lemma testbit_above x n i : 0 <= x < 2 ^ n -> 0 <= n <= i -> Z.testbit x i = false.
Proof.
  intros Hx Hi. rewrite <- (Z.mod_small x (2 ^ n)) by lia.
  apply Z.mod_pow2_bits_high. lia.
Qed.

Lemma lxor_lt_pow2 a b n :
  0 <= n -> 0 <= a < 2 ^ n -> 0 <= b < 2 ^ n -> 0 <= Z.lxor a b < 2 ^ n.
Proof.
  intros Hn Ha Hb.
  assert (E : Z.lxor a b mod 2 ^ n = Z.lxor a b).
  { apply Z.bits_inj'. intros i Hi. destruct (Z.lt_ge_cases i n).
    - now rewrite Z.mod_pow2_bits_low.
    - rewrite Z.mod_pow2_bits_high, Z.lxor_spec by lia.
      rewrite (testbit_above a n i), (testbit_above b n i) by lia. reflexivity. }
  rewrite <- E. apply Z.mod_pos_bound. lia.
Qed.

Lemma land_mask_range x n : 0 <= n -> 0 <= Z.land x (2 ^ n - 1) < 2 ^ n.
Proof.
  intros Hn. replace (2 ^ n - 1) with (Z.ones n) by (rewrite Z.ones_equiv; lia).
  rewrite Z.land_ones by lia. apply Z.mod_pos_bound. lia.
Qed.

Section Ramht.
Context {ClassRegs : Type}.
Implicit Types s : GeForceState ClassRegs.

Lemma ramht_bits_min s : 9 <= ramht_bits s.
Proof.
  unfold ramht_bits. pose proof (land_mask_range (Z.shiftr (fifo_ramht s) 16) 8).
  change (2 ^ 8 - 1) with 255 in *. lia.
Qed.

Lemma ramht_size_pow s : ramht_bits s <= 28 -> ramht_size s = 8 * 2 ^ ramht_bits s.
Proof.
  intros Hb. pose proof (ramht_bits_min s). unfold ramht_size.
  rewrite Z.shiftl_1_l, Z.shiftl_mul_pow2 by lia.
  assert (2 ^ ramht_bits s <= 2 ^ 28) by (apply Z.pow_le_mono_r; lia).
  assert (0 < 2 ^ ramht_bits s) by (apply Z.pow_pos_nonneg; lia).
  rewrite u32_small; lia.
Qed.

Lemma ramht_mask_val s : ramht_bits s <= 28 ->
  u32 (Z.shiftl 1 (ramht_bits s) - 1) = 2 ^ ramht_bits s - 1.
Proof.
  intros Hb. pose proof (ramht_bits_min s).
  rewrite Z.shiftl_1_l.
  assert (2 ^ ramht_bits s <= 2 ^ 28) by (apply Z.pow_le_mono_r; lia).
  assert (0 < 2 ^ ramht_bits s) by (apply Z.pow_pos_nonneg; lia).
  rewrite u32_small; lia.
Qed.

(** The folding loop ends after at most [n] shifts when the handle has
    at most [n] chunks, and the hash stays below [2 ^ bits]. *)
Lemma ramht_hash_fold_spec bits : 9 <= bits <= 28 ->
  forall (n : nat) x h,
    0 <= x < 2 ^ (bits * Z.of_nat n) -> 0 <= h < 2 ^ bits ->
    exists h', 0 <= h' < 2 ^ bits /\
      forall fuel, (n < fuel)%nat -> ramht_hash_fold fuel bits x h = Some h'.
Proof.
  intros Hb. induction n as [|n IH]; intros x h Hx Hh.
  - exists h. split; [lia|]. intros fuel Hf. destruct fuel as [|fuel]; [lia|]. simpl.
    change (Z.of_nat 0) with 0 in Hx. rewrite Z.mul_0_r in Hx. change (2 ^ 0) with 1 in Hx.
    replace x with 0 by lia. reflexivity.
  - destruct (Z.eq_dec x 0) as [->|Hnz].
    + exists h. split; [lia|]. intros fuel Hf. destruct fuel as [|fuel]; [lia|]. reflexivity.
    + assert (Hm : u32 (Z.shiftl 1 bits - 1) = 2 ^ bits - 1).
      { rewrite Z.shiftl_1_l.
        assert (2 ^ bits <= 2 ^ 28) by (apply Z.pow_le_mono_r; lia).
        assert (0 < 2 ^ bits) by (apply Z.pow_pos_nonneg; lia).
        rewrite u32_small; lia. }
      destruct (IH (Z.shiftr x bits) (Z.lxor h (Z.land x (2 ^ bits - 1)))) as (h' & Hh' & Hfuel).
      * rewrite Z.shiftr_div_pow2 by lia. split.
        -- apply Z.div_pos; [lia|]. apply Z.pow_pos_nonneg; lia.
        -- apply Z.div_lt_upper_bound; [apply Z.pow_pos_nonneg; lia|].
           rewrite <- Z.pow_add_r by lia.
           replace (bits + bits * Z.of_nat n) with (bits * Z.of_nat (S n)) by lia. lia.
      * apply lxor_lt_pow2; [lia | lia | apply land_mask_range; lia].
      * exists h'. split; [exact Hh'|]. intros fuel Hf.
        destruct fuel as [|fuel]; [lia|]. simpl.
        assert (nonzero x = true) as -> by (now apply nonzero_true).
        rewrite Hm. apply Hfuel. lia.
Qed.

(** The starting offset is a slot of the table. *)
Lemma ramht_hash_spec s handle chid :
  ramht_bits s <= 28 -> 0 <= handle < 2 ^ 32 ->
  exists h0, 0 <= h0 < 2 ^ ramht_bits s /\
    forall fuel, (4 < fuel)%nat -> ramht_hash fuel s handle chid = Some (8 * h0).
Proof.
  intros Hb Hh. pose proof (ramht_bits_min s) as Hmin.
  destruct (ramht_hash_fold_spec (ramht_bits s) ltac:(lia) 4%nat handle 0) as (h & Hhr & Hfuel).
  - split; [lia|]. eapply Z.lt_le_trans; [apply Hh|]. apply Z.pow_le_mono_r; lia.
  - split; [lia|]. apply Z.pow_pos_nonneg; lia.
  - set (c := u32 (Z.shiftl (Z.land chid 0xF) (ramht_bits s - 4))).
    assert (Hp : 2 ^ ramht_bits s = 16 * 2 ^ (ramht_bits s - 4)).
    { change 16 with (2 ^ 4). rewrite <- Z.pow_add_r by lia. f_equal. lia. }
    assert (Hp28 : 2 ^ ramht_bits s <= 2 ^ 28) by (apply Z.pow_le_mono_r; lia).
    assert (Hc : 0 <= c < 2 ^ ramht_bits s).
    { subst c. rewrite Z.shiftl_mul_pow2 by lia.
      pose proof (land_mask_range chid 4 ltac:(lia)) as Hl. change (2 ^ 4 - 1) with 15 in Hl.
      assert (0 < 2 ^ (ramht_bits s - 4)) by (apply Z.pow_pos_nonneg; lia).
      rewrite u32_small; nia. }
    pose proof (lxor_lt_pow2 h c (ramht_bits s) ltac:(lia) Hhr Hc) as Hx.
    exists (Z.lxor h c). split; [exact Hx|]. intros fuel Hf.
    unfold ramht_hash. rewrite Hfuel by lia. fold c.
    rewrite Z.shiftl_mul_pow2 by lia. rewrite u32_small; [f_equal; lia | lia].
Qed.

End Ramht.

Section Probe.
Context {ClassRegs : Type}.
Variable s : GeForceState ClassRegs.
Variables handle chid h0 : Z.
Hypothesis Hbits : ramht_bits s <= 28.
Hypothesis Hh0 : 0 <= h0 < 2 ^ ramht_bits s.

Local Abbreviation N := (2 ^ ramht_bits s).
Local Abbreviation hash := (8 * h0).

Lemma ramht_slots_pos : 0 < N.
Proof using Type. pose proof (ramht_bits_min s). apply Z.pow_pos_nonneg; lia. Qed.

Lemma ramht_slots_le : N <= 2 ^ 28.
Proof using Hbits. pose proof (ramht_bits_min s). apply Z.pow_le_mono_r; lia. Qed.

Lemma ramht_probe_offset_slot k :
  ramht_probe_offset s hash k = 8 * ((h0 + k) mod N).
Proof using Hbits.
  unfold ramht_probe_offset. rewrite ramht_size_pow by assumption.
  replace (8 * h0 + 8 * k) with (8 * (h0 + k)) by lia.
  apply Zmult_mod_distr_l.
Qed.

Lemma ramht_probe_offset_range k :
  0 <= ramht_probe_offset s hash k < ramht_size s /\ ramht_probe_offset s hash k mod 8 = 0.
Proof using Hbits.
  pose proof ramht_slots_pos. rewrite ramht_probe_offset_slot, ramht_size_pow by assumption.
  pose proof (Z.mod_pos_bound (h0 + k) N ltac:(lia)).
  split; [lia|]. rewrite Z.mul_comm. apply Z_mod_mult.
Qed.

Lemma ramht_probe_offset_0 : ramht_probe_offset s hash 0 = hash.
Proof using Hbits Hh0.
  rewrite ramht_probe_offset_slot, Z.add_0_r, Z.mod_small by lia. reflexivity.
Qed.

Lemma ramht_probe_offset_full : ramht_probe_offset s hash N = hash.
Proof using Hbits Hh0.
  rewrite ramht_probe_offset_slot. replace (h0 + N) with (h0 + 1 * N) by lia.
  rewrite Z_mod_plus_full, Z.mod_small by lia. reflexivity.
Qed.

Lemma ramht_probe_offset_ne k : 0 < k < N -> ramht_probe_offset s hash k <> hash.
Proof using Hbits Hh0.
  intros Hk. rewrite ramht_probe_offset_slot. intros E.
  assert (E' : (h0 + k) mod N = h0) by lia. clear E.
  destruct (Z_lt_ge_dec (h0 + k) N) as [Hlt|Hge].
  - rewrite Z.mod_small in E' by lia. lia.
  - replace (h0 + k) with ((h0 + k - N) + 1 * N) in E' by lia.
    rewrite Z_mod_plus_full, Z.mod_small in E' by lia. lia.
Qed.

(** [it += 8; if (it >= ramht_size) it = 0;] moves to the next offset of
    the cyclic probe sequence. *)
Lemma ramht_next_offset k :
  ramht_next s (ramht_probe_offset s hash k) = ramht_probe_offset s hash (k + 1).
Proof using Hbits.
  pose proof ramht_slots_pos. pose proof ramht_slots_le.
  rewrite !ramht_probe_offset_slot. unfold ramht_next. rewrite ramht_size_pow by assumption.
  pose proof (Z.mod_pos_bound (h0 + k) N ltac:(lia)) as Hi.
  set (i := (h0 + k) mod N) in *.
  assert (E : (h0 + (k + 1)) mod N = (i + 1) mod N).
  { subst i. rewrite Zplus_mod_idemp_l. f_equal. lia. }
  rewrite E. rewrite u32_small by lia.
  destruct (Z.leb_spec (8 * N) (8 * i + 8)) as [Hge|Hlt].
  - replace (i + 1) with N by lia. rewrite Z_mod_same_full. reflexivity.
  - rewrite Z.mod_small by lia. lia.
Qed.

(** The probe returns from the first matching slot of the sequence. *)
Lemma ramht_probe_found (k : nat) : forall j0 fuel,
  0 <= j0 -> j0 + Z.of_nat k < N -> (k < fuel)%nat ->
  (forall j, j0 <= j < j0 + Z.of_nat k ->
     ramht_slot_matches s handle chid (ramht_probe_offset s hash j) = false) ->
  ramht_slot_matches s handle chid (ramht_probe_offset s hash (j0 + Z.of_nat k)) = true ->
  ramht_probe fuel s handle chid hash (ramht_probe_offset s hash j0)
  = Some (Some (ramht_slot_context s (ramht_probe_offset s hash (j0 + Z.of_nat k)))).
Proof using Hbits Hh0.
  induction k as [|k IH]; intros j0 fuel Hj0 Hlt Hf Hno Hyes;
    (destruct fuel as [|fuel]; [lia|]); cbn [ramht_probe].
  - assert (E : j0 + Z.of_nat 0 = j0) by lia. rewrite E in *. now rewrite Hyes.
  - rewrite Hno by lia. rewrite ramht_next_offset.
    destruct (Z.eqb_spec (ramht_probe_offset s hash (j0 + 1)) hash) as [E|_].
    + exfalso. revert E. apply ramht_probe_offset_ne. lia.
    + assert (E : j0 + Z.of_nat (S k) = j0 + 1 + Z.of_nat k) by lia. rewrite E in *.
      apply IH; try lia; [|exact Hyes]. intros j Hj. apply Hno. lia.
Qed.

(** Without a matching slot the probe is back at its start after one pass. *)
Lemma ramht_probe_fail (n : nat) : forall j0 fuel,
  0 <= j0 -> j0 + Z.of_nat n = N -> (0 < n <= fuel)%nat ->
  (forall j, j0 <= j < N ->
     ramht_slot_matches s handle chid (ramht_probe_offset s hash j) = false) ->
  ramht_probe fuel s handle chid hash (ramht_probe_offset s hash j0) = Some None.
Proof using Hbits Hh0.
  induction n as [|n IH]; intros j0 fuel Hj0 Hsum Hf Hno; [lia|].
  destruct fuel as [|fuel]; [lia|]. cbn [ramht_probe].
  rewrite Hno by lia. rewrite ramht_next_offset.
  destruct n as [|n].
  - replace (j0 + 1) with N by lia. rewrite ramht_probe_offset_full, Z.eqb_refl. reflexivity.
  - destruct (Z.eqb_spec (ramht_probe_offset s hash (j0 + 1)) hash) as [E|_].
    + exfalso. revert E. apply ramht_probe_offset_ne. lia.
    + apply IH; try lia. intros j Hj. apply Hno. lia.
Qed.

(** Either no slot of the pass matches or there is a first one. *)
Lemma ramht_first_match (n : nat) :
  (forall j, 0 <= j < Z.of_nat n ->
     ramht_slot_matches s handle chid (ramht_probe_offset s hash j) = false)
  \/ exists k, 0 <= k < Z.of_nat n
       /\ ramht_slot_matches s handle chid (ramht_probe_offset s hash k) = true
       /\ forall j, 0 <= j < k ->
            ramht_slot_matches s handle chid (ramht_probe_offset s hash j) = false.
Proof using Type.
  induction n as [|n [IH|IH]].
  - left. intros j Hj. lia.
  - destruct (ramht_slot_matches s handle chid (ramht_probe_offset s hash (Z.of_nat n))) eqn:E.
    + right. exists (Z.of_nat n). split; [lia|]. split; [exact E|]. exact IH.
    + left. intros j Hj. destruct (Z.eq_dec j (Z.of_nat n)) as [->|]; [exact E|]. apply IH. lia.
  - right. destruct IH as (k & Hk & Hyes & Hno). exists k. split; [lia|]. now split.
Qed.

End Probe.

Section Lookup.
Context {ClassRegs : Type}.
Implicit Types s : GeForceState ClassRegs.

Lemma ramht_probe_offset_in_slots s h0 k :
  ramht_bits s <= 28 -> In (ramht_probe_offset s (8 * h0) k) (ramht_slots s).
Proof.
  intros Hb. rewrite ramht_probe_offset_slot by assumption.
  pose proof (ramht_slots_pos s).
  pose proof (Z.mod_pos_bound (h0 + k) (2 ^ ramht_bits s) ltac:(lia)) as Hi.
  unfold ramht_slots. apply in_map_iff.
  exists (Z.to_nat ((h0 + k) mod 2 ^ ramht_bits s)). split; [lia|].
  apply in_seq. lia.
Qed.

Lemma ramht_no_match_offset s handle chid h0 k :
  ramht_bits s <= 28 -> ramht_no_match s handle chid = true ->
  ramht_slot_matches s handle chid (ramht_probe_offset s (8 * h0) k) = false.
Proof.
  intros Hb Hno. unfold ramht_no_match in Hno. rewrite forallb_forall in Hno.
  apply negb_true_iff, Hno. now apply ramht_probe_offset_in_slots.
Qed.

(** A lookup that finds no matching slot returns with both output
    locations as they were. *)
Lemma ramht_lookup_fail s handle chid obj eng fuel :
  ramht_bits s <= 28 -> 0 <= handle < 2 ^ 32 ->
  ramht_no_match s handle chid = true ->
  2 ^ ramht_bits s <= Z.of_nat fuel ->
  geforce_ramht_lookup fuel s handle chid obj eng = Some (obj, eng).
Proof.
  intros Hb Hh Hno Hf. pose proof (ramht_bits_min s) as Hmin.
  assert (2 ^ 9 <= 2 ^ ramht_bits s) by (apply Z.pow_le_mono_r; lia).
  destruct (ramht_hash_spec s handle chid Hb Hh) as (h0 & Hh0 & Hhash).
  unfold geforce_ramht_lookup. rewrite Hhash by lia.
  rewrite <- (ramht_probe_offset_0 s h0 Hb Hh0) at 2.
  rewrite (ramht_probe_fail s handle chid h0 Hb Hh0 (Z.to_nat (2 ^ ramht_bits s))); try lia.
  - reflexivity.
  - intros j Hj. now apply ramht_no_match_offset.
Qed.

Lemma ramht_lookup_found s handle chid obj eng h0 k fuel :
  ramht_bits s <= 28 -> 0 <= h0 < 2 ^ ramht_bits s ->
  ramht_hash fuel s handle chid = Some (8 * h0) ->
  0 <= k < 2 ^ ramht_bits s -> k < Z.of_nat fuel ->
  ramht_slot_matches s handle chid (ramht_probe_offset s (8 * h0) k) = true ->
  (forall j, 0 <= j < k ->
     ramht_slot_matches s handle chid (ramht_probe_offset s (8 * h0) j) = false) ->
  geforce_ramht_lookup fuel s handle chid obj eng
  = Some (ramht_store_result s (ramht_slot_context s (ramht_probe_offset s (8 * h0) k)) obj eng).
Proof.
  intros Hb Hh0 Hhash Hk Hf Hyes Hno.
  unfold geforce_ramht_lookup. rewrite Hhash.
  rewrite <- (ramht_probe_offset_0 s h0 Hb Hh0) at 2.
  rewrite (ramht_probe_found s handle chid h0 Hb Hh0 (Z.to_nat k) 0 fuel); try lia.
  - replace (0 + Z.of_nat (Z.to_nat k)) with k by lia. reflexivity.
  - intros j Hj. apply Hno. lia.
  - replace (0 + Z.of_nat (Z.to_nat k)) with k by lia. exact Hyes.
Qed.

(** C8 (amended). For a table whose size exponent leaves the 32-bit
    table size well defined ([ramht_bits <= 28]), for every content of
    the handle table and every handle and channel id, the probe of
    [geforce_ramht_lookup] starts at a slot of the table, advances by 8
    bytes wrapping at the table size, returns from the first matching
    slot of that sequence within one pass over the table, and returns
    with a failure (both outputs untouched) when the pass comes back to
    its start without a match; in every case the loop ends within
    [2 ^ ramht_bits] iterations. *)
Theorem ramht_lookup_one_traversal s handle chid obj eng :
  ramht_bits s <= 28 -> 0 <= handle < 2 ^ 32 ->
  exists hash,
    (forall fuel, (4 < fuel)%nat -> ramht_hash fuel s handle chid = Some hash)
    /\ 0 <= hash < ramht_size s /\ hash mod 8 = 0
    /\ (forall k, ramht_next s (ramht_probe_offset s hash k) = ramht_probe_offset s hash (k + 1))
    /\ ramht_probe_offset s hash 0 = hash
    /\ ramht_probe_offset s hash (2 ^ ramht_bits s) = hash
    /\ (forall k, 0 <= k < 2 ^ ramht_bits s ->
          ramht_slot_matches s handle chid (ramht_probe_offset s hash k) = true ->
          (forall j, 0 <= j < k ->
             ramht_slot_matches s handle chid (ramht_probe_offset s hash j) = false) ->
          (forall fuel, k < Z.of_nat fuel ->
             ramht_probe fuel s handle chid hash hash
             = Some (Some (ramht_slot_context s (ramht_probe_offset s hash k))))
          /\ (forall fuel, 2 ^ ramht_bits s <= Z.of_nat fuel ->
                geforce_ramht_lookup fuel s handle chid obj eng
                = Some (ramht_store_result s
                          (ramht_slot_context s (ramht_probe_offset s hash k)) obj eng)))
    /\ ((forall k, 0 <= k < 2 ^ ramht_bits s ->
           ramht_slot_matches s handle chid (ramht_probe_offset s hash k) = false) ->
        forall fuel, 2 ^ ramht_bits s <= Z.of_nat fuel ->
          ramht_probe fuel s handle chid hash hash = Some None
          /\ geforce_ramht_lookup fuel s handle chid obj eng = Some (obj, eng))
    /\ (forall fuel, 2 ^ ramht_bits s <= Z.of_nat fuel ->
          exists r, ramht_probe fuel s handle chid hash hash = Some r
            /\ forall context, r = Some context ->
                 exists k, 0 <= k < 2 ^ ramht_bits s
                   /\ ramht_slot_matches s handle chid (ramht_probe_offset s hash k) = true
                   /\ context = ramht_slot_context s (ramht_probe_offset s hash k)).
Proof.
  intros Hb Hh. pose proof (ramht_bits_min s) as Hmin.
  assert (H512 : 2 ^ 9 <= 2 ^ ramht_bits s) by (apply Z.pow_le_mono_r; lia).
  destruct (ramht_hash_spec s handle chid Hb Hh) as (h0 & Hh0 & Hhash).
  pose proof (ramht_probe_offset_0 s h0 Hb Hh0) as H0.
  assert (Hfound : forall k, 0 <= k < 2 ^ ramht_bits s ->
            ramht_slot_matches s handle chid (ramht_probe_offset s (8 * h0) k) = true ->
            (forall j, 0 <= j < k ->
               ramht_slot_matches s handle chid (ramht_probe_offset s (8 * h0) j) = false) ->
            forall fuel, k < Z.of_nat fuel ->
              ramht_probe fuel s handle chid (8 * h0) (8 * h0)
              = Some (Some (ramht_slot_context s (ramht_probe_offset s (8 * h0) k)))).
  { intros k Hk Hyes Hno fuel Hf. rewrite <- H0 at 2.
    rewrite (ramht_probe_found s handle chid h0 Hb Hh0 (Z.to_nat k) 0 fuel); try lia.
    - replace (0 + Z.of_nat (Z.to_nat k)) with k by lia. reflexivity.
    - intros j Hj. apply Hno. lia.
    - replace (0 + Z.of_nat (Z.to_nat k)) with k by lia. exact Hyes. }
  assert (Hfail : (forall k, 0 <= k < 2 ^ ramht_bits s ->
             ramht_slot_matches s handle chid (ramht_probe_offset s (8 * h0) k) = false) ->
            forall fuel, 2 ^ ramht_bits s <= Z.of_nat fuel ->
              ramht_probe fuel s handle chid (8 * h0) (8 * h0) = Some None).
  { intros Hno fuel Hf. rewrite <- H0 at 2.
    apply (ramht_probe_fail s handle chid h0 Hb Hh0 (Z.to_nat (2 ^ ramht_bits s))); try lia.
    intros j Hj. apply Hno. lia. }
  exists (8 * h0).
  split; [exact Hhash|].
  split; [rewrite ramht_size_pow by assumption; lia|].
  split; [rewrite Z.mul_comm; apply Z_mod_mult|].
  split; [intros k; now apply ramht_next_offset|].
  split; [exact H0|].
  split; [now apply ramht_probe_offset_full|].
  split; [|split].
  - intros k Hk Hyes Hno. split; intros fuel Hf.
    + now apply Hfound.
    + unfold geforce_ramht_lookup. rewrite Hhash by lia.
      rewrite (Hfound k) by (assumption || lia). reflexivity.
  - intros Hno fuel Hf. split; [now apply Hfail|].
    unfold geforce_ramht_lookup. rewrite Hhash by lia.
    rewrite Hfail by assumption. reflexivity.
  - intros fuel Hf.
    destruct (ramht_first_match s handle chid h0 (Z.to_nat (2 ^ ramht_bits s)))
      as [Hno|(k & Hk & Hyes & Hno)].
    + exists None. split; [|discriminate]. apply Hfail; [|exact Hf].
      intros k Hk. apply Hno. lia.
    + exists (Some (ramht_slot_context s (ramht_probe_offset s (8 * h0) k))). split.
      * apply Hfound; (assumption || lia).
      * intros context [= <-]. exists k. repeat split; (assumption || lia).
Qed.


(** C9, the lookup itself: without a slot whose stored handle and
    embedded channel id both match, [geforce_ramht_lookup] returns with
    the object and engine locations unmodified. *)
Lemma ramht_lookup_unresolved s handle chid obj eng fuel :
  ramht_bits s <= 28 -> 0 <= handle < 2 ^ 32 ->
  ramht_no_match s handle chid = true ->
  2 ^ ramht_bits s <= Z.of_nat fuel ->
  geforce_ramht_lookup fuel s handle chid (Some obj) (Some eng) = Some (Some obj, Some eng).
Proof. intros. now apply ramht_lookup_fail. Qed.

End Lookup.

Create HintDb frame.

Section Frame.
Context {ClassRegs : Type} `{Inhabited ClassRegs} {ops : ClassOps ClassRegs}.
Implicit Types s : GeForceState ClassRegs.
Implicit Types c : GeForceChannel ClassRegs.

Lemma dispatch_frame_refl s : dispatch_frame s s.
Proof. unfold dispatch_frame. repeat split. Qed.

Lemma dispatch_frame_trans s1 s2 s3 :
  dispatch_frame s1 s2 -> dispatch_frame s2 s3 -> dispatch_frame s1 s3.
Proof.
  unfold dispatch_frame. intros H12 H23.
  repeat match goal with H : _ /\ _ |- _ => destruct H as [? H] end.
  repeat split; try congruence.
  all: intros c; rewrite H23; apply H12.
Qed.

Ltac frame_fields := unfold dispatch_frame; repeat split.

Lemma frame_set_vram s v : dispatch_frame s (set_vram v s).
Proof. frame_fields. Qed.
Lemma frame_set_sysmem s v : dispatch_frame s (set_sysmem v s).
Proof. frame_fields. Qed.
Lemma frame_set_irq_level s v : dispatch_frame s (set_irq_level v s).
Proof. frame_fields. Qed.
Lemma frame_set_fifo_intr s v : dispatch_frame s (set_fifo_intr v s).
Proof. frame_fields. Qed.
Lemma frame_set_graph_intr s v : dispatch_frame s (set_graph_intr v s).
Proof. frame_fields. Qed.
Lemma frame_set_graph_nsource s v : dispatch_frame s (set_graph_nsource v s).
Proof. frame_fields. Qed.
Lemma frame_set_graph_notify s v : dispatch_frame s (set_graph_notify v s).
Proof. frame_fields. Qed.
Lemma frame_set_ref_cnt s v : dispatch_frame s (set_fifo_cache1_ref_cnt v s).
Proof. frame_fields. Qed.
Lemma frame_set_pull0 s v : dispatch_frame s (set_fifo_cache1_pull0 v s).
Proof. frame_fields. Qed.
Lemma frame_set_put s v : dispatch_frame s (set_fifo_cache1_put v s).
Proof. frame_fields. Qed.
Lemma frame_set_method s v : dispatch_frame s (set_fifo_cache1_method v s).
Proof. frame_fields. Qed.
Lemma frame_set_data s v : dispatch_frame s (set_fifo_cache1_data v s).
Proof. frame_fields. Qed.

Hint Resolve dispatch_frame_refl frame_set_vram frame_set_sysmem frame_set_irq_level
  frame_set_fifo_intr frame_set_graph_intr frame_set_graph_nsource frame_set_graph_notify
  frame_set_ref_cnt frame_set_pull0 frame_set_put frame_set_method frame_set_data : frame.

Lemma frame_vram_write32 s a v : dispatch_frame s (geforce_vram_write32 s a v).
Proof. unfold geforce_vram_write32. destruct (_ <? _); auto with frame. Qed.

Lemma frame_vram_write64 s a v : dispatch_frame s (geforce_vram_write64 s a v).
Proof. unfold geforce_vram_write64. destruct (_ <? _); auto with frame. Qed.

Lemma frame_ramin_write32 s a v : dispatch_frame s (geforce_ramin_write32 s a v).
Proof. apply frame_vram_write32. Qed.

Lemma frame_dma_write32 s o a v : dispatch_frame s (geforce_dma_write32 s o a v).
Proof.
  unfold geforce_dma_write32, geforce_physical_write32.
  destruct (nonzero _); [auto with frame | apply frame_vram_write32].
Qed.

Lemma frame_dma_write64 s o a v : dispatch_frame s (geforce_dma_write64 s o a v).
Proof.
  unfold geforce_dma_write64, geforce_physical_write64.
  destruct (nonzero _); [auto with frame | apply frame_vram_write64].
Qed.

Lemma frame_update_irq s : dispatch_frame s (geforce_update_irq s).
Proof. unfold geforce_update_irq. auto with frame. Qed.

(** Reading a channel back after [put_channel]. *)
Lemma get_put_channel s chid c (j : Z) :
  get_channel (put_channel chid c s) j
  = if decide (Z.to_nat chid = Z.to_nat j /\ (Z.to_nat chid < length (channels s))%nat)
    then c else get_channel s j.
Proof. unfold get_channel, put_channel. simpl. apply list_lookup_total_insert. Qed.

Lemma get_put_channel_same s chid c :
  valid_chid s chid -> get_channel (put_channel chid c s) chid = c.
Proof.
  intros [_ Hv]. rewrite get_put_channel. destruct (decide _) as [|Hn]; [reflexivity|].
  exfalso. apply Hn. split; [reflexivity | exact Hv].
Qed.

Lemma get_put_subch c sc x (j : Z) :
  get_subch (put_subch sc x c) j
  = if decide (Z.to_nat sc = Z.to_nat j /\ (Z.to_nat sc < length (schs c))%nat)
    then x else get_subch c j.
Proof. unfold get_subch, put_subch. simpl. apply list_lookup_total_insert. Qed.

Lemma frame_put_channel s chid c :
  pull_state c = pull_state (get_channel s chid) -> dispatch_frame s (put_channel chid c s).
Proof.
  intros Hc. unfold dispatch_frame. repeat split.
  - unfold put_channel. simpl. apply length_insert.
  - intros j. rewrite get_put_channel. destruct (decide _) as [[E _]|_]; [|reflexivity].
    rewrite Hc. unfold get_channel. now rewrite E.
Qed.

Lemma pull_state_put_subch c sc x : pull_state (put_subch sc x c) = pull_state c.
Proof. reflexivity. Qed.

Lemma pull_state_set_class_regs c r : pull_state (set_class_regs r c) = pull_state c.
Proof. reflexivity. Qed.

Lemma pull_state_set_notify_pending c b : pull_state (set_notify_pending b c) = pull_state c.
Proof. reflexivity. Qed.

Lemma pull_state_set_notify c p b :
  pull_state (set_notify_type p (set_notify_pending b c)) = pull_state c.
Proof. reflexivity. Qed.

Lemma frame_execute_class s chid sc cls method param :
  dispatch_frame s (execute_class s chid sc cls method param).
Proof.
  unfold execute_class. destruct (class_of_id _); [|auto with frame].
  destruct (geforce_execute_class _ _ _ _ _ _ _) as [[vm sm] regs].
  eapply dispatch_frame_trans; [|apply frame_put_channel; apply pull_state_set_class_regs].
  eapply dispatch_frame_trans; [apply frame_set_vram|apply frame_set_sysmem].
Qed.

Lemma frame_execute_notify s chid sc : dispatch_frame s (execute_notify s chid sc).
Proof.
  unfold execute_notify. destruct (notify_pending _); [|auto with frame].
  set (s1 := put_channel chid _ s).
  assert (F1 : dispatch_frame s s1)
    by (apply frame_put_channel; apply pull_state_set_notify_pending).
  set (s2 := if negb _ then _ else s1).
  assert (F2 : dispatch_frame s s2).
  { subst s2. destruct (negb _); [|exact F1].
    eapply dispatch_frame_trans; [|apply frame_dma_write32].
    eapply dispatch_frame_trans; [|apply frame_dma_write32].
    eapply dispatch_frame_trans; [exact F1|apply frame_dma_write64]. }
  destruct (nonzero _); [|exact F2].
  eapply dispatch_frame_trans; [|apply frame_set_graph_notify].
  eapply dispatch_frame_trans; [|apply frame_set_graph_nsource].
  eapply dispatch_frame_trans; [|apply frame_update_irq].
  eapply dispatch_frame_trans; [exact F2|apply frame_set_graph_intr].
Qed.

Lemma frame_bind_save_notifier s chid sc : dispatch_frame s (bind_save_notifier s chid sc).
Proof.
  unfold bind_save_notifier. destruct (_ =? _); [apply frame_ramin_write32 | auto with frame].
Qed.

Lemma frame_bind_load_notifier s chid sc : dispatch_frame s (bind_load_notifier s chid sc).
Proof. unfold bind_load_notifier. apply frame_put_channel. apply pull_state_put_subch. Qed.

Lemma frame_software_method_push s sc method param :
  dispatch_frame s (software_method_push s sc method param).
Proof.
  unfold software_method_push.
  match goal with |- dispatch_frame _ (if _ then set_fifo_cache1_put 0 ?x else _) =>
    assert (F : dispatch_frame s x) end.
  { eapply dispatch_frame_trans; [|apply frame_set_put].
    eapply dispatch_frame_trans; [|apply frame_set_data].
    eapply dispatch_frame_trans; [|apply frame_set_method].
    eapply dispatch_frame_trans; [|apply frame_set_pull0].
    eapply dispatch_frame_trans; [|apply frame_update_irq].
    apply frame_set_fifo_intr. }
  destruct (_ =? _); [|exact F].
  eapply dispatch_frame_trans; [exact F|apply frame_set_put].
Qed.

Lemma frame_execute_method pfuel s chid sc method param s' sw p' :
  execute_method pfuel s chid sc method param = Some (s', sw, p') -> dispatch_frame s s'.
Proof.
  unfold execute_method. intros E.
  destruct (method =? 0).
  { pose proof (frame_bind_save_notifier s chid sc) as F0.
    set (s0 := bind_save_notifier s chid sc) in *.
    destruct (geforce_ramht_lookup _ _ _ _ _ _) as [[obj eng]|]; [|discriminate].
    match type of E with context [put_channel chid ?c s0] =>
      assert (F1 : dispatch_frame s (put_channel chid c s0))
        by (eapply dispatch_frame_trans;
            [exact F0|apply frame_put_channel; apply pull_state_put_subch])
    end.
    destruct (engine _ =? 1).
    - injection E as <- _ _. eapply dispatch_frame_trans; [exact F1|].
      apply frame_bind_load_notifier.
    - destruct (engine _ =? 0); injection E as <- _ _; exact F1. }
  destruct (method =? 20).
  { injection E as <- _ _. auto with frame. }
  destruct (64 <=? method); [|injection E as <- _ _; auto with frame].
  destruct (engine _ =? 1).
  - destruct (if (96 <=? method) && (method <? 128) then _ else _) as [[p q]|]; [|discriminate].
    injection E as <- _ _.
    match goal with |- context [execute_notify ?x chid sc] =>
      assert (F2 : dispatch_frame s (execute_notify x chid sc))
        by (eapply dispatch_frame_trans; [apply frame_execute_class|apply frame_execute_notify])
    end.
    destruct (method =? 65).
    + eapply dispatch_frame_trans; [exact F2|]. apply frame_put_channel.
      apply pull_state_set_notify.
    + destruct (method =? 96); [|exact F2].
      eapply dispatch_frame_trans; [exact F2|]. apply frame_put_channel.
      apply pull_state_put_subch.
  - destruct (engine _ =? 0); injection E as <- _ _; auto with frame.
Qed.

(** [geforce_execute_command] always returns [true]; it appends one entry
    to the dispatch history and leaves the rest of the frame. *)
Lemma execute_command_frame pfuel s chid sc method param s' ok :
  geforce_execute_command pfuel s chid sc method param = Some (s', ok) ->
  ok = true
  /\ dispatch_frame (set_dispatch_log (dispatch_log s ++ [(chid, sc, method, param)]) s) s'.
Proof.
  unfold geforce_execute_command. intros E.
  destruct (execute_method _ _ _ _ _ _) as [[[s1 sw] p1]|] eqn:Em; [|discriminate].
  injection E as <- <-. split; [reflexivity|].
  apply frame_execute_method in Em.
  destruct sw; [|exact Em].
  eapply dispatch_frame_trans; [exact Em|apply frame_software_method_push].
Qed.

End Frame.

Lemma u32_add_ne x d : 0 <= x < 2 ^ 32 -> 0 < d < 2 ^ 32 -> u32 (x + d) <> x.
Proof.
  intros Hx Hd. unfold u32. destruct (Z_lt_ge_dec (x + d) (2 ^ 32)).
  - rewrite Z.mod_small by lia. lia.
  - replace (x + d) with ((x + d - 2 ^ 32) + 1 * 2 ^ 32) by lia.
    rewrite Z_mod_plus_full, Z.mod_small by lia. lia.
Qed.

Section Fifo.
Context {ClassRegs : Type} `{Inhabited ClassRegs} {ops : ClassOps ClassRegs}.
Implicit Types s : GeForceState ClassRegs.

(** A method that is neither a bind nor an indirect method needs no
    handle lookup, so it is executed whatever the lookup fuel. *)
Lemma execute_command_total pfuel s chid sc method param :
  method <> 0 -> ~ (0x60 <= method < 0x80) ->
  exists s', geforce_execute_command pfuel s chid sc method param = Some (s', true).
Proof.
  intros Hm Hi. unfold geforce_execute_command, execute_method.
  destruct (Z.eqb_spec method 0) as [|_]; [contradiction|].
  destruct (method =? 20); [eexists; reflexivity|].
  destruct (64 <=? method); [|eexists; reflexivity].
  destruct (engine _ =? 1).
  - assert ((96 <=? method) && (method <? 128) = false) as ->.
    { apply andb_false_iff. destruct (Z.leb_spec 96 method); [right|left; reflexivity].
      apply Z.ltb_ge. lia. }
    eexists; reflexivity.
  - destruct (engine _ =? 0); eexists; reflexivity.
Qed.

(** An iteration that dispatches a parameter. *)
Lemma fifo_step_dispatch pfuel s chid s' brk :
  valid_chid s chid -> mcnt (dma_state (get_channel s chid)) <> 0 ->
  fifo_step pfuel s chid = Some (s', brk) ->
  let st := dma_state (get_channel s chid) in
  brk = false
  /\ fifo_cache1_dma_get s' = u32 (fifo_cache1_dma_get s + 4)
  /\ fifo_cache1_dma_put s' = fifo_cache1_dma_put s
  /\ dispatch_log s' = dispatch_log s ++ [(chid, subc st, mthd st, fifo_fetch s)]
  /\ dma_state (get_channel s' chid)
     = set_mcnt (u32 (mcnt st - 1)) (if negb (ni st) then set_mthd (u32 (mthd st + 1)) st else st)
  /\ valid_chid s' chid.
Proof.
  intros Hv Hm E. unfold fifo_step in E. cbn [get_channel] in E.
  change (get_channel (set_fifo_cache1_dma_get (u32 (fifo_cache1_dma_get s + 4)) s) chid)
    with (get_channel s chid) in E.
  assert (nonzero (mcnt (dma_state (get_channel s chid))) = true) as Hnz by now apply nonzero_true.
  rewrite Hnz in E.
  destruct (geforce_execute_command _ _ _ _ _ _) as [[s1 ok]|] eqn:Ex; [|discriminate].
  apply execute_command_frame in Ex. destruct Ex as [-> F].
  injection E as <- <-.
  destruct F as (_ & _ & _ & _ & _ & _ & _ & _ & Fput & Fget & _ & Flog & Flen & Fch).
  assert (Hv1 : valid_chid s1 chid).
  { destruct Hv as [Hv0 Hv1]. split; [exact Hv0|]. rewrite Flen. exact Hv1. }
  specialize (Fch chid). unfold pull_state in Fch. injection Fch as Fds _ _.
  change (dma_state (get_channel (set_dispatch_log _ _) chid))
    with (dma_state (get_channel s chid)) in Fds.
  split; [reflexivity|]. split; [exact Fget|]. split; [exact Fput|]. split; [exact Flog|].
  split.
  - rewrite get_put_channel_same by exact Hv1. cbn [dma_state set_dma_state]. rewrite Fds.
    destruct (ni _); reflexivity.
  - destruct Hv1 as [Hv0 Hv1]. split; [exact Hv0|].
    unfold put_channel. cbn [channels set_channels]. now rewrite length_insert.
Qed.

(** An iteration that parses a header word. *)
Lemma fifo_step_header pfuel s chid :
  mcnt (dma_state (get_channel s chid)) = 0 ->
  fifo_step pfuel s chid
  = Some (fifo_parse_header (set_fifo_cache1_dma_get (u32 (fifo_cache1_dma_get s + 4)) s)
            chid (fifo_fetch s), false).
Proof.
  intros Hm. unfold fifo_step.
  change (get_channel (set_fifo_cache1_dma_get (u32 (fifo_cache1_dma_get s + 4)) s) chid)
    with (get_channel s chid).
  rewrite Hm. reflexivity.
Qed.

(** No iteration leaves the loop through [break]. *)
Lemma fifo_step_never_breaks pfuel s chid s' brk :
  fifo_step pfuel s chid = Some (s', brk) -> brk = false.
Proof.
  unfold fifo_step. intros E. destruct (nonzero _).
  - destruct (geforce_execute_command _ _ _ _ _ _) as [[s1 ok]|] eqn:Ex; [|discriminate].
    apply execute_command_frame in Ex. destruct Ex as [-> _]. now injection E as _ <-.
  - now injection E as _ <-.
Qed.

(** [fifo_cache1_dma_put] is not written by the loop body. *)
Lemma fifo_parse_header_put s chid word :
  fifo_cache1_dma_put (fifo_parse_header s chid word) = fifo_cache1_dma_put s.
Proof.
  unfold fifo_parse_header.
  repeat match goal with |- context [if ?b then _ else _] => destruct b end; reflexivity.
Qed.

Lemma fifo_step_put pfuel s chid s' brk :
  fifo_step pfuel s chid = Some (s', brk) -> fifo_cache1_dma_put s' = fifo_cache1_dma_put s.
Proof.
  unfold fifo_step. intros E. destruct (nonzero _).
  - destruct (geforce_execute_command _ _ _ _ _ _) as [[s1 ok]|] eqn:Ex; [|discriminate].
    apply execute_command_frame in Ex.
    destruct Ex as [-> (_ & _ & _ & _ & _ & _ & _ & _ & Fput & _)].
    injection E as <- _. exact Fput.
  - injection E as <- _. now rewrite fifo_parse_header_put.
Qed.

(** An iteration that keeps the cursor advances it by one word. *)
Lemma fifo_step_keeps_cursor pfuel s chid s' brk :
  fifo_keeps_cursor s chid = true ->
  fifo_step pfuel s chid = Some (s', brk) ->
  fifo_cache1_dma_get s' = u32 (fifo_cache1_dma_get s + 4).
Proof.
  unfold fifo_keeps_cursor, fifo_step. intros K E.
  change (get_channel (set_fifo_cache1_dma_get (u32 (fifo_cache1_dma_get s + 4)) s) chid)
    with (get_channel s chid) in E.
  destruct (nonzero _).
  - destruct (geforce_execute_command _ _ _ _ _ _) as [[s1 ok]|] eqn:Ex; [|discriminate].
    apply execute_command_frame in Ex.
    destruct Ex as [-> (_ & _ & _ & _ & _ & _ & _ & _ & _ & Fget & _)].
    injection E as <- _. exact Fget.
  - injection E as <- _. simpl in K. apply negb_true_iff in K.
    apply orb_false_iff in K. destruct K as [K K4].
    apply orb_false_iff in K. destruct K as [K K3].
    apply orb_false_iff in K. destruct K as [K1 K2].
    unfold fifo_parse_header.
    change (get_channel (set_fifo_cache1_dma_get (u32 (fifo_cache1_dma_get s + 4)) s) chid)
      with (get_channel s chid).
    rewrite K1, K2.
    destruct (Z.land (fifo_fetch s) 3 =? 2).
    + simpl in K3. apply negb_false_iff in K3. rewrite K3. reflexivity.
    + destruct (fifo_fetch s =? 131072).
      * simpl in K4. rewrite K4. reflexivity.
      * destruct (_ =? 0); reflexivity.
Qed.

(** The loop drains a ring segment of [n] words whose iterations all
    keep the cursor, in exactly [n] iterations. *)
Lemma fifo_loop_straight pfuel chid (n : nat) : forall s,
  0 <= fifo_cache1_dma_get s < 2 ^ 32 -> 4 * Z.of_nat n < 2 ^ 32 ->
  fifo_cache1_dma_put s = u32 (fifo_cache1_dma_get s + 4 * Z.of_nat n) ->
  fifo_straight pfuel n s chid = true ->
  exists s', fifo_iter pfuel n s chid = Some s'
    /\ fifo_cache1_dma_get s' = fifo_cache1_dma_put s
    /\ fifo_cache1_dma_put s' = fifo_cache1_dma_put s
    /\ forall fuel, (n < fuel)%nat -> fifo_loop pfuel fuel s chid = Some s'.
Proof.
  induction n as [|n IH]; intros s Hget Hn Hput Hst.
  - rewrite Z.add_0_r, u32_small in Hput by lia.
    exists s. repeat split; try congruence.
    intros fuel Hf. destruct fuel as [|fuel]; [lia|]. simpl.
    rewrite <- Hput, Z.eqb_refl. reflexivity.
  - assert (Hne : fifo_cache1_dma_get s <> fifo_cache1_dma_put s).
    { rewrite Hput. intros E. symmetry in E. revert E. apply u32_add_ne; lia. }
    simpl in Hst. apply andb_true_iff in Hst. destruct Hst as [K Hst].
    destruct (fifo_step pfuel s chid) as [[s1 brk]|] eqn:Es; [|discriminate].
    pose proof (fifo_step_never_breaks _ _ _ _ _ Es) as ->.
    pose proof (fifo_step_put _ _ _ _ _ Es) as Hput1.
    pose proof (fifo_step_keeps_cursor _ _ _ _ _ K Es) as Hget1.
    destruct (IH s1) as (s' & Hit & Hg & Hp & Hloop).
    + rewrite Hget1. apply u32_range.
    + lia.
    + rewrite Hput1, Hput, Hget1, u32_add_l. f_equal. lia.
    + exact Hst.
    + exists s'. split; [|split; [|split]].
      * simpl. apply Z.eqb_neq in Hne. rewrite Hne, Es. exact Hit.
      * congruence.
      * congruence.
      * intros fuel Hf. destruct fuel as [|fuel]; [lia|]. simpl.
        apply Z.eqb_neq in Hne. rewrite Hne, Es. apply Hloop. lia.
Qed.

End Fifo.

Section Claims.
Context {ClassRegs : Type} `{Inhabited ClassRegs} {ops : ClassOps ClassRegs}.
Implicit Types s : GeForceState ClassRegs.

Lemma execute_command_software pfuel s chid sc method param :
  0x40 <= method -> engine (get_subch (get_channel s chid) sc) = 0 ->
  geforce_execute_command pfuel s chid sc method param
  = Some (software_method_push
            (set_dispatch_log (dispatch_log s ++ [(chid, sc, method, param)]) s)
            sc method param, true).
Proof.
  intros Hm Heng. unfold geforce_execute_command, execute_method.
  destruct (Z.eqb_spec method 0) as [E|_]; [lia|].
  destruct (Z.eqb_spec method 20) as [E|_]; [lia|].
  destruct (Z.leb_spec 64 method) as [_|E]; [|lia].
  change (get_channel (set_dispatch_log _ s) chid) with (get_channel s chid).
  rewrite Heng. reflexivity.
Qed.

Lemma get_channel_set_dma_get s v chid :
  get_channel (set_fifo_cache1_dma_get v s) chid = get_channel s chid.
Proof. reflexivity. Qed.

Lemma fifo_step_software pfuel s chid :
  let st := dma_state (get_channel s chid) in
  mcnt st <> 0 -> 0x40 <= mthd st ->
  engine (get_subch (get_channel s chid) (subc st)) = 0 ->
  exists c,
    fifo_step pfuel s chid
    = Some (put_channel chid c
              (software_method_push
                 (set_dispatch_log
                    (dispatch_log s ++ [(chid, subc st, mthd st, fifo_fetch s)])
                    (set_fifo_cache1_dma_get (u32 (fifo_cache1_dma_get s + 4)) s))
                 (subc st) (mthd st) (fifo_fetch s)), false).
Proof.
  intros st Hm Hmethod Heng. unfold fifo_step.
  rewrite get_channel_set_dma_get. fold st.
  assert (nonzero (mcnt st) = true) as -> by now apply nonzero_true.
  rewrite execute_command_software by (rewrite ?get_channel_set_dma_get; assumption).
  eexists. reflexivity.
Qed.
(** The software-method block raises FIFO interrupt source bit 0, stores
    one (method, param) pair at index [put / 4] and moves the cursor. *)
Lemma software_method_push_spec s sc method param :
  let s' := software_method_push s sc method param in
  fifo_intr s' = Z.lor (fifo_intr s) 1
  /\ fifo_cache1_method s'
     = <[Z.to_nat (fifo_cache1_put s / 4) :=
           Z.lor (u32 (Z.shiftl method 2)) (u32 (Z.shiftl sc 13))]> (fifo_cache1_method s)
  /\ fifo_cache1_data s'
     = <[Z.to_nat (fifo_cache1_put s / 4) := param]> (fifo_cache1_data s)
  /\ fifo_cache1_put s'
     = (if u32 (fifo_cache1_put s + 4) =? GEFORCE_CACHE1_SIZE * 4
        then 0 else u32 (fifo_cache1_put s + 4)).
Proof.
  unfold software_method_push. cbn -[Z.mul Z.div Z.to_nat u32 Z.shiftl Z.lor].
  destruct (u32 (fifo_cache1_put s + 4) =? GEFORCE_CACHE1_SIZE * 4); repeat split.
Qed.

Lemma put_channel_intr s chid c : fifo_intr (put_channel chid c s) = fifo_intr s.
Proof. reflexivity. Qed.

Lemma put_channel_method s chid c :
  fifo_cache1_method (put_channel chid c s) = fifo_cache1_method s.
Proof. reflexivity. Qed.

Lemma put_channel_data s chid c : fifo_cache1_data (put_channel chid c s) = fifo_cache1_data s.
Proof. reflexivity. Qed.

(** The state a dispatched parameter is executed in differs from the
    state of the iteration only in the cursor and the history. *)
Lemma pushed_queue_state s l v :
  let t := set_dispatch_log l (set_fifo_cache1_dma_get v s) in
  fifo_intr t = fifo_intr s /\ fifo_cache1_put t = fifo_cache1_put s
  /\ fifo_cache1_method t = fifo_cache1_method s /\ fifo_cache1_data t = fifo_cache1_data s.
Proof. repeat split. Qed.

(** C1 (amended). When a dispatched method of the range [>= 0x40] finds
    engine id 0 on its subchannel and the put cursor of the software-method
    queue lies inside the queue, [geforce_execute_command] stores the
    pair in the slot of the two 64-entry arrays the cursor names, raises
    FIFO interrupt source bit 0 and returns [true]: the iteration leaves
    the get cursor one word past the parameter, decrements the pending
    count and does not leave the loop.  No iteration of the loop ever
    takes the rewind-and-break branch. *)
Theorem fifo_software_method_continues pfuel s chid :
  let st := dma_state (get_channel s chid) in
  let slot := Z.to_nat (fifo_cache1_put s / 4) in
  let word := Z.lor (u32 (Z.shiftl (mthd st) 2)) (u32 (Z.shiftl (subc st) 13)) in
  valid_chid s chid -> mcnt st <> 0 -> 0x40 <= mthd st ->
  engine (get_subch (get_channel s chid) (subc st)) = 0 ->
  0 <= fifo_cache1_put s < GEFORCE_CACHE1_SIZE * 4 ->
  length (fifo_cache1_method s) = Z.to_nat GEFORCE_CACHE1_SIZE ->
  length (fifo_cache1_data s) = Z.to_nat GEFORCE_CACHE1_SIZE ->
  (exists s',
      fifo_step pfuel s chid = Some (s', false)
      /\ fifo_cache1_dma_get s' = u32 (fifo_cache1_dma_get s + 4)
      /\ mcnt (dma_state (get_channel s' chid)) = u32 (mcnt st - 1)
      /\ fifo_intr s' = Z.lor (fifo_intr s) 1
      /\ (slot < Z.to_nat GEFORCE_CACHE1_SIZE)%nat
      /\ fifo_cache1_method s' = <[slot := word]> (fifo_cache1_method s)
      /\ fifo_cache1_data s' = <[slot := fifo_fetch s]> (fifo_cache1_data s)
      /\ fifo_cache1_method s' !! slot = Some word
      /\ fifo_cache1_data s' !! slot = Some (fifo_fetch s)
      /\ length (fifo_cache1_method s') = Z.to_nat GEFORCE_CACHE1_SIZE
      /\ length (fifo_cache1_data s') = Z.to_nat GEFORCE_CACHE1_SIZE)
  /\ (forall pfuel' t chid' t' brk, fifo_step pfuel' t chid' = Some (t', brk) -> brk = false)
  /\ (forall pfuel' t chid' sc method param r,
        geforce_execute_command pfuel' t chid' sc method param = Some r -> snd r = true).
Proof.
  intros st slot word Hv Hm Hmethod Heng Hput Hlm Hld. split; [|split].
  - destruct (fifo_step_software pfuel s chid Hm Hmethod Heng) as (c & Es).
    fold st in Es. eexists. split; [exact Es|].
    destruct (fifo_step_dispatch pfuel s chid _ _ Hv Hm Es) as (_ & Hget & _ & _ & Hds & _).
    split; [exact Hget|]. split.
    { rewrite Hds. fold st. destruct (ni st); reflexivity. }
    rewrite put_channel_intr, put_channel_method, put_channel_data.
    match goal with |- context [software_method_push ?x _ _ _] =>
      destruct (software_method_push_spec x (subc st) (mthd st) (fifo_fetch s))
        as (Hintr & Hmq & Hdq & _)
    end.
    match goal with |- context [software_method_push (set_dispatch_log ?l (set_fifo_cache1_dma_get ?v s))] =>
      destruct (pushed_queue_state s l v) as (Q1 & Q2 & Q3 & Q4)
    end.
    rewrite Hintr, Hmq, Hdq, Q1, Q2, Q3, Q4. fold slot. fold word.
    assert (Hslot : (slot < Z.to_nat GEFORCE_CACHE1_SIZE)%nat).
    { unfold slot, GEFORCE_CACHE1_SIZE in *.
      assert (fifo_cache1_put s / 4 < 64) by (apply Z.div_lt_upper_bound; lia).
      assert (0 <= fifo_cache1_put s / 4) by (apply Z.div_pos; lia).
      lia. }
    split; [reflexivity|]. split; [exact Hslot|].
    split; [reflexivity|]. split; [reflexivity|].
    split; [apply list_lookup_insert_eq; rewrite Hlm; exact Hslot|].
    split; [apply list_lookup_insert_eq; rewrite Hld; exact Hslot|].
    rewrite !length_insert. split; assumption.
  - intros pfuel' t chid' t' brk. apply fifo_step_never_breaks.
  - intros pfuel' t chid' sc method param [t' ok] Ex. now apply execute_command_frame in Ex.
Qed.


(** C2 (amended). [geforce_fifo_process] returns, after exactly [n]
    iterations of its loop and with the get cursor equal to the put
    cursor, when at loop entry the put cursor lies [n] words ahead of the
    get cursor (modulo 2^32) and each of the [n] iterations keeps the
    cursor: it dispatches a parameter, or fetches a word that is not a
    jump, an old jump, a call with no subroutine active or a return with
    one active.  The class handlers and the handle lookups of binds on the
    way are assumed to return. *)
Theorem fifo_process_drains_straight_ring pfuel (n : nat) s chid :
  let s1 := fifo_context_switch s chid in
  0 <= fifo_cache1_dma_get s1 < 2 ^ 32 -> 4 * Z.of_nat n < 2 ^ 32 ->
  fifo_cache1_dma_put s1 = u32 (fifo_cache1_dma_get s1 + 4 * Z.of_nat n) ->
  fifo_straight pfuel n s1 chid = true ->
  exists s',
    (forall fuel, (n < fuel)%nat -> geforce_fifo_process pfuel fuel s chid = Some s')
    /\ (fifo_idle s chid = false ->
        fifo_iter pfuel n s1 chid = Some s'
        /\ fifo_cache1_dma_get s' = fifo_cache1_dma_put s'
        /\ fifo_cache1_dma_get s' = u32 (fifo_cache1_dma_get s1 + 4 * Z.of_nat n)).
Proof.
  intros s1 Hget Hn Hput Hst. unfold geforce_fifo_process. fold s1.
  destruct (fifo_idle s chid).
  - exists s. split; [reflexivity | discriminate].
  - destruct (fifo_loop_straight pfuel chid n s1 Hget Hn Hput Hst) as (s' & Hit & Hg & Hp & Hl).
    exists s'. split; [exact Hl|]. intros _. repeat split; congruence.
Qed.

End Claims.

Section Bind.
Context {ClassRegs : Type} `{Inhabited ClassRegs} {ops : ClassOps ClassRegs}.
Implicit Types s : GeForceState ClassRegs.

(** The handle lookup does not read the dispatch history. *)
Lemma ramht_probe_log fuel : forall s l handle chid hash it,
  ramht_probe fuel (set_dispatch_log l s) handle chid hash it
  = ramht_probe fuel s handle chid hash it.
Proof.
  induction fuel as [|fuel IH]; intros s l handle chid hash it; [reflexivity|].
  cbn [ramht_probe]. rewrite IH. reflexivity.
Qed.

Lemma ramht_lookup_log fuel s l handle chid obj eng :
  geforce_ramht_lookup fuel (set_dispatch_log l s) handle chid obj eng
  = geforce_ramht_lookup fuel s handle chid obj eng.
Proof.
  unfold geforce_ramht_lookup.
  change (ramht_hash fuel (set_dispatch_log l s) handle chid) with (ramht_hash fuel s handle chid).
  destruct (ramht_hash fuel s handle chid) as [hash|]; [|reflexivity].
  rewrite ramht_probe_log. reflexivity.
Qed.

Lemma bind_save_notifier_log s l chid sc :
  bind_save_notifier (set_dispatch_log l s) chid sc
  = set_dispatch_log l (bind_save_notifier s chid sc).
Proof.
  unfold bind_save_notifier.
  change (get_channel (set_dispatch_log l s) chid) with (get_channel s chid).
  destruct (engine _ =? 1); [|reflexivity].
  unfold geforce_ramin_write32, geforce_vram_write32.
  change (memsize (set_dispatch_log l s)) with (memsize s).
  change (ramin_flip (set_dispatch_log l s)) with (ramin_flip s).
  destruct (_ <? memsize s); reflexivity.
Qed.

Lemma bind_save_notifier_channels s chid sc :
  channels (bind_save_notifier s chid sc) = channels s.
Proof.
  unfold bind_save_notifier. destruct (engine _ =? 1); [|reflexivity].
  unfold geforce_ramin_write32, geforce_vram_write32. destruct (_ <? _); reflexivity.
Qed.

Lemma software_method_push_channels s sc method param :
  channels (software_method_push s sc method param) = channels s.
Proof. unfold software_method_push. destruct (_ =? _); reflexivity. Qed.

(** Writing back a subchannel with the same object and engine keeps the
    binding, whether or not the indices are inside the arrays. *)
Lemma binding_put_subch s chid sc x :
  object x = object (get_subch (get_channel s chid) sc) ->
  engine x = engine (get_subch (get_channel s chid) sc) ->
  let s' := put_channel chid (put_subch sc x (get_channel s chid)) s in
  object (get_subch (get_channel s' chid) sc) = object (get_subch (get_channel s chid) sc)
  /\ engine (get_subch (get_channel s' chid) sc) = engine (get_subch (get_channel s chid) sc).
Proof.
  intros Ho He s'. unfold s'. rewrite get_put_channel.
  destruct (decide _) as [_|_]; [|split; reflexivity].
  rewrite get_put_subch. destruct (decide _) as [_|_]; [|split; reflexivity].
  split; assumption.
Qed.


End Bind.

Section Dma.
Context {ClassRegs : Type}.
Implicit Types s : GeForceState ClassRegs.

(** C3 (amended). For a descriptor whose linear flag is clear the
    resolved address is the document's page-table formula taken at
    [offset + adjust] (modulo 2^32), where [adjust] is the top twelve bits
    of the first descriptor word; the page table is the array of 32-bit
    entries after the 8-byte header.  With [adjust = 0] it is the formula
    at [offset], and page-table entry 0 = 0x5000 with offset 0x0FA0
    resolves to 0x5FA0. *)
Theorem dma_paged_address s obj offset :
  let flags := geforce_ramin_read32 s obj in
  nonzero (Z.land flags 0x00002000) = false ->
  geforce_dma_addr_abs s flags obj offset
  = spec_paged_address s obj (u32 (offset + Z.shiftr flags 20))
  /\ geforce_dma_read32 s obj offset
     = (if nonzero (Z.land flags 0x00020000)
        then geforce_physical_read32 s (spec_paged_address s obj (u32 (offset + Z.shiftr flags 20)))
        else geforce_vram_read32 s (spec_paged_address s obj (u32 (offset + Z.shiftr flags 20))))
  /\ (Z.shiftr flags 20 = 0 -> 0 <= offset < 2 ^ 32 ->
      geforce_dma_addr_abs s flags obj offset = spec_paged_address s obj offset)
  /\ (Z.shiftr flags 20 = 0 -> offset = 0x0FA0 ->
      Z.land (geforce_ramin_read32 s (u32 (obj + 8))) 0xFFFFF000 = 0x5000 ->
      geforce_dma_addr_abs s flags obj offset = 0x5FA0).
Proof.
  intros flags Hf.
  assert (E : geforce_dma_addr_abs s flags obj offset
              = spec_paged_address s obj (u32 (offset + Z.shiftr flags 20))).
  { unfold geforce_dma_addr_abs. rewrite Hf.
    unfold geforce_dma_pt_lookup, spec_paged_address. fold flags.
    rewrite u32_add_l, u32_add_r. do 3 f_equal. f_equal. lia. }
  split; [exact E|]. split; [|split].
  - unfold geforce_dma_read32. fold flags. rewrite E. reflexivity.
  - intros Ha Ho. rewrite E, Ha, Z.add_0_r, u32_small by lia. reflexivity.
  - intros Ha -> Hp. rewrite E, Ha. unfold spec_paged_address.
    change (u32 (4000 + 0)) with 4000. change (Z.shiftr 4000 12) with 0.
    replace (obj + 8 + 4 * 0) with (obj + 8) by lia. rewrite Hp. reflexivity.
Qed.

(** C7 (amended). For a descriptor whose linear flag is set the resolved
    address is [base + adjust + offset] modulo 2^32, where [adjust] is the
    top twelve bits of the first descriptor word and [base] is the word at
    byte offset 8 of the descriptor with its low twelve bits cleared; base
    0x2000, adjust 0x10 and offset 0x34 resolve to 0x2044. *)
Theorem dma_linear_address s obj offset :
  let flags := geforce_ramin_read32 s obj in
  nonzero (Z.land flags 0x00002000) = true ->
  geforce_dma_addr_abs s flags obj offset
  = u32 (Z.land (geforce_ramin_read32 s (u32 (obj + 8))) 0xFFFFF000
         + Z.shiftr flags 20 + offset)
  /\ (Z.land (geforce_ramin_read32 s (u32 (obj + 8))) 0xFFFFF000 = 0x2000 ->
      Z.shiftr flags 20 = 0x10 -> offset = 0x34 ->
      geforce_dma_addr_abs s flags obj offset = 0x2044).
Proof.
  intros flags Hf.
  assert (E : geforce_dma_addr_abs s flags obj offset
              = u32 (Z.land (geforce_ramin_read32 s (u32 (obj + 8))) 0xFFFFF000
                     + Z.shiftr flags 20 + offset)).
  { unfold geforce_dma_addr_abs. rewrite Hf. unfold geforce_dma_lin_lookup. fold flags.
    now rewrite u32_add_l. }
  split; [exact E|]. intros Hb Ha ->. rewrite E, Hb, Ha. reflexivity.
Qed.

End Dma.

Section Cache1.
Context {ClassRegs : Type} `{Inhabited ClassRegs} {ops : ClassOps ClassRegs}.
Implicit Types s : GeForceState ClassRegs.

(** A software-method push keeps a cursor that is a multiple of 4 below
    [GEFORCE_CACHE1_SIZE * 4] in that range, and stores its pair inside
    the two arrays. *)
Lemma software_method_push_in_queue s sc method param :
  fifo_cache1_put s mod 4 = 0 -> 0 <= fifo_cache1_put s < GEFORCE_CACHE1_SIZE * 4 ->
  let s' := software_method_push s sc method param in
  fifo_cache1_put s' mod 4 = 0
  /\ 0 <= fifo_cache1_put s' < GEFORCE_CACHE1_SIZE * 4
  /\ (Z.to_nat (fifo_cache1_put s / 4) < Z.to_nat GEFORCE_CACHE1_SIZE)%nat.
Proof.
  intros Hm Hr s'. destruct (software_method_push_spec s sc method param) as (_ & _ & _ & Hp).
  fold s' in Hp. rewrite Hp. unfold GEFORCE_CACHE1_SIZE in *.
  change (64 * 4) with 256 in *.
  rewrite u32_small by lia.
  assert (Hq : fifo_cache1_put s = 4 * (fifo_cache1_put s / 4)).
  { pose proof (Z_div_mod_eq_full (fifo_cache1_put s) 4). lia. }
  destruct (Z.eqb_spec (fifo_cache1_put s + 4) 256) as [E|E].
  - repeat split; lia.
  - split; [|split].
    + rewrite Hq. replace (4 * (fifo_cache1_put s / 4) + 4) with ((fifo_cache1_put s / 4 + 1) * 4)
        by lia. apply Z_mod_mult.
    + lia.
    + lia.
Qed.

(** The PFIFO_CACHE1_GET register write keeps the get cursor inside the
    queue. *)
Lemma mmio_write_cache1_get_masked s val :
  0 <= fifo_cache1_get (geforce_mmio_write_cache1_get s val) < GEFORCE_CACHE1_SIZE * 4.
Proof.
  unfold geforce_mmio_write_cache1_get, geforce_update_irq.
  cbn [fifo_cache1_get set_irq_level].
  assert (R : 0 <= Z.land (u32 val) (GEFORCE_CACHE1_SIZE * 4 - 1) < GEFORCE_CACHE1_SIZE * 4).
  { change (GEFORCE_CACHE1_SIZE * 4 - 1) with (2 ^ 8 - 1).
    change (GEFORCE_CACHE1_SIZE * 4) with (2 ^ 8). apply land_mask_range. lia. }
  destruct (negb _); exact R.
Qed.

End Cache1.

(** ** Instance memory: the address flip *)

Lemma land_lxor_distr a b m : Z.land (Z.lxor a b) m = Z.lxor (Z.land a m) (Z.land b m).
Proof.
  apply Z.bits_inj'. intros i Hi.
  rewrite Z.land_spec, !Z.lxor_spec, !Z.land_spec.
  destruct (Z.testbit a i), (Z.testbit b i), (Z.testbit m i); reflexivity.
Qed.

Lemma lxor_inj_r a b f : Z.lxor a f = Z.lxor b f -> a = b.
Proof.
  intros E. apply (f_equal (fun t => Z.lxor t f)) in E.
  now rewrite !Z.lxor_assoc, Z.lxor_nilpotent, !Z.lxor_0_r in E.
Qed.

Lemma lxor_split4 a f : a mod 4 = 0 ->
  Z.lxor a f = 4 * Z.lxor (a / 4) (f / 4) + f mod 4.
Proof.
  intros Ha.
  rewrite (Z_div_mod_eq_full (Z.lxor a f) 4) at 1. f_equal.
  - change 4 with (2 ^ 2). rewrite <- !Z.shiftr_div_pow2 by lia. now rewrite Z.shiftr_lxor.
  - change 4 with (2 ^ 2) in *. rewrite <- !Z.land_ones in * by lia.
    rewrite land_lxor_distr, Ha. apply Z.lxor_0_l.
Qed.

(** Two distinct word-aligned instance addresses stay four bytes apart
    after the flip. *)
Lemma lxor_aligned_apart a b f : a mod 4 = 0 -> b mod 4 = 0 -> a <> b ->
  Z.lxor a f + 4 <= Z.lxor b f \/ Z.lxor b f + 4 <= Z.lxor a f.
Proof.
  intros Ha Hb Hne. rewrite (lxor_split4 a f Ha), (lxor_split4 b f Hb).
  assert (Z.lxor (a / 4) (f / 4) <> Z.lxor (b / 4) (f / 4)).
  { intros E. apply lxor_inj_r in E. apply Hne.
    rewrite (Z_div_mod_eq_full a 4), (Z_div_mod_eq_full b 4). lia. }
  lia.
Qed.

Lemma u32_mod4 x : u32 x mod 4 = x mod 4.
Proof.
  unfold u32. apply Z.mod_mod_divide. exists (2 ^ 30). reflexivity.
Qed.

Section Ramfc.
Context {ClassRegs : Type}.
Implicit Types s : GeForceState ClassRegs.

Lemma ramin_read_write_same s a v :
  (u32 (Z.lxor a (ramin_flip s) + 3) <? memsize s) = true -> 0 <= v < 2 ^ 32 ->
  geforce_ramin_read32 (geforce_ramin_write32 s a v) a = v.
Proof.
  intros Hin Hv. unfold geforce_ramin_read32, geforce_ramin_write32, geforce_vram_write32.
  rewrite Hin. unfold geforce_vram_read32. cbn [ramin_flip memsize vram set_vram].
  rewrite Hin. now apply ldl_stl_same.
Qed.

Lemma ramin_read_write_other s a a' v :
  a mod 4 = 0 -> a' mod 4 = 0 -> a <> a' ->
  geforce_ramin_read32 (geforce_ramin_write32 s a v) a' = geforce_ramin_read32 s a'.
Proof.
  intros Ha Ha' Hne.
  unfold geforce_ramin_read32, geforce_ramin_write32, geforce_vram_write32.
  destruct (_ <? memsize s); [|reflexivity].
  unfold geforce_vram_read32. cbn [ramin_flip memsize vram set_vram].
  destruct (_ <? memsize s); [|reflexivity].
  apply ldl_stl_disjoint.
  destruct (lxor_aligned_apart a a' (ramin_flip s) Ha Ha' Hne); lia.
Qed.

Lemma ramfc_address_val s chid off :
  0 <= chid < 32 -> 0 <= off < 0x40 ->
  geforce_ramfc_address s chid off = ramfc_base s + chid * ramfc_stride s + off.
Proof.
  intros Hc Ho. unfold geforce_ramfc_address, ramfc_base, ramfc_stride.
  pose proof (land_mask_range (fifo_ramfc s) 12 ltac:(lia)) as Hl.
  change (2 ^ 12 - 1) with 0xFFF in Hl. change (2 ^ 12) with 4096 in Hl.
  destruct (card_type s <? 0x40); rewrite Z.shiftl_mul_pow2 by lia.
  - rewrite (u32_small (_ * 2 ^ 8)), (u32_small (chid * _)) by lia.
    rewrite (u32_small (_ + chid * _)) by lia. apply u32_small. lia.
  - rewrite (u32_small (_ * 2 ^ 16)), (u32_small (chid * _)) by lia.
    rewrite (u32_small (_ + chid * _)) by lia. apply u32_small. lia.
Qed.


Lemma ramfc_address_aligned s chid off :
  0 <= chid < 32 -> 0 <= off < 0x40 -> off mod 4 = 0 ->
  geforce_ramfc_address s chid off mod 4 = 0.
Proof.
  intros Hc Ho Hm. rewrite ramfc_address_val by assumption.
  unfold ramfc_base, ramfc_stride. apply Z.mod_divide; [lia|].
  apply Z.mod_divide in Hm; [|lia].
  destruct (card_type s <? 0x40); repeat apply Z.divide_add_r; try exact Hm.
  - apply Z.divide_mul_r. exists 64. reflexivity.
  - apply Z.divide_mul_r. exists 16. reflexivity.
  - apply Z.divide_mul_r. exists 16384. reflexivity.
  - apply Z.divide_mul_r. exists 32. reflexivity.
Qed.

Lemma ramfc_address_inj s c o c' o' :
  0 <= c < 32 -> 0 <= c' < 32 -> 0 <= o < 0x40 -> 0 <= o' < 0x40 ->
  c <> c' \/ o <> o' ->
  geforce_ramfc_address s c o <> geforce_ramfc_address s c' o'.
Proof.
  intros Hc Hc' Ho Ho' Hne. rewrite !ramfc_address_val by assumption.
  unfold ramfc_stride. destruct (card_type s <? 0x40); lia.
Qed.

Lemma vram_only_refl s : vram_only s s.
Proof. unfold vram_only. repeat split. Qed.

Lemma vram_only_trans s1 s2 s3 : vram_only s1 s2 -> vram_only s2 s3 -> vram_only s1 s3.
Proof.
  unfold vram_only. intros H12 H23.
  repeat match goal with H : _ /\ _ |- _ => destruct H as [? H] end.
  repeat split; congruence.
Qed.

Lemma vram_only_ramfc_write s c o v : vram_only s (geforce_ramfc_write32 s c o v).
Proof.
  unfold geforce_ramfc_write32, geforce_ramin_write32, geforce_vram_write32.
  destruct (_ <? _); unfold vram_only; repeat split.
Qed.

Lemma vram_only_address s s' c o :
  vram_only s s' -> geforce_ramfc_address s' c o = geforce_ramfc_address s c o.
Proof.
  intros (Hc & _ & _ & Hf & _). unfold geforce_ramfc_address. now rewrite Hc, Hf.
Qed.

Lemma vram_only_in_vram s s' c o :
  vram_only s s' -> ramfc_word_in_vram s' c o = ramfc_word_in_vram s c o.
Proof.
  intros V. unfold ramfc_word_in_vram. rewrite (vram_only_address s s' c o V).
  destruct V as (_ & Hm & Hf & _). now rewrite Hm, Hf.
Qed.

Lemma ramfc_write_read_same s c o v :
  ramfc_word_in_vram s c o = true -> 0 <= v < 2 ^ 32 ->
  geforce_ramfc_read32 (geforce_ramfc_write32 s c o v) c o = v.
Proof.
  intros Hin Hv. unfold geforce_ramfc_read32.
  rewrite (vram_only_address s _ c o (vram_only_ramfc_write s c o v)).
  unfold geforce_ramfc_write32. now apply ramin_read_write_same.
Qed.

Lemma ramfc_write_read_other s c o v c' o' :
  0 <= c < 32 -> 0 <= c' < 32 -> 0 <= o < 0x40 -> 0 <= o' < 0x40 ->
  o mod 4 = 0 -> o' mod 4 = 0 -> c <> c' \/ o <> o' ->
  geforce_ramfc_read32 (geforce_ramfc_write32 s c o v) c' o' = geforce_ramfc_read32 s c' o'.
Proof.
  intros Hc Hc' Ho Ho' Hm Hm' Hne. unfold geforce_ramfc_read32.
  rewrite (vram_only_address s _ c' o' (vram_only_ramfc_write s c o v)).
  unfold geforce_ramfc_write32. apply ramin_read_write_other.
  - now apply ramfc_address_aligned.
  - now apply ramfc_address_aligned.
  - now apply ramfc_address_inj.
Qed.

End Ramfc.

Section Switch.
Context {ClassRegs : Type} `{Inhabited ClassRegs} {ops : ClassOps ClassRegs}.
Implicit Types s : GeForceState ClassRegs.

Lemma ramfc_read_set_put s v c o :
  geforce_ramfc_read32 (set_fifo_cache1_dma_put v s) c o = geforce_ramfc_read32 s c o.
Proof. reflexivity. Qed.
Lemma ramfc_read_set_get s v c o :
  geforce_ramfc_read32 (set_fifo_cache1_dma_get v s) c o = geforce_ramfc_read32 s c o.
Proof. reflexivity. Qed.
Lemma ramfc_read_set_ref_cnt s v c o :
  geforce_ramfc_read32 (set_fifo_cache1_ref_cnt v s) c o = geforce_ramfc_read32 s c o.
Proof. reflexivity. Qed.
Lemma ramfc_read_set_instance s v c o :
  geforce_ramfc_read32 (set_fifo_cache1_dma_instance v s) c o = geforce_ramfc_read32 s c o.
Proof. reflexivity. Qed.

(** "Save old context" stores the five live registers in the record of
    the outgoing channel and touches no other record. *)
Lemma fifo_save_context_spec s A sro :
  0 <= A < 32 -> sro = 0x2C \/ sro = 0x30 -> pull_registers_u32 s ->
  ramfc_word_in_vram s A 0x0 = true -> ramfc_word_in_vram s A 0x4 = true ->
  ramfc_word_in_vram s A 0x8 = true -> ramfc_word_in_vram s A 0xC = true ->
  ramfc_word_in_vram s A sro = true ->
  let s' := fifo_save_context s A sro in
  vram_only s s'
  /\ geforce_ramfc_read32 s' A 0x0 = fifo_cache1_dma_put s
  /\ geforce_ramfc_read32 s' A 0x4 = fifo_cache1_dma_get s
  /\ geforce_ramfc_read32 s' A 0x8 = fifo_cache1_ref_cnt s
  /\ geforce_ramfc_read32 s' A 0xC = fifo_cache1_dma_instance s
  /\ geforce_ramfc_read32 s' A sro = fifo_cache1_semaphore s.
Proof.
  intros HA Hsro (Rp & Rg & Rr & Ri & Rs) I0 I4 I8 IC IS. unfold fifo_save_context.
  set (s1 := geforce_ramfc_write32 s A 0 (fifo_cache1_dma_put s)).
  set (s2 := geforce_ramfc_write32 s1 A 4 (fifo_cache1_dma_get s1)).
  set (s3 := geforce_ramfc_write32 s2 A 8 (fifo_cache1_ref_cnt s2)).
  set (s4 := geforce_ramfc_write32 s3 A 12 (fifo_cache1_dma_instance s3)).
  set (s5 := geforce_ramfc_write32 s4 A sro (fifo_cache1_semaphore s4)).
  assert (V1 : vram_only s s1) by apply vram_only_ramfc_write.
  assert (V2 : vram_only s s2)
    by (eapply vram_only_trans; [exact V1|apply vram_only_ramfc_write]).
  assert (V3 : vram_only s s3)
    by (eapply vram_only_trans; [exact V2|apply vram_only_ramfc_write]).
  assert (V4 : vram_only s s4)
    by (eapply vram_only_trans; [exact V3|apply vram_only_ramfc_write]).
  assert (V5 : vram_only s s5)
    by (eapply vram_only_trans; [exact V4|apply vram_only_ramfc_write]).
  assert (Hs : 0 <= sro < 0x40 /\ sro mod 4 = 0 /\ sro <> 0 /\ sro <> 4 /\ sro <> 8 /\ sro <> 12).
  { destruct Hsro as [-> | ->]; repeat split; lia. }
  destruct Hs as (Hs1 & Hs2 & Hs3 & Hs4 & Hs5 & Hs6).
  assert (G1 : fifo_cache1_dma_get s1 = fifo_cache1_dma_get s) by apply V1.
  assert (G2 : fifo_cache1_ref_cnt s2 = fifo_cache1_ref_cnt s) by apply V2.
  assert (G3 : fifo_cache1_dma_instance s3 = fifo_cache1_dma_instance s) by apply V3.
  assert (G4 : fifo_cache1_semaphore s4 = fifo_cache1_semaphore s) by apply V4.
  split; [exact V5|].
  split; [|split; [|split; [|split]]].
  - unfold s5, s4, s3, s2.
    rewrite !ramfc_write_read_other by (reflexivity || lia).
    apply ramfc_write_read_same; assumption.
  - unfold s5, s4, s3.
    rewrite !ramfc_write_read_other by (reflexivity || lia).
    unfold s2. rewrite G1. apply ramfc_write_read_same; [|assumption].
    now rewrite (vram_only_in_vram s s1).
  - unfold s5, s4.
    rewrite !ramfc_write_read_other by (reflexivity || lia).
    unfold s3. rewrite G2. apply ramfc_write_read_same; [|assumption].
    now rewrite (vram_only_in_vram s s2).
  - unfold s5.
    rewrite !ramfc_write_read_other by (reflexivity || lia).
    unfold s4. rewrite G3. apply ramfc_write_read_same; [|assumption].
    now rewrite (vram_only_in_vram s s3).
  - unfold s5. rewrite G4. apply ramfc_write_read_same; [|assumption].
    now rewrite (vram_only_in_vram s s4).
Qed.

(** "Save old context" of one channel leaves the records of the others. *)
Lemma fifo_save_context_other s A sro B off :
  0 <= A < 32 -> 0 <= B < 32 -> A <> B -> sro = 0x2C \/ sro = 0x30 ->
  0 <= off < 0x40 -> off mod 4 = 0 ->
  geforce_ramfc_read32 (fifo_save_context s A sro) B off = geforce_ramfc_read32 s B off.
Proof.
  intros HA HB Hne Hsro Ho Hm. unfold fifo_save_context.
  destruct Hsro as [-> | ->];
    rewrite !ramfc_write_read_other by (reflexivity || lia || (left; lia)); reflexivity.
Qed.

(** "Load new context" fills the five live registers from the record. *)
Lemma fifo_load_context_spec s B sro :
  let s' := fifo_load_context s B sro in
  pull_registers s'
  = (geforce_ramfc_read32 s B 0x0, geforce_ramfc_read32 s B 0x4, geforce_ramfc_read32 s B 0x8,
     geforce_ramfc_read32 s B 0xC, geforce_ramfc_read32 s B sro)
  /\ fifo_cache1_push1 s' = fifo_cache1_push1 s.
Proof.
  unfold fifo_load_context, pull_registers.
  cbn [fifo_cache1_dma_put fifo_cache1_dma_get fifo_cache1_ref_cnt fifo_cache1_dma_instance
       fifo_cache1_semaphore fifo_cache1_push1 set_fifo_cache1_dma_put set_fifo_cache1_dma_get
       set_fifo_cache1_ref_cnt set_fifo_cache1_dma_instance set_fifo_cache1_semaphore].
  rewrite !ramfc_read_set_instance, !ramfc_read_set_ref_cnt, !ramfc_read_set_get,
    !ramfc_read_set_put.
  split; reflexivity.
Qed.


Lemma ramfc_read_set_semaphore s v c o :
  geforce_ramfc_read32 (set_fifo_cache1_semaphore v s) c o = geforce_ramfc_read32 s c o.
Proof. reflexivity. Qed.
Lemma ramfc_read_set_push1 s v c o :
  geforce_ramfc_read32 (set_fifo_cache1_push1 v s) c o = geforce_ramfc_read32 s c o.
Proof. reflexivity. Qed.

Lemma ramfc_read_load_context s B sro c o :
  geforce_ramfc_read32 (fifo_load_context s B sro) c o = geforce_ramfc_read32 s c o.
Proof.
  unfold fifo_load_context.
  now rewrite ramfc_read_set_semaphore, ramfc_read_set_instance, ramfc_read_set_ref_cnt,
    ramfc_read_set_get, ramfc_read_set_put.
Qed.

Lemma fifo_load_context_card_type s B sro :
  card_type (fifo_load_context s B sro) = card_type s.
Proof. reflexivity. Qed.

(** The switch proper, when the requested channel is not the active one. *)
Lemma fifo_context_switch_ne s chid :
  Z.land (fifo_cache1_push1 s) 0x1F <> chid ->
  fifo_context_switch s chid
  = set_fifo_cache1_push1
      (Z.lor (Z.land (fifo_cache1_push1
                        (fifo_load_context
                           (fifo_save_context s (Z.land (fifo_cache1_push1 s) 0x1F) (ramfc_sro s))
                           chid (ramfc_sro s))) 0xFFFFFFE0) chid)
      (fifo_load_context
         (fifo_save_context s (Z.land (fifo_cache1_push1 s) 0x1F) (ramfc_sro s))
         chid (ramfc_sro s)).
Proof.
  intros Hne. unfold fifo_context_switch. apply Z.eqb_neq in Hne. rewrite Hne. reflexivity.
Qed.

Lemma active_channel_after_switch p chid :
  0 <= chid < 32 -> Z.land (Z.lor (Z.land p 0xFFFFFFE0) chid) 0x1F = chid.
Proof.
  intros Hc. rewrite Z.land_lor_distr_l, <- Z.land_assoc.
  change (Z.land 0xFFFFFFE0 0x1F) with 0. rewrite Z.land_0_r, Z.lor_0_l.
  change 0x1F with (Z.ones 5). rewrite Z.land_ones by lia. apply Z.mod_small. simpl. lia.
Qed.

Lemma pull_registers_set_push1 s v :
  pull_registers (set_fifo_cache1_push1 v s) = pull_registers s.
Proof. reflexivity. Qed.

Lemma card_type_set_push1 s v : card_type (set_fifo_cache1_push1 v s) = card_type s.
Proof. reflexivity. Qed.

Lemma push1_set_push1 s v : fifo_cache1_push1 (set_fifo_cache1_push1 v s) = v.
Proof. reflexivity. Qed.

Lemma ramfc_sro_cases s : ramfc_sro s = 0x2C \/ ramfc_sro s = 0x30.
Proof. unfold ramfc_sro. destruct (_ <? _); [left|right]; reflexivity. Qed.

(** C5. Switching from the active channel A to B and back to A through
    [geforce_fifo_process] reloads the five live pull registers (put
    cursor, get cursor, reference count, descriptor instance, semaphore)
    with the values they had before the first switch; both switches
    address the record of A through [geforce_ramfc_address] with the same
    generation-dependent offsets.  The record of A lies in device memory
    and is not overwritten while B is processed; both rings are
    non-empty, so that both switches take place. *)
Theorem fifo_context_switch_round_trip pfuel fuel s s2 A B :
  Z.land (fifo_cache1_push1 s) 0x1F = A -> 0 <= A < 32 -> 0 <= B < 32 -> A <> B ->
  pull_registers_u32 s -> ramfc_in_vram s A = true ->
  fifo_idle s B = false ->
  fifo_cache1_dma_put s <> fifo_cache1_dma_get s ->
  let s1 := fifo_context_switch s B in
  card_type s2 = card_type s1 -> memsize s2 = memsize s1 ->
  ramin_flip s2 = ramin_flip s1 -> fifo_ramfc s2 = fifo_ramfc s1 ->
  Z.land (fifo_cache1_push1 s2) 0x1F = B ->
  ramfc_record s2 A = ramfc_record s1 A ->
  let s3 := fifo_context_switch s2 A in
  geforce_fifo_process pfuel fuel s B = fifo_loop pfuel fuel s1 B
  /\ Z.land (fifo_cache1_push1 s1) 0x1F = B
  /\ ramfc_record s1 A
     = [fifo_cache1_dma_put s; fifo_cache1_dma_get s; fifo_cache1_ref_cnt s;
        fifo_cache1_dma_instance s; fifo_cache1_semaphore s]
  /\ geforce_fifo_process pfuel fuel s2 A = fifo_loop pfuel fuel s3 A
  /\ pull_registers s3 = pull_registers s
  /\ Z.land (fifo_cache1_push1 s3) 0x1F = A.
Proof.
  intros HoldA HA HB Hne Hregs Hin HidleB Hpg s1 Hct Hms Hfl Hrf HoldB Hrec s3.
  (* the record of A after the first switch *)
  assert (HneB : Z.land (fifo_cache1_push1 s) 0x1F <> B) by (rewrite HoldA; exact Hne).
  pose proof (fifo_context_switch_ne s B HneB) as E1. fold s1 in E1. rewrite HoldA in E1.
  assert (Hct1 : card_type s1 = card_type s).
  { rewrite E1, card_type_set_push1, fifo_load_context_card_type.
    apply (vram_only_trans s s (fifo_save_context s A (ramfc_sro s))); [apply vram_only_refl|].
    unfold fifo_save_context.
    repeat (eapply vram_only_trans; [|apply vram_only_ramfc_write]). apply vram_only_refl. }
  assert (Hsro1 : ramfc_sro s1 = ramfc_sro s) by (unfold ramfc_sro; now rewrite Hct1).
  assert (Hsro2 : ramfc_sro s2 = ramfc_sro s) by (unfold ramfc_sro; now rewrite Hct, Hct1).
  unfold ramfc_in_vram, ramfc_offsets in Hin. cbn [forallb] in Hin.
  repeat (apply andb_true_iff in Hin; destruct Hin as [?I Hin]).
  destruct (fifo_save_context_spec s A (ramfc_sro s) HA (ramfc_sro_cases s) Hregs)
    as (V & S0 & S4 & S8 & SC & SS); try assumption.
  assert (R1 : forall o, geforce_ramfc_read32 s1 A o
                         = geforce_ramfc_read32 (fifo_save_context s A (ramfc_sro s)) A o).
  { intros o. rewrite E1, ramfc_read_set_push1. apply ramfc_read_load_context. }
  assert (Hrec1 : ramfc_record s1 A
                  = [fifo_cache1_dma_put s; fifo_cache1_dma_get s; fifo_cache1_ref_cnt s;
                     fifo_cache1_dma_instance s; fifo_cache1_semaphore s]).
  { unfold ramfc_record, ramfc_offsets. rewrite Hsro1. cbn [map].
    rewrite !R1, S0, S4, S8, SC, SS. reflexivity. }
  rewrite Hrec1 in Hrec. unfold ramfc_record, ramfc_offsets in Hrec. rewrite Hsro2 in Hrec.
  cbn [map] in Hrec. injection Hrec as T0 T4 T8 TC TS.
  (* the second switch *)
  assert (HneA : Z.land (fifo_cache1_push1 s2) 0x1F <> A) by (rewrite HoldB; congruence).
  pose proof (fifo_context_switch_ne s2 A HneA) as E3. fold s3 in E3.
  rewrite HoldB, Hsro2 in E3.
  destruct (fifo_load_context_spec (fifo_save_context s2 B (ramfc_sro s)) A (ramfc_sro s))
    as (L & _).
  assert (L' : pull_registers
                 (fifo_load_context (fifo_save_context s2 B (ramfc_sro s)) A (ramfc_sro s))
               = pull_registers s).
  { rewrite L. unfold pull_registers. rewrite <- T0, <- T4, <- T8, <- TC, <- TS.
    destruct (ramfc_sro_cases s) as [Es|Es]; rewrite Es;
      rewrite !(fifo_save_context_other s2 B _ A)
        by (lia || congruence || reflexivity || (left; reflexivity) || (right; reflexivity));
      reflexivity. }
  split; [|split; [|split; [|split; [|split]]]].
  - unfold geforce_fifo_process. fold s1. now rewrite HidleB.
  - rewrite E1, push1_set_push1. now apply active_channel_after_switch.
  - exact Hrec1.
  - unfold geforce_fifo_process. fold s3.
    assert (fifo_idle s2 A = false) as ->; [|reflexivity].
    unfold fifo_idle. apply Z.eqb_neq in HneA. rewrite HneA, T0, T4.
    now apply Z.eqb_neq.
  - rewrite E3, pull_registers_set_push1. exact L'.
  - rewrite E3, push1_set_push1. now apply active_channel_after_switch.
Qed.

End Switch.

(** ** The statements at the sample device *)

Ltac by_eval := vm_compute; repeat split; (reflexivity || discriminate || lia).

Lemma dma_paged_address_witness :
  nonzero (Z.land (geforce_ramin_read32 paged_state 0x1000) 0x00002000) = false
  /\ geforce_dma_addr_abs paged_state (geforce_ramin_read32 paged_state 0x1000) 0x1000 0x0FA0
     = 0x5FA0.
Proof.
  assert (Hf : nonzero (Z.land (geforce_ramin_read32 paged_state 0x1000) 0x00002000) = false)
    by (vm_compute; reflexivity).
  split; [exact Hf|].
  destruct (dma_paged_address paged_state 0x1000 0x0FA0 Hf) as (_ & _ & _ & Hex).
  apply Hex; vm_compute; reflexivity.
Defined.

(** C3, counterexample. With adjust 1 in the first descriptor word and
    offset 0xFFF the code resolves through page-table entry 1 to 0x9000;
    the formula of the document gives 0x5FFF. *)
Lemma dma_paged_address_ignores_adjust_counterexample :
  nonzero (Z.land (geforce_ramin_read32 paged_adjust_state 0x1000) 0x00002000) = false
  /\ geforce_dma_addr_abs paged_adjust_state (geforce_ramin_read32 paged_adjust_state 0x1000)
       0x1000 0xFFF = 0x9000
  /\ spec_paged_address paged_adjust_state 0x1000 0xFFF = 0x5FFF
  /\ geforce_dma_addr_abs paged_adjust_state (geforce_ramin_read32 paged_adjust_state 0x1000)
       0x1000 0xFFF <> spec_paged_address paged_adjust_state 0x1000 0xFFF.
Proof. vm_compute. repeat split; try reflexivity. discriminate. Qed.

Lemma dma_linear_address_witness :
  nonzero (Z.land (geforce_ramin_read32 linear_state 0x1000) 0x00002000) = true
  /\ geforce_dma_addr_abs linear_state (geforce_ramin_read32 linear_state 0x1000) 0x1000 0x34
     = 0x2044.
Proof.
  assert (Hf : nonzero (Z.land (geforce_ramin_read32 linear_state 0x1000) 0x00002000) = true)
    by (vm_compute; reflexivity).
  split; [exact Hf|].
  destruct (dma_linear_address linear_state 0x1000 0x34 Hf) as (_ & Hex).
  apply Hex; vm_compute; reflexivity.
Defined.

(** C7, counterexample. A linear descriptor with adjust 0x10 whose second
    word holds 0x2000 and whose word at byte offset 8 holds 0x7000
    resolves offset 0x34 to 0x7044, not to the 0x2044 that a base in the
    second word gives. *)
Lemma dma_linear_base_second_word_counterexample :
  nonzero (Z.land (geforce_ramin_read32 linear_second_word_state 0x1000) 0x00002000) = true
  /\ Z.shiftr (geforce_ramin_read32 linear_second_word_state 0x1000) 20 = 0x10
  /\ Z.land (geforce_ramin_read32 linear_second_word_state (0x1000 + 4)) 0xFFFFF000 = 0x2000
  /\ spec_linear_address linear_second_word_state 0x1000 0x34 = 0x2044
  /\ geforce_dma_addr_abs linear_second_word_state
       (geforce_ramin_read32 linear_second_word_state 0x1000) 0x1000 0x34 = 0x7044
  /\ geforce_dma_addr_abs linear_second_word_state
       (geforce_ramin_read32 linear_second_word_state 0x1000) 0x1000 0x34
     <> spec_linear_address linear_second_word_state 0x1000 0x34.
Proof. vm_compute. repeat split; try reflexivity. discriminate. Qed.


Lemma ramht_lookup_one_traversal_witness :
  geforce_ramht_lookup 512 ramht_collision_state 0x12345678 5 (Some 0) (Some 0)
  = Some (Some 0x1000, Some 1)
  /\ geforce_ramht_lookup 512 ramht_collision_state 0x12345678 7 (Some 0) (Some 0)
     = Some (Some 0, Some 0).
Proof.
  assert (Hb : ramht_bits ramht_collision_state <= 28) by (vm_compute; discriminate).
  split.
  - destruct (ramht_lookup_one_traversal ramht_collision_state 0x12345678 5 (Some 0) (Some 0)
                Hb ltac:(lia)) as (hash & Hhash & _ & _ & _ & _ & _ & Hfound & _).
    specialize (Hhash 5%nat ltac:(lia)). vm_compute in Hhash. injection Hhash as <-.
    destruct (Hfound 1 ltac:(vm_compute; split; [discriminate|reflexivity])
                ltac:(vm_compute; reflexivity)) as (_ & Hl).
    + intros j Hj. replace j with 0 by lia. vm_compute. reflexivity.
    + rewrite Hl by (vm_compute; discriminate). vm_compute. reflexivity.
  - destruct (ramht_lookup_one_traversal ramht_collision_state 0x12345678 7 (Some 0) (Some 0)
                Hb ltac:(lia)) as (hash & Hhash & _ & _ & _ & _ & _ & _ & Hfail & _).
    specialize (Hhash 5%nat ltac:(lia)). vm_compute in Hhash. injection Hhash as <-.
    apply Hfail; [|vm_compute; discriminate].
    intros k Hk. change 480 with (8 * 60).
    apply (ramht_no_match_offset ramht_collision_state 0x12345678 7 60 k Hb).
    vm_compute. reflexivity.
Defined.

(** C8, counterexample. With size exponent 20 the table size wraps to 0,
    so the step [it += 8; if (it >= ramht_size) it = 0;] sets the probe
    offset to 0 every time.  Handle 1 of channel 0 starts the probe at
    offset 8; neither slot 8 nor slot 0 of the empty table matches, the
    offset stays 0 and never comes back to 8: the lookup returns for no
    amount of fuel. *)
Lemma ramht_lookup_wrapped_size_counterexample :
  ramht_bits ramht_wrapped_state = 29
  /\ ramht_size ramht_wrapped_state = 0
  /\ ramht_hash 2 ramht_wrapped_state 1 0 = Some 8
  /\ ramht_next ramht_wrapped_state 8 = 0
  /\ ramht_next ramht_wrapped_state 0 = 0
  /\ forall fuel, geforce_ramht_lookup fuel ramht_wrapped_state 1 0 (Some 0) (Some 0) = None.
Proof.
  assert (M8 : ramht_slot_matches ramht_wrapped_state 1 0 8 = false)
    by (vm_compute; reflexivity).
  assert (M0 : ramht_slot_matches ramht_wrapped_state 1 0 0 = false)
    by (vm_compute; reflexivity).
  assert (N8 : ramht_next ramht_wrapped_state 8 = 0) by (vm_compute; reflexivity).
  assert (N0 : ramht_next ramht_wrapped_state 0 = 0) by (vm_compute; reflexivity).
  assert (L : forall fuel, ramht_probe fuel ramht_wrapped_state 1 0 8 0 = None).
  { induction fuel as [|fuel IH]; [reflexivity|].
    cbn [ramht_probe]. rewrite M0. cbv zeta. rewrite N0.
    change (0 =? 8) with false. cbv iota. exact IH. }
  assert (F : forall fuel, ramht_hash_fold (S (S fuel)) 29 1 0 = Some 1).
  { intros fuel. cbn [ramht_hash_fold].
    change (nonzero 1) with true. cbv iota.
    change (Z.shiftr 1 29) with 0. change (nonzero 0) with false. cbv iota.
    reflexivity. }
  split; [vm_compute; reflexivity|]. split; [vm_compute; reflexivity|].
  split; [vm_compute; reflexivity|]. split; [exact N8|]. split; [exact N0|].
  intros [|[|fuel]]; [vm_compute; reflexivity | vm_compute; reflexivity |].
  unfold geforce_ramht_lookup, ramht_hash.
  change (ramht_bits ramht_wrapped_state) with 29. rewrite F.
  change (u32 (Z.shiftl (Z.lxor 1 (u32 (Z.shiftl (Z.land 0 15) (29 - 4)))) 3)) with 8.
  cbn [ramht_probe]. rewrite M8. cbv zeta. rewrite N8.
  change (0 =? 8) with false. cbv iota. rewrite L. reflexivity.
Qed.

Section Diverge.
Context {ClassRegs : Type} `{Inhabited ClassRegs} {ops : ClassOps ClassRegs}.
Implicit Types s : GeForceState ClassRegs.

Lemma dma_read32_set_get s v o a :
  geforce_dma_read32 (set_fifo_cache1_dma_get v s) o a = geforce_dma_read32 s o a.
Proof.
  unfold geforce_dma_read32, geforce_dma_addr_abs, geforce_dma_lin_lookup,
    geforce_dma_pt_lookup, geforce_physical_read32, geforce_ramin_read32, geforce_vram_read32.
  cbn [vram sysmem memsize ramin_flip set_fifo_cache1_dma_get]. reflexivity.
Qed.

Lemma fifo_fetch_set_get s v :
  fifo_fetch (set_fifo_cache1_dma_get v s)
  = geforce_dma_read32 s (u32 (Z.shiftl (fifo_cache1_dma_instance s) 4)) v.
Proof.
  unfold fifo_fetch. rewrite dma_read32_set_get.
  cbn [fifo_cache1_dma_instance fifo_cache1_dma_get set_fifo_cache1_dma_get]. reflexivity.
Qed.

Lemma put_set_get s v :
  fifo_cache1_dma_put (set_fifo_cache1_dma_get v s) = fifo_cache1_dma_put s.
Proof. reflexivity. Qed.

Lemma get_set_get s v : fifo_cache1_dma_get (set_fifo_cache1_dma_get v s) = v.
Proof. reflexivity. Qed.

(** A jump word that targets its own address keeps the loop running
    whatever the fuel. *)
Lemma fifo_loop_jump_self pfuel chid w (fuel : nat) : forall s,
  mcnt (dma_state (get_channel s chid)) = 0 ->
  fifo_fetch s = w ->
  Z.land w 0xe0000003 <> 0x20000000 -> Z.land w 3 = 1 ->
  Z.land w 0xfffffffc = fifo_cache1_dma_get s ->
  fifo_cache1_dma_get s <> fifo_cache1_dma_put s ->
  fifo_loop pfuel fuel s chid = None.
Proof.
  induction fuel as [|fuel IH]; intros s Hm Hw Hold Hj Ht Hne; [reflexivity|].
  cbn [fifo_loop].
  assert (Hne' : (fifo_cache1_dma_get s =? fifo_cache1_dma_put s) = false)
    by (apply Z.eqb_neq; exact Hne).
  assert (Hold' : (Z.land w 0xe0000003 =? 0x20000000) = false)
    by (apply Z.eqb_neq; exact Hold).
  rewrite Hne', (fifo_step_header pfuel s chid Hm), Hw.
  unfold fifo_parse_header. rewrite Hold', Hj, Z.eqb_refl.
  apply IH.
  - rewrite !get_channel_set_dma_get. exact Hm.
  - rewrite fifo_fetch_set_get, dma_read32_set_get.
    cbn [fifo_cache1_dma_instance set_fifo_cache1_dma_get]. rewrite Ht. exact Hw.
  - exact Hold.
  - exact Hj.
  - rewrite get_set_get. reflexivity.
  - rewrite get_set_get, !put_set_get, Ht. exact Hne.
Qed.

End Diverge.

Lemma fifo_software_method_continues_witness :
  exists s', fifo_step 0 software_ring_state 0 = Some (s', false)
    /\ fifo_cache1_dma_get s' = 4 /\ fifo_intr s' = 1
    /\ fifo_cache1_method s' !! 0%nat = Some 0x400
    /\ fifo_cache1_data s' !! 0%nat = Some 0x11.
Proof.
  pose proof (fifo_software_method_continues 0 software_ring_state 0) as T. cbv zeta in T.
  destruct T as ((s' & Es & Hg & _ & Hi & _ & _ & _ & Hm & Hd & _) & _).
  - split; [lia | vm_compute; lia].
  - vm_compute. discriminate.
  - vm_compute. discriminate.
  - vm_compute. reflexivity.
  - vm_compute. split; [discriminate | reflexivity].
  - vm_compute. reflexivity.
  - vm_compute. reflexivity.
  - exists s'. split; [exact Es|]. split; [rewrite Hg; vm_compute; reflexivity|].
    split; [rewrite Hi; vm_compute; reflexivity|].
    assert (E0 : Z.to_nat (fifo_cache1_put software_ring_state / 4) = 0%nat)
      by (vm_compute; reflexivity).
    rewrite E0 in Hm, Hd.
    split; [rewrite Hm | rewrite Hd]; vm_compute; reflexivity.
Defined.

(** C1, counterexample. Two parameters are pending for method 0x100 of a
    subchannel bound to engine 0.  The first iteration queues the
    parameter, leaves the get cursor at 4 and does not break; the loop
    goes on to dispatch the second parameter and ends with the ring
    drained. *)
Lemma fifo_software_method_rewind_counterexample :
  engine (get_subch (get_channel software_ring_state 0) 0) = 0
  /\ fifo_cache1_dma_get software_ring_state = 0
  /\ option_map (fun r => (snd r, fifo_cache1_dma_get (fst r), fifo_cache1_data (fst r) !! 0%nat,
                            fifo_intr (fst r)))
       (fifo_step 0 software_ring_state 0) = Some (false, 4, Some 0x11, 1)
  /\ option_map (fun s => (fifo_cache1_dma_get s, dispatch_log s))
       (geforce_fifo_process 0 3 software_ring_state 0)
     = Some (8, [(0, 0, 0x100, 0x11); (0, 0, 0x101, 0x22)])
  /\ ~ (exists s1, fifo_step 0 software_ring_state 0 = Some (s1, true)
                   /\ fifo_cache1_dma_get s1 = fifo_cache1_dma_get software_ring_state).
Proof.
  split; [vm_compute; reflexivity|]. split; [vm_compute; reflexivity|].
  split; [vm_compute; reflexivity|]. split; [vm_compute; reflexivity|].
  intros (s1 & E & _). apply fifo_step_never_breaks in E. discriminate.
Qed.

Lemma fifo_process_drains_straight_ring_witness :
  exists s', geforce_fifo_process 0 5 straight_ring_state 0 = Some s'
    /\ fifo_cache1_dma_get s' = fifo_cache1_dma_put s'.
Proof.
  pose proof (fifo_process_drains_straight_ring 0 4 straight_ring_state 0) as T.
  cbv zeta in T. destruct T as (s' & Hp & Hq).
  - vm_compute. split; [discriminate|reflexivity].
  - vm_compute. reflexivity.
  - vm_compute. reflexivity.
  - vm_compute. reflexivity.
  - exists s'. split; [apply Hp; lia|]. apply Hq. vm_compute. reflexivity.
Defined.

(** C2, counterexample. The ring of channel 0 holds the jump word
    0x00000001 at offset 0 and the put cursor is 4: the loop fetches the
    word, jumps back to offset 0 and never reaches the put cursor. *)
Lemma fifo_process_jump_self_counterexample :
  fifo_fetch jump_self_state = 0x00000001
  /\ fifo_cache1_dma_get jump_self_state = 0
  /\ fifo_cache1_dma_put jump_self_state = 4
  /\ ~ (exists fuel s', geforce_fifo_process 0 fuel jump_self_state 0 = Some s').
Proof.
  split; [vm_compute; reflexivity|]. split; [vm_compute; reflexivity|].
  split; [vm_compute; reflexivity|].
  intros (fuel & s' & E). unfold geforce_fifo_process in E.
  assert (fifo_idle jump_self_state 0 = false) as Hi by (vm_compute; reflexivity).
  rewrite Hi in E.
  rewrite (fifo_loop_jump_self 0 0 0x00000001 fuel) in E; try discriminate;
    vm_compute; (reflexivity || discriminate).
Qed.

Lemma fifo_context_switch_round_trip_witness :
  pull_registers switch_state = (0x40, 0x10, 7, 0x123, 9)
  /\ pull_registers (fifo_context_switch switch_state 1) = (0x20, 0, 0, 0, 0)
  /\ pull_registers (fifo_context_switch switch_back_state 0) = (0x40, 0x10, 7, 0x123, 9).
Proof.
  split; [vm_compute; reflexivity|]. split; [vm_compute; reflexivity|].
  assert (Hu : pull_registers_u32 switch_state)
    by (vm_compute; repeat split; (discriminate || reflexivity)).
  assert (Hpg : fifo_cache1_dma_put switch_state <> fifo_cache1_dma_get switch_state)
    by (vm_compute; discriminate).
  pose proof (fifo_context_switch_round_trip 0 0 switch_state switch_back_state 0 1
                ltac:(vm_compute; reflexivity) ltac:(lia) ltac:(lia) ltac:(lia) Hu
                ltac:(vm_compute; reflexivity) ltac:(vm_compute; reflexivity) Hpg
                ltac:(vm_compute; reflexivity) ltac:(vm_compute; reflexivity)
                ltac:(vm_compute; reflexivity) ltac:(vm_compute; reflexivity)
                ltac:(vm_compute; reflexivity) ltac:(vm_compute; reflexivity)) as T.
  destruct T as (_ & _ & _ & _ & Hr & _).
  rewrite Hr. vm_compute. reflexivity.
Defined.



(** C10, the failing input.  The guest writes 0x102 to PFIFO_CACHE1_PUT
    and a method of a subchannel on engine 0 is dispatched: the pair is
    stored at index 64, outside both 64-entry arrays (the model drops the
    store), and the cursor becomes 0x106, neither a multiple of 4 nor
    below [GEFORCE_CACHE1_SIZE * 4].  The sibling register write of
    PFIFO_CACHE1_GET masks the same value to 2. *)
Lemma cache1_put_register_write_escapes_queue :
  let s1 := geforce_mmio_write_cache1_put software_ring_state 0x102 in
  fifo_cache1_put s1 = 0x102
  /\ Z.to_nat (fifo_cache1_put s1 / 4) = 64%nat
  /\ length (fifo_cache1_method s1) = 64%nat
  /\ option_map (fun r => (snd r, fifo_cache1_put (fst r), fifo_cache1_put (fst r) mod 4,
                            fifo_cache1_put (fst r) <? GEFORCE_CACHE1_SIZE * 4))
       (geforce_execute_command 0 s1 0 0 0x100 7) = Some (true, 0x106, 2, false)
  /\ option_map (fun r => (fifo_cache1_method (fst r), fifo_cache1_data (fst r)))
       (geforce_execute_command 0 s1 0 0 0x100 7)
     = Some (fifo_cache1_method s1, fifo_cache1_data s1)
  /\ fifo_cache1_get (geforce_mmio_write_cache1_get software_ring_state 0x102) = 2.
Proof. vm_compute. repeat split; reflexivity. Qed.

(** * Further properties of the engine *)

(** ** Device memory, the instance window and DMA targets *)

Section MemoryFacts.
Context {ClassRegs : Type}.
Implicit Types s : GeForceState ClassRegs.

(** X1. A word written through the instance window is read back from the
    same instance address when the flipped address passes the bounds test
    of [geforce_vram_write32], and reads as 0 when it does not (the write
    is dropped and the state is left as it was); the word at any other
    word-aligned instance address is not disturbed, whatever the flip. *)
Theorem ramin_write_then_read s a a' v :
  0 <= v < 2 ^ 32 -> a mod 4 = 0 -> a' mod 4 = 0 -> a <> a' ->
  let s' := geforce_ramin_write32 s a v in
  geforce_ramin_read32 s' a
  = (if u32 (Z.lxor a (ramin_flip s) + 3) <? memsize s then v else 0)
  /\ geforce_ramin_read32 s' a' = geforce_ramin_read32 s a'
  /\ ((u32 (Z.lxor a (ramin_flip s) + 3) <? memsize s) = false -> s' = s).
Proof.
  intros Hv Ha Ha' Hne s'. split; [|split].
  - destruct (u32 (Z.lxor a (ramin_flip s) + 3) <? memsize s) eqn:Hin.
    + now apply ramin_read_write_same.
    + unfold s', geforce_ramin_read32, geforce_ramin_write32, geforce_vram_write32.
      rewrite Hin. unfold geforce_vram_read32. now rewrite Hin.
  - now apply ramin_read_write_other.
  - intros Hin. unfold s', geforce_ramin_write32, geforce_vram_write32. now rewrite Hin.
Qed.

(** X2. A 32-bit or 64-bit store to device memory that does not reach the
    end of the 32-bit address range changes no byte outside
    [0, memsize): a store whose last byte lies at or beyond [memsize] is
    dropped as a whole. *)
Theorem vram_write_stays_in_memory s addr val x :
  x < 0 \/ memsize s <= x ->
  (0 <= addr <= 2 ^ 32 - 4 -> vram (geforce_vram_write32 s addr val) x = vram s x)
  /\ (0 <= addr <= 2 ^ 32 - 8 -> vram (geforce_vram_write64 s addr val) x = vram s x).
Proof.
  intros Hx. split; intros Ha.
  - unfold geforce_vram_write32.
    destruct (u32 (addr + 3) <? memsize s) eqn:Hin; [|reflexivity].
    rewrite u32_small in Hin by lia. apply Z.ltb_lt in Hin.
    cbn [vram set_vram]. unfold stl_le_p. apply mem_store_outside.
    rewrite length_le_split. lia.
  - unfold geforce_vram_write64.
    destruct (u32 (addr + 7) <? memsize s) eqn:Hin; [|reflexivity].
    rewrite u32_small in Hin by lia. apply Z.ltb_lt in Hin.
    cbn [vram set_vram]. unfold stq_le_p. apply mem_store_outside.
    rewrite length_le_split. lia.
Qed.

(** X3. The bounds test [addr + 3 < memsize] is evaluated in 32 bits: for
    the last three addresses of the 32-bit range the sum wraps to 0, 1 or
    2, the test passes, and the access takes place at [addr], which lies
    beyond [memsize]. *)
Theorem vram_bounds_test_wraps s addr val :
  2 ^ 32 - 3 <= addr < 2 ^ 32 -> 3 <= memsize s <= 2 ^ 32 - 3 -> 0 <= val < 2 ^ 32 ->
  memsize s <= addr
  /\ geforce_vram_read32 s addr = ldl_le_p (vram s) addr
  /\ vram (geforce_vram_write32 s addr val) = stl_le_p (vram s) addr val
  /\ geforce_vram_read32 (geforce_vram_write32 s addr val) addr = val.
Proof.
  intros Ha Hm Hv.
  assert (Hin : (u32 (addr + 3) <? memsize s) = true).
  { apply Z.ltb_lt. unfold u32.
    replace (addr + 3) with (addr + 3 - 2 ^ 32 + 1 * 2 ^ 32) by lia.
    rewrite Z.mod_add by lia. rewrite Z.mod_small by lia. lia. }
  split; [lia|].
  unfold geforce_vram_write32, geforce_vram_read32. rewrite Hin.
  cbn [vram memsize set_vram]. rewrite Hin.
  split; [reflexivity|]. split; [reflexivity|]. now apply ldl_stl_same.
Qed.

End MemoryFacts.

Lemma ramin_write_then_read_witness :
  geforce_ramin_read32 (geforce_ramin_write32 paged_state 0x1000 0xCAFE) 0x1000 = 0xCAFE
  /\ geforce_ramin_read32 (geforce_ramin_write32 paged_state 0x1000 0xCAFE) 0x1008 = 0x5003.
Proof.
  destruct (ramin_write_then_read paged_state 0x1000 0x1008 0xCAFE
              ltac:(lia) ltac:(reflexivity) ltac:(reflexivity) ltac:(lia)) as (H1 & H2 & _).
  split.
  - rewrite H1. vm_compute. reflexivity.
  - rewrite H2. vm_compute. reflexivity.
Defined.

Lemma vram_write_stays_in_memory_witness :
  vram (geforce_vram_write32 paged_state 0x3FFFFFD 0xCAFE) 0x4000000 = vram paged_state 0x4000000.
Proof.
  destruct (vram_write_stays_in_memory paged_state 0x3FFFFFD 0xCAFE 0x4000000
              ltac:(right; vm_compute; discriminate)) as (H1 & _).
  apply H1. lia.
Defined.

Lemma vram_bounds_test_wraps_witness :
  memsize paged_state <= 0xFFFFFFFD
  /\ geforce_vram_read32 (geforce_vram_write32 paged_state 0xFFFFFFFD 0xCAFE) 0xFFFFFFFD = 0xCAFE.
Proof.
  destruct (vram_bounds_test_wraps paged_state 0xFFFFFFFD 0xCAFE ltac:(lia)
              ltac:(vm_compute; split; discriminate) ltac:(lia)) as (H1 & _ & _ & H2).
  split; [exact H1 | exact H2].
Defined.

(** ** Channel records of RAMFC *)

Section RamfcFacts.
Context {ClassRegs : Type}.
Implicit Types s : GeForceState ClassRegs.

(** X5. The RAMFC records of two different channels share no word: the
    addresses [geforce_ramfc_address] computes for them differ at all
    offsets below 0x40, and saving the context of one channel leaves
    every word of the record of the other as it was. *)
Theorem ramfc_records_disjoint s A B o o' :
  0 <= A < 32 -> 0 <= B < 32 -> A <> B -> 0 <= o < 0x40 -> 0 <= o' < 0x40 ->
  geforce_ramfc_address s A o <> geforce_ramfc_address s B o'
  /\ (o' mod 4 = 0 ->
      geforce_ramfc_read32 (fifo_save_context s A (ramfc_sro s)) B o'
      = geforce_ramfc_read32 s B o').
Proof.
  intros HA HB Hne Ho Ho'. split.
  - apply ramfc_address_inj; auto.
  - intros Hal. apply fifo_save_context_other; auto. apply ramfc_sro_cases.
Qed.

End RamfcFacts.

Lemma ramfc_records_disjoint_witness :
  geforce_ramfc_address switch_state 0 0x4 <> geforce_ramfc_address switch_state 1 0x0
  /\ geforce_ramfc_read32 (fifo_save_context switch_state 0 (ramfc_sro switch_state)) 1 0x0
     = 0x20.
Proof.
  destruct (ramfc_records_disjoint switch_state 0 1 0x4 0x0
              ltac:(lia) ltac:(lia) ltac:(lia) ltac:(lia) ltac:(lia)) as (H1 & H2).
  split; [exact H1|]. rewrite H2 by reflexivity. vm_compute. reflexivity.
Defined.

(** ** The method dispatcher *)

Section DispatchFacts.
Context {ClassRegs : Type} `{Inhabited ClassRegs} {ops : ClassOps ClassRegs}.
Implicit Types s : GeForceState ClassRegs.

(** The probe of a table of at most [2 ^ 28] slots returns when it is
    given one unit of fuel per slot. *)
Lemma ramht_lookup_returns s handle chid obj eng fuel :
  ramht_bits s <= 28 -> 0 <= handle < 2 ^ 32 -> 2 ^ ramht_bits s <= Z.of_nat fuel ->
  exists r, geforce_ramht_lookup fuel s handle chid obj eng = Some r.
Proof.
  intros Hb Hh Hf.
  pose proof (ramht_bits_min s) as Hmin.
  assert (2 ^ 9 <= 2 ^ ramht_bits s) by (apply Z.pow_le_mono_r; lia).
  destruct (ramht_hash_spec s handle chid Hb Hh) as (h0 & Hh0 & Hhash).
  unfold geforce_ramht_lookup. rewrite Hhash by lia.
  assert (E : exists r, ramht_probe fuel s handle chid (8 * h0)
                          (ramht_probe_offset s (8 * h0) 0) = Some r).
  { destruct (ramht_first_match s handle chid h0 (Z.to_nat (2 ^ ramht_bits s)))
      as [Hno | (k & Hk & Hyes & Hbefore)].
    - eexists. apply (ramht_probe_fail s handle chid h0 Hb Hh0 (Z.to_nat (2 ^ ramht_bits s)));
        try lia.
      intros j Hj. apply Hno. lia.
    - eexists. apply (ramht_probe_found s handle chid h0 Hb Hh0 (Z.to_nat k) 0 fuel); try lia.
      + intros j Hj. apply Hbefore. lia.
      + replace (0 + Z.of_nat (Z.to_nat k)) with k by lia. exact Hyes. }
  rewrite (ramht_probe_offset_0 s h0 Hb Hh0) in E.
  destruct E as (r & ->). destruct r; eexists; reflexivity.
Qed.

Lemma ramht_bits_frame s s' : dispatch_frame s s' -> ramht_bits s' = ramht_bits s.
Proof.
  intros (_ & _ & _ & _ & Hr & _). unfold ramht_bits. now rewrite Hr.
Qed.

Lemma fifo_fetch_range s : 0 <= fifo_fetch s < 2 ^ 32.
Proof.
  unfold fifo_fetch, geforce_dma_read32, geforce_physical_read32, geforce_vram_read32.
  destruct (nonzero _); [apply ldl_range|].
  destruct (_ <? _); [apply ldl_range | lia].
Qed.


(** In the model every dispatch returns when the lookup has one unit of
    fuel per slot of the handle table; the class handler is the total
    function of [ClassOps]. *)
Lemma execute_command_returns pfuel s chid sc method param :
  ramht_bits s <= 28 -> 2 ^ ramht_bits s <= Z.of_nat pfuel -> 0 <= param < 2 ^ 32 ->
  exists s', geforce_execute_command pfuel s chid sc method param = Some (s', true).
Proof.
  intros Hb Hf Hp.
  destruct (Z.eq_dec method 0) as [->|Hm0].
  - unfold geforce_execute_command, execute_method. rewrite Z.eqb_refl.
    match goal with |- context [geforce_ramht_lookup pfuel ?t param chid ?o ?e] =>
      destruct (ramht_lookup_returns t param chid o e pfuel) as ([obj eng] & ->)
    end.
    + rewrite (ramht_bits_frame _ _ (frame_bind_save_notifier _ chid sc)).
      change (ramht_bits (set_dispatch_log ?l s)) with (ramht_bits s). assumption.
    + exact Hp.
    + rewrite (ramht_bits_frame _ _ (frame_bind_save_notifier _ chid sc)).
      change (ramht_bits (set_dispatch_log ?l s)) with (ramht_bits s). assumption.
    + cbv beta iota. destruct (engine _ =? 1); [eexists; reflexivity|].
      destruct (engine _ =? 0); eexists; reflexivity.
  - destruct (Z_le_dec 0x60 method) as [Hlo|Hlo];
      [destruct (Z_lt_dec method 0x80) as [Hhi|Hhi]|];
      [|apply execute_command_total; lia|apply execute_command_total; lia].
    unfold geforce_execute_command, execute_method.
    destruct (Z.eqb_spec method 0) as [|_]; [contradiction|].
    destruct (Z.eqb_spec method 20) as [|_]; [lia|].
    destruct (Z.leb_spec 64 method) as [_|]; [|lia].
    destruct (engine _ =? 1).
    + destruct (Z.leb_spec 96 method) as [_|]; [|lia].
      destruct (Z.ltb_spec method 128) as [_|]; [|lia]. cbn [andb].
      destruct (ramht_lookup_returns
                  (set_dispatch_log (dispatch_log s ++ [(chid, sc, method, param)]) s)
                  param chid (Some param) None pfuel) as ([p q] & ->).
      * change (ramht_bits (set_dispatch_log ?l s)) with (ramht_bits s). assumption.
      * exact Hp.
      * change (ramht_bits (set_dispatch_log ?l s)) with (ramht_bits s). assumption.
      * eexists; reflexivity.
    + destruct (engine _ =? 0); eexists; reflexivity.
Qed.

Lemma fifo_step_returns pfuel s chid :
  ramht_bits s <= 28 -> 2 ^ ramht_bits s <= Z.of_nat pfuel ->
  exists s', fifo_step pfuel s chid = Some (s', false).
Proof.
  intros Hb Hf. unfold fifo_step.
  destruct (nonzero _); [|eexists; reflexivity].
  match goal with |- context [geforce_execute_command pfuel ?t chid ?sc ?m ?p] =>
    destruct (execute_command_returns pfuel t chid sc m p) as (s' & ->)
  end.
  - exact Hb.
  - exact Hf.
  - apply fifo_fetch_range.
  - eexists; reflexivity.
Qed.

End DispatchFacts.


(** ** Binding an object *)

(** Bits of a 32-bit wrap and of the masks of the object words. *)
Lemma u32_testbit x i : 0 <= i -> Z.testbit (u32 x) i = (i <? 32) && Z.testbit x i.
Proof.
  intros Hi. unfold u32. destruct (Z.ltb_spec i 32).
  - now rewrite Z.mod_pow2_bits_low by lia.
  - now rewrite Z.mod_pow2_bits_high by lia.
Qed.

Lemma ones_testbit n i : 0 <= n -> 0 <= i -> Z.testbit (Z.ones n) i = (i <? n).
Proof.
  intros Hn Hi. destruct (Z.ltb_spec i n).
  - apply Z.ones_spec_low. lia.
  - apply Z.ones_spec_high. lia.
Qed.

Lemma testbit_u32_high x i : 0 <= x < 2 ^ 32 -> 32 <= i -> Z.testbit x i = false.
Proof. intros Hx Hi. apply (testbit_above x 32 i); lia. Qed.


Lemma lor_lt_pow2 a b n :
  0 <= n -> 0 <= a < 2 ^ n -> 0 <= b < 2 ^ n -> 0 <= Z.lor a b < 2 ^ n.
Proof.
  intros Hn Ha Hb.
  assert (E : Z.lor a b mod 2 ^ n = Z.lor a b).
  { apply Z.bits_inj'. intros i Hi. destruct (Z.lt_ge_cases i n).
    - now rewrite Z.mod_pow2_bits_low.
    - rewrite Z.mod_pow2_bits_high, Z.lor_spec by lia.
      rewrite (testbit_above a n i), (testbit_above b n i) by lia. reflexivity. }
  rewrite <- E. apply Z.mod_pos_bound. lia.
Qed.

Lemma land_range_l x m : 0 <= x < 2 ^ 32 -> 0 <= Z.land x m < 2 ^ 32.
Proof.
  intros Hx.
  assert (E : Z.land x m mod 2 ^ 32 = Z.land x m).
  { apply Z.bits_inj'. intros i Hi. destruct (Z.lt_ge_cases i 32).
    - now rewrite Z.mod_pow2_bits_low.
    - rewrite Z.mod_pow2_bits_high, Z.land_spec by lia.
      rewrite (testbit_above x 32 i) by lia. reflexivity. }
  rewrite <- E. apply Z.mod_pos_bound. lia.
Qed.

Lemma shiftr_range x k : 0 <= x < 2 ^ 32 -> 0 <= k -> 0 <= Z.shiftr x k < 2 ^ 32.
Proof.
  intros Hx Hk. rewrite Z.shiftr_div_pow2 by lia.
  assert (0 < 2 ^ k) by (apply Z.pow_pos_nonneg; lia).
  split; [apply Z.div_pos; lia|].
  apply Z.le_lt_trans with x; [|lia]. apply Z.div_le_upper_bound; [lia|]. nia.
Qed.

(** The notifier field of the second object word of the older layout:
    written as [notifier >> 4 << 16], read back as [word >> 16 << 4]. *)
Lemma notifier_field_nv20 w n :
  0 <= w < 2 ^ 32 -> 0 <= n < 2 ^ 32 ->
  let w' := Z.lor (Z.land w 0x0000FFFF) (u32 (Z.shiftl (Z.shiftr n 4) 16)) in
  0 <= w' < 2 ^ 32
  /\ u32 (Z.shiftl (Z.shiftr w' 16) 4) = Z.land n 0x000FFFF0
  /\ Z.land w' 0x0000FFFF = Z.land w 0x0000FFFF.
Proof.
  intros Hw Hn w'.
  assert (Hr : 0 <= w' < 2 ^ 32).
  { unfold w'. apply lor_lt_pow2; [lia | now apply land_range_l | apply u32_range]. }
  split; [exact Hr|]. split.
  - apply Z.bits_inj'. intros i Hi. unfold w'.
    change 1048560 with (Z.shiftl (Z.ones 16) 4). change 65535 with (Z.ones 16).
    rewrite u32_testbit, Z.land_spec by lia.
    rewrite !Z.shiftl_spec by lia.
    destruct (Z.ltb_spec i 4).
    + rewrite (Z.testbit_neg_r _ (i - 4)) by lia.
      rewrite (Z.testbit_neg_r (Z.ones 16) (i - 4)) by lia.
      now rewrite !andb_false_r.
    + rewrite Z.shiftr_spec, Z.lor_spec, Z.land_spec, u32_testbit by lia.
      rewrite !ones_testbit by lia. rewrite Z.shiftl_spec by lia.
      rewrite Z.shiftr_spec by lia.
      replace (i - 4 + 16 - 16 + 4) with i by lia.
      destruct (Z.ltb_spec i 32); destruct (Z.ltb_spec (i - 4 + 16) 16);
        destruct (Z.ltb_spec (i - 4 + 16) 32); destruct (Z.ltb_spec (i - 4) 16);
        try lia; cbn [andb orb]; rewrite ?andb_false_r, ?andb_true_r;
        try reflexivity.
  - apply Z.bits_inj'. intros i Hi. unfold w'. change 65535 with (Z.ones 16).
    rewrite !Z.land_spec, Z.lor_spec, Z.land_spec, u32_testbit, !ones_testbit by lia.
    destruct (Z.ltb_spec i 16); [|now rewrite !andb_false_r].
    rewrite Z.shiftl_spec, (Z.testbit_neg_r _ (i - 16)) by lia.
    rewrite ?andb_false_r, ?andb_true_r, ?orb_false_r. reflexivity.
Qed.

(** The same for the newer layout: written as [notifier >> 4] below the
    top twelve bits, read back as [(word & 0xFFFFF) << 4]. *)
Lemma notifier_field_nv40 w n :
  0 <= w < 2 ^ 32 -> 0 <= n < 2 ^ 32 ->
  let w' := Z.lor (Z.land w 0xFFF00000) (Z.shiftr n 4) in
  0 <= w' < 2 ^ 32
  /\ u32 (Z.shiftl (Z.land w' 0xFFFFF) 4) = Z.land n 0x00FFFFF0.
Proof.
  intros Hw Hn w'.
  assert (Hr : 0 <= w' < 2 ^ 32).
  { unfold w'. apply lor_lt_pow2; [lia | now apply land_range_l | now apply shiftr_range]. }
  split; [exact Hr|].
  apply Z.bits_inj'. intros i Hi. unfold w'.
  change 16777200 with (Z.shiftl (Z.ones 20) 4). change 1048575 with (Z.ones 20).
  change 4293918720 with (Z.shiftl (Z.ones 12) 20).
  rewrite u32_testbit, Z.land_spec by lia.
  rewrite !Z.shiftl_spec by lia.
  destruct (Z.ltb_spec i 4).
  - rewrite (Z.testbit_neg_r _ (i - 4)) by lia.
    rewrite (Z.testbit_neg_r (Z.ones 20) (i - 4)) by lia.
    now rewrite !andb_false_r.
  - rewrite Z.land_spec, Z.lor_spec, Z.land_spec, Z.shiftr_spec, Z.shiftl_spec by lia.
    rewrite !(ones_testbit 20) by lia.
    replace (i - 4 + 4) with i by lia.
    destruct (Z.ltb_spec (i - 4) 20).
    + rewrite (Z.testbit_neg_r _ (i - 4 - 20)) by lia.
      destruct (Z.ltb_spec i 32); [|lia].
      rewrite ?andb_false_r, ?andb_true_r, ?orb_false_r, ?orb_false_l. reflexivity.
    + rewrite ?andb_false_r. reflexivity.
Qed.

Section BindFacts.
Context {ClassRegs : Type} `{Inhabited ClassRegs} {ops : ClassOps ClassRegs}.
Implicit Types s : GeForceState ClassRegs.
Implicit Types c : GeForceChannel ClassRegs.

Lemma get_put_subch_same c sc x :
  (Z.to_nat sc < length (schs c))%nat -> get_subch (put_subch sc x c) sc = x.
Proof.
  intros Hsc. rewrite get_put_subch. destruct (decide _) as [_|N]; [reflexivity|].
  exfalso. apply N. split; [reflexivity | exact Hsc].
Qed.

Lemma schs_put_subch_length c sc x : length (schs (put_subch sc x c)) = length (schs c).
Proof. unfold put_subch. cbn [schs set_schs]. apply length_insert. Qed.

Lemma valid_chid_put_channel s chid j c :
  valid_chid s chid -> valid_chid (put_channel j c s) chid.
Proof.
  unfold valid_chid, put_channel. cbn [channels set_channels]. now rewrite length_insert.
Qed.

Lemma valid_chid_channels s s' chid :
  channels s' = channels s -> valid_chid s chid -> valid_chid s' chid.
Proof. unfold valid_chid. now intros ->. Qed.

Lemma ramin_read_put_channel s chid c a :
  geforce_ramin_read32 (put_channel chid c s) a = geforce_ramin_read32 s a.
Proof. reflexivity. Qed.

Lemma ramin_read_set_log s l a :
  geforce_ramin_read32 (set_dispatch_log l s) a = geforce_ramin_read32 s a.
Proof. reflexivity. Qed.

(** What the write-back of the notifier leaves as it was. *)
Lemma bind_save_notifier_regs s chid sc :
  let s0 := bind_save_notifier s chid sc in
  fifo_cache1_put s0 = fifo_cache1_put s /\ fifo_intr s0 = fifo_intr s
  /\ card_type s0 = card_type s /\ memsize s0 = memsize s /\ ramin_flip s0 = ramin_flip s.
Proof.
  unfold bind_save_notifier. destruct (engine _ =? 1); [|repeat split].
  unfold geforce_ramin_write32, geforce_vram_write32. destruct (_ <? _); repeat split.
Qed.

(** The bind as a whole, given what the lookup stores through its two
    output pointers. *)
Lemma execute_bind_spec pfuel s chid sc param obj eng :
  let s0 := bind_save_notifier s chid sc in
  let sub := get_subch (get_channel s chid) sc in
  valid_chid s chid -> (Z.to_nat sc < length (schs (get_channel s chid)))%nat ->
  geforce_ramht_lookup pfuel s0 param chid (Some (object sub)) (Some (engine sub))
  = Some (Some obj, Some eng) ->
  exists s',
    geforce_execute_command pfuel s chid sc 0 param = Some (s', true)
    /\ object (get_subch (get_channel s' chid) sc) = obj
    /\ engine (get_subch (get_channel s' chid) sc) = eng
    /\ notifier (get_subch (get_channel s' chid) sc)
       = (if eng =? 1 then
            if card_type s <? 0x40
            then u32 (Z.shiftl (Z.shiftr (geforce_ramin_read32 s0 (u32 (obj + 4))) 16) 4)
            else u32 (Z.shiftl (Z.land (geforce_ramin_read32 s0 (u32 (obj + 4))) 0xFFFFF) 4)
          else notifier sub)
    /\ fifo_cache1_put s'
       = (if eng =? 1 then fifo_cache1_put s
          else if eng =? 0
               then (if u32 (fifo_cache1_put s + 4) =? GEFORCE_CACHE1_SIZE * 4
                     then 0 else u32 (fifo_cache1_put s + 4))
               else fifo_cache1_put s).
Proof.
  intros s0 sub Hv Hsc Hl.
  assert (Hch : get_channel s0 chid = get_channel s chid).
  { unfold get_channel, s0. now rewrite bind_save_notifier_channels. }
  destruct (bind_save_notifier_regs s chid sc) as (Rput & Rintr & Rct & _). fold s0 in Rput, Rintr, Rct.
  unfold geforce_execute_command, execute_method. rewrite Z.eqb_refl.
  rewrite bind_save_notifier_log. fold s0.
  set (l := dispatch_log s ++ [(chid, sc, 0, param)]).
  change (get_channel (set_dispatch_log l s0) chid) with (get_channel s0 chid).
  rewrite ramht_lookup_log, Hch. fold sub. rewrite Hl. cbn [default from_option id].
  set (x := set_engine eng (set_object obj sub)).
  set (s1 := put_channel chid (put_subch sc x (get_channel s chid)) (set_dispatch_log l s0)).
  change (engine x) with eng.
  assert (Hv0 : valid_chid (set_dispatch_log l s0) chid).
  { apply (valid_chid_channels s); [|exact Hv]. apply bind_save_notifier_channels. }
  assert (Hv1 : valid_chid s1 chid) by now apply valid_chid_put_channel.
  assert (G1 : get_channel s1 chid = put_subch sc x (get_channel s chid))
    by now apply get_put_channel_same.
  assert (S1 : get_subch (put_subch sc x (get_channel s chid)) sc = x)
    by now apply get_put_subch_same.
  assert (P1 : fifo_cache1_put s1 = fifo_cache1_put s) by exact Rput.
  destruct (eng =? 1) eqn:E1.
  - eexists. split; [reflexivity|]. unfold bind_load_notifier.
    rewrite G1, S1. rewrite get_put_channel_same by exact Hv1.
    rewrite get_put_subch_same by (rewrite schs_put_subch_length; exact Hsc).
    change (card_type s1) with (card_type s0). rewrite Rct.
    change (object x) with obj.
    change (geforce_ramin_read32 s1 ?a) with (geforce_ramin_read32 s0 a).
    split; [reflexivity|]. split; [reflexivity|]. split; [|exact P1].
    destruct (card_type s <? 64); reflexivity.
  - destruct (eng =? 0) eqn:E0.
    + eexists. split; [reflexivity|].
      unfold get_channel. rewrite software_method_push_channels. fold (get_channel s1 chid).
      rewrite G1, S1. split; [reflexivity|]. split; [reflexivity|]. split; [reflexivity|].
      destruct (software_method_push_spec s1 sc 0 param) as (_ & _ & _ & Hp).
      rewrite Hp, P1. reflexivity.
    + eexists. split; [reflexivity|]. rewrite G1, S1.
      split; [reflexivity|]. split; [reflexivity|]. split; [reflexivity|]. exact P1.
Qed.


(** X9. A bind that leaves the subchannel on the same engine-1 object (its
    handle is not resolved, or resolves to the object already bound)
    still passes the notifier through the second word of the object: it
    comes back with only bits 4 to 19 (older layout) or 4 to 23 (newer
    layout) of its former value when that word lies in device memory,
    and as 0 when it does not. *)
Theorem bind_same_object_masks_notifier pfuel s chid sc param :
  let s0 := bind_save_notifier s chid sc in
  let sub := get_subch (get_channel s chid) sc in
  valid_chid s chid -> (Z.to_nat sc < length (schs (get_channel s chid)))%nat ->
  engine sub = 1 -> 0 <= notifier sub < 2 ^ 32 ->
  geforce_ramht_lookup pfuel s0 param chid (Some (object sub)) (Some (engine sub))
  = Some (Some (object sub), Some (engine sub)) ->
  exists s',
    geforce_execute_command pfuel s chid sc 0 param = Some (s', true)
    /\ object (get_subch (get_channel s' chid) sc) = object sub
    /\ engine (get_subch (get_channel s' chid) sc) = 1
    /\ notifier (get_subch (get_channel s' chid) sc)
       = (if u32 (Z.lxor (u32 (object sub + 4)) (ramin_flip s) + 3) <? memsize s
          then Z.land (notifier sub) (if card_type s <? 0x40 then 0x000FFFF0 else 0x00FFFFF0)
          else 0).
Proof.
  intros s0 sub Hv Hsc He Hn Hl.
  destruct (execute_bind_spec pfuel s chid sc param (object sub) (engine sub) Hv Hsc Hl)
    as (s' & Ex & Ho & Heng & Hnfy & _).
  exists s'. split; [exact Ex|]. split; [exact Ho|]. split; [now rewrite Heng|].
  rewrite Hnfy. fold sub. rewrite He. cbn [Z.eqb Pos.eqb].
  unfold s0, bind_save_notifier. fold sub. rewrite He. cbn [Z.eqb Pos.eqb].
  set (a := u32 (object sub + 4)).
  set (w := geforce_ramin_read32 s a).
  assert (Hw : 0 <= w < 2 ^ 32).
  { unfold w, geforce_ramin_read32, geforce_vram_read32.
    destruct (u32 _ <? memsize s); [apply ldl_range | lia]. }
  destruct (u32 (Z.lxor a (ramin_flip s) + 3) <? memsize s) eqn:Hin.
  - destruct (card_type s <? 64).
    + destruct (notifier_field_nv20 w (notifier sub) Hw Hn) as (Hr & Hback & _).
      rewrite ramin_read_write_same by assumption. exact Hback.
    + destruct (notifier_field_nv40 w (notifier sub) Hw Hn) as (Hr & Hback).
      rewrite ramin_read_write_same by assumption. exact Hback.
  - assert (E0 : forall v, geforce_ramin_read32 (geforce_ramin_write32 s a v) a = 0).
    { intros v. unfold geforce_ramin_read32, geforce_ramin_write32, geforce_vram_write32.
      rewrite Hin. unfold geforce_vram_read32. now rewrite Hin. }
    destruct (card_type s <? 64); rewrite E0; reflexivity.
Qed.

End BindFacts.


Lemma bind_same_object_masks_notifier_witness :
  exists s', geforce_execute_command 512 bind_state 0 3 0 0xDEAD0001 = Some (s', true)
    /\ object (get_subch (get_channel s' 0) 3) = 0x2000
    /\ notifier (get_subch (get_channel s' 0) 3) = 0x45670.
Proof.
  destruct (bind_same_object_masks_notifier 512 bind_state 0 3 0xDEAD0001)
    as (s' & Ex & Ho & _ & Hn).
  - split; [lia | vm_compute; lia].
  - vm_compute. lia.
  - vm_compute. reflexivity.
  - vm_compute. split; [discriminate | reflexivity].
  - vm_compute. reflexivity.
  - exists s'. split; [exact Ex|]. split; [rewrite Ho; vm_compute; reflexivity|].
    rewrite Hn. vm_compute. reflexivity.
Defined.

(** ** The command decoder *)

Lemma land_zero_bit w m i : Z.land w m = 0 -> Z.testbit m i = true -> Z.testbit w i = false.
Proof.
  intros E Hm. apply (f_equal (fun x => Z.testbit x i)) in E.
  rewrite Z.land_spec, Hm, andb_true_r, Z.bits_0 in E. exact E.
Qed.

Lemma land_bit_ne w m v i :
  Z.testbit w i = false -> Z.testbit v i = true -> Z.land w m <> v.
Proof.
  intros Hw Hv E. apply (f_equal (fun x => Z.testbit x i)) in E.
  rewrite Z.land_spec, Hw, Hv in E. discriminate.
Qed.

Lemma bit_ne w v i : Z.testbit w i = false -> Z.testbit v i = true -> w <> v.
Proof. intros Hw Hv ->. congruence. Qed.

Section DecoderFacts.
Context {ClassRegs : Type} `{Inhabited ClassRegs} {ops : ClassOps ClassRegs}.
Implicit Types s : GeForceState ClassRegs.
Implicit Types c : GeForceChannel ClassRegs.

(** A word that passes the method-header test is none of the other four
    kinds of word. *)
Lemma header_word_exclusive w :
  Z.land w 0xa0030003 = 0 ->
  (Z.land w 0xe0000003 =? 0x20000000) = false /\ (Z.land w 3 =? 1) = false
  /\ (Z.land w 3 =? 2) = false /\ (w =? 0x00020000) = false.
Proof.
  intros Hh.
  pose proof (land_zero_bit w _ 29 Hh eq_refl) as B29.
  pose proof (land_zero_bit w _ 0 Hh eq_refl) as B0.
  pose proof (land_zero_bit w _ 1 Hh eq_refl) as B1.
  pose proof (land_zero_bit w _ 17 Hh eq_refl) as B17.
  repeat split; apply Z.eqb_neq.
  - apply (land_bit_ne w _ _ 29); [exact B29 | reflexivity].
  - apply (land_bit_ne w _ _ 0); [exact B0 | reflexivity].
  - apply (land_bit_ne w _ _ 1); [exact B1 | reflexivity].
  - apply (bit_ne w _ 17); [exact B17 | reflexivity].
Qed.

Lemma fifo_parse_header_is_header s chid w :
  Z.land w 0xa0030003 = 0 ->
  fifo_parse_header s chid w
  = put_channel chid
      (set_dma_state {| mthd := Z.land (Z.shiftr w 2) 0x7ff;
                        subc := Z.land (Z.shiftr w 13) 7;
                        mcnt := Z.land (Z.shiftr w 18) 0x7ff;
                        ni := nonzero (Z.land w 0x40000000) |} (get_channel s chid)) s.
Proof.
  intros Hh. destruct (header_word_exclusive w Hh) as (E1 & E2 & E3 & E4).
  unfold fifo_parse_header. rewrite E1, E2, E3, E4, Hh. reflexivity.
Qed.

(** X10. A fetched word that passes the method-header test
    [(word & 0xa0030003) == 0] is not taken for an old jump, a jump, a
    call or a return; with no parameter pending it sets the decode state
    of the channel to the method in bits 2 to 12, the subchannel in bits
    13 to 15, the count in bits 18 to 28 and the non-increment flag in bit
    30, all three numbers within their ranges.  The iteration dispatches
    nothing, moves the cursor one word on and leaves the subroutine state
    as it was. *)
Theorem fifo_header_decode pfuel s chid :
  let w := fifo_fetch s in
  valid_chid s chid -> mcnt (dma_state (get_channel s chid)) = 0 ->
  Z.land w 0xa0030003 = 0 ->
  exists s',
    fifo_step pfuel s chid = Some (s', false)
    /\ dma_state (get_channel s' chid)
       = {| mthd := Z.land (Z.shiftr w 2) 0x7ff; subc := Z.land (Z.shiftr w 13) 7;
            mcnt := Z.land (Z.shiftr w 18) 0x7ff; ni := nonzero (Z.land w 0x40000000) |}
    /\ 0 <= mthd (dma_state (get_channel s' chid)) < 0x800
    /\ 0 <= subc (dma_state (get_channel s' chid)) < GEFORCE_SUBCHANNEL_COUNT
    /\ 0 <= mcnt (dma_state (get_channel s' chid)) < 0x800
    /\ fifo_cache1_dma_get s' = u32 (fifo_cache1_dma_get s + 4)
    /\ dispatch_log s' = dispatch_log s
    /\ subr_active (get_channel s' chid) = subr_active (get_channel s chid)
    /\ subr_return (get_channel s' chid) = subr_return (get_channel s chid).
Proof.
  intros w Hv Hm Hh. eexists. split; [apply (fifo_step_header pfuel s chid Hm)|].
  fold w. rewrite (fifo_parse_header_is_header _ chid w Hh).
  rewrite get_put_channel_same by exact Hv.
  rewrite get_channel_set_dma_get.
  cbn [dma_state set_dma_state mthd subc mcnt subr_active subr_return].
  split; [reflexivity|].
  split; [apply (land_mask_range _ 11); lia|].
  split; [apply (land_mask_range _ 3); lia|].
  split; [apply (land_mask_range _ 11); lia|].
  repeat split.
Qed.

Lemma fifo_parse_header_subc s chid w :
  valid_chid s chid ->
  0 <= subc (dma_state (get_channel s chid)) < GEFORCE_SUBCHANNEL_COUNT ->
  0 <= subc (dma_state (get_channel (fifo_parse_header s chid w) chid))
    < GEFORCE_SUBCHANNEL_COUNT
  /\ valid_chid (fifo_parse_header s chid w) chid.
Proof.
  intros Hv Hs. unfold fifo_parse_header.
  destruct (_ =? 0x20000000); [split; [exact Hs | exact Hv]|].
  destruct (_ =? 1); [split; [exact Hs | exact Hv]|].
  destruct (_ =? 2).
  { destruct (subr_active _); [split; [exact Hs | exact Hv]|].
    split; [|now apply valid_chid_put_channel].
    rewrite get_channel_set_dma_get.
    rewrite get_put_channel_same by exact Hv. exact Hs. }
  destruct (_ =? 0x00020000).
  { destruct (negb _); [split; [exact Hs | exact Hv]|].
    split; [|now apply valid_chid_put_channel].
    rewrite get_put_channel_same by exact Hv. exact Hs. }
  destruct (_ =? 0); [|split; [exact Hs | exact Hv]].
  split; [|now apply valid_chid_put_channel].
  rewrite get_put_channel_same by exact Hv.
  cbn [dma_state set_dma_state subc]. apply (land_mask_range _ 3). lia.
Qed.


End DecoderFacts.

Lemma fifo_header_decode_witness :
  exists s', fifo_step 0 header_ring_state 0 = Some (s', false)
    /\ dma_state (get_channel s' 0) = {| mthd := 0x100; subc := 2; mcnt := 3; ni := false |}.
Proof.
  destruct (fifo_header_decode 0 header_ring_state 0) as (s' & Es & Hd & _).
  - split; [lia | vm_compute; lia].
  - vm_compute. reflexivity.
  - vm_compute. reflexivity.
  - exists s'. split; [exact Es|]. rewrite Hd. vm_compute. reflexivity.
Defined.


(** ** Runs of parameters, subroutines and the alignment of the cursor *)

Lemma land_eq_bit w m v i : Z.land w m = v -> Z.testbit v i = true -> Z.testbit w i = true.
Proof.
  intros E Hv. apply (f_equal (fun x => Z.testbit x i)) in E.
  rewrite Z.land_spec, Hv in E. now apply andb_true_iff in E.
Qed.

Lemma mod4_land x : x mod 4 = Z.land x 3.
Proof. change 3 with (Z.ones 2). rewrite Z.land_ones by lia. reflexivity. Qed.

Lemma land_land_mod4 w m : Z.land w m mod 4 = Z.land w (Z.land m 3).
Proof. now rewrite mod4_land, Z.land_assoc. Qed.

Section RunFacts.
Context {ClassRegs : Type} `{Inhabited ClassRegs} {ops : ClassOps ClassRegs}.
Implicit Types s : GeForceState ClassRegs.
Implicit Types c : GeForceChannel ClassRegs.

Lemma fifo_parse_header_ramht s chid w :
  fifo_ramht (fifo_parse_header s chid w) = fifo_ramht s.
Proof.
  unfold fifo_parse_header.
  repeat match goal with |- context [if ?b then _ else _] => destruct b end; reflexivity.
Qed.

Lemma fifo_step_ramht pfuel s chid s' brk :
  fifo_step pfuel s chid = Some (s', brk) -> fifo_ramht s' = fifo_ramht s.
Proof.
  unfold fifo_step. intros E. destruct (nonzero _).
  - destruct (geforce_execute_command _ _ _ _ _ _) as [[s1 ok]|] eqn:Ex; [|discriminate].
    apply execute_command_frame in Ex.
    destruct Ex as [-> (_ & _ & _ & _ & Fr & _)].
    injection E as <- _. exact Fr.
  - injection E as <- _. now rewrite fifo_parse_header_ramht.
Qed.

(** The subroutine state of the channel over an iteration that dispatches
    a parameter. *)
Lemma fifo_step_dispatch_subr pfuel s chid s' brk :
  valid_chid s chid -> mcnt (dma_state (get_channel s chid)) <> 0 ->
  fifo_step pfuel s chid = Some (s', brk) ->
  subr_active (get_channel s' chid) = subr_active (get_channel s chid)
  /\ subr_return (get_channel s' chid) = subr_return (get_channel s chid).
Proof.
  intros Hv Hm E. unfold fifo_step in E.
  change (get_channel (set_fifo_cache1_dma_get (u32 (fifo_cache1_dma_get s + 4)) s) chid)
    with (get_channel s chid) in E.
  assert (nonzero (mcnt (dma_state (get_channel s chid))) = true) as Hnz by now apply nonzero_true.
  rewrite Hnz in E.
  destruct (geforce_execute_command _ _ _ _ _ _) as [[s1 ok]|] eqn:Ex; [|discriminate].
  apply execute_command_frame in Ex. destruct Ex as [-> F].
  injection E as <- <-.
  destruct F as (_ & _ & _ & _ & _ & _ & _ & _ & _ & _ & _ & _ & Flen & Fch).
  assert (Hv1 : valid_chid s1 chid).
  { destruct Hv as [Hv0 Hv1]. split; [exact Hv0|]. rewrite Flen. exact Hv1. }
  specialize (Fch chid). unfold pull_state in Fch. injection Fch as _ Fr Fa.
  change (get_channel (set_dispatch_log _ _) chid) with (get_channel s chid) in Fr, Fa.
  rewrite get_put_channel_same by exact Hv1.
  cbn [subr_active subr_return set_dma_state]. split; assumption.
Qed.

(** A run of [n] pending parameters. *)
Lemma fifo_run_dispatches pfuel chid (n : nat) : forall s,
  valid_chid s chid ->
  ramht_bits s <= 28 -> 2 ^ ramht_bits s <= Z.of_nat pfuel ->
  mcnt (dma_state (get_channel s chid)) = Z.of_nat n -> Z.of_nat n < 2 ^ 32 ->
  0 <= mthd (dma_state (get_channel s chid)) < 2 ^ 32 ->
  0 <= fifo_cache1_dma_get s < 2 ^ 32 ->
  (forall k, 0 <= k < Z.of_nat n ->
     u32 (fifo_cache1_dma_get s + 4 * k) <> fifo_cache1_dma_put s) ->
  exists s' params,
    fifo_iter pfuel n s chid = Some s'
    /\ length params = n
    /\ dispatch_log s'
       = dispatch_log s
         ++ imap (fun i p => (chid, subc (dma_state (get_channel s chid)),
                              if ni (dma_state (get_channel s chid))
                              then mthd (dma_state (get_channel s chid))
                              else u32 (mthd (dma_state (get_channel s chid)) + Z.of_nat i),
                              p)) params
    /\ dma_state (get_channel s' chid)
       = {| mthd := if ni (dma_state (get_channel s chid))
                    then mthd (dma_state (get_channel s chid))
                    else u32 (mthd (dma_state (get_channel s chid)) + Z.of_nat n);
            subc := subc (dma_state (get_channel s chid)); mcnt := 0;
            ni := ni (dma_state (get_channel s chid)) |}
    /\ fifo_cache1_dma_get s' = u32 (fifo_cache1_dma_get s + 4 * Z.of_nat n)
    /\ fifo_cache1_dma_put s' = fifo_cache1_dma_put s.
Proof.
  induction n as [|n IH]; intros s Hv Hb Hf Hm Hn Hmt Hg Hput.
  - exists s, []. split; [reflexivity|]. split; [reflexivity|].
    split; [cbn [imap]; now rewrite app_nil_r|].
    split; [|split; [|reflexivity]].
    + destruct (dma_state (get_channel s chid)) as [m sc c b]. cbn [mthd subc mcnt ni] in *.
      rewrite Z.add_0_r, u32_small by lia. subst c. destruct b; reflexivity.
    + rewrite Z.mul_0_r, Z.add_0_r, u32_small by lia. reflexivity.
  - assert (Hm0 : mcnt (dma_state (get_channel s chid)) <> 0) by lia.
    assert (Hne : fifo_cache1_dma_get s <> fifo_cache1_dma_put s).
    { specialize (Hput 0 ltac:(lia)). rewrite Z.mul_0_r, Z.add_0_r, u32_small in Hput by lia.
      exact Hput. }
    destruct (fifo_step_returns pfuel s chid Hb Hf) as (s1 & Es).
    destruct (fifo_step_dispatch pfuel s chid s1 false Hv Hm0 Es)
      as (_ & Hg1 & Hp1 & Hl1 & Hd1 & Hv1).
    pose proof (fifo_step_ramht pfuel s chid s1 false Es) as Hr1.
    assert (Hb1 : ramht_bits s1 = ramht_bits s) by (unfold ramht_bits; now rewrite Hr1).
    set (st := dma_state (get_channel s chid)) in *.
    assert (Hst1 : dma_state (get_channel s1 chid)
                   = {| mthd := if ni st then mthd st else u32 (mthd st + 1);
                        subc := subc st; mcnt := Z.of_nat n; ni := ni st |}).
    { rewrite Hd1. rewrite Hm.
      replace (Z.of_nat (S n) - 1) with (Z.of_nat n) by lia. rewrite (u32_small (Z.of_nat n)) by lia.
      destruct st as [m sc c b]. cbn [mthd subc mcnt ni]. destruct b; reflexivity. }
    destruct (IH s1) as (s' & params & Hit & Hlen & Hlog & Hds & Hget & Hputs).
    + exact Hv1.
    + now rewrite Hb1.
    + now rewrite Hb1.
    + rewrite Hst1. reflexivity.
    + lia.
    + rewrite Hst1. cbn [mthd]. destruct (ni st); [exact Hmt | apply u32_range].
    + rewrite Hg1. apply u32_range.
    + intros k Hk. rewrite Hg1, Hp1, u32_add_l.
      replace (fifo_cache1_dma_get s + 4 + 4 * k) with (fifo_cache1_dma_get s + 4 * (k + 1)) by lia.
      apply Hput. lia.
    + rewrite Hst1 in Hlog, Hds. cbn [mthd subc mcnt ni] in Hlog, Hds.
      exists s', (fifo_fetch s :: params).
      split; [|split; [|split; [|split; [|split]]]].
      * cbn [fifo_iter]. apply Z.eqb_neq in Hne. rewrite Hne, Es. exact Hit.
      * cbn [length]. now rewrite Hlen.
      * rewrite Hlog, Hl1, <- app_assoc. f_equal. cbn [imap app]. f_equal.
        { rewrite Z.add_0_r, u32_small by lia. destruct (ni st); reflexivity. }
        apply imap_ext. intros i p _. cbn [compose]. unfold compose.
        destruct (ni st); [reflexivity|].
        rewrite u32_add_l. do 3 f_equal. lia.
      * rewrite Hds. destruct (ni st); [reflexivity|].
        rewrite u32_add_l. do 2 f_equal. lia.
      * rewrite Hget, Hg1, u32_add_l. f_equal. lia.
      * now rewrite Hputs.
Qed.


End RunFacts.


Section SubroutineFacts.
Context {ClassRegs : Type} `{Inhabited ClassRegs} {ops : ClassOps ClassRegs}.
Implicit Types s t : GeForceState ClassRegs.
Implicit Types c : GeForceChannel ClassRegs.

(** A call word is neither an old jump nor a jump. *)
Lemma call_word_exclusive w :
  Z.land w 3 = 2 ->
  (Z.land w 0xe0000003 =? 0x20000000) = false /\ (Z.land w 3 =? 1) = false.
Proof.
  intros Hc. pose proof (land_eq_bit w 3 2 1 Hc eq_refl) as B1. split; apply Z.eqb_neq.
  - intros E. apply (f_equal (fun x => Z.testbit x 1)) in E.
    rewrite Z.land_spec, B1 in E. discriminate.
  - rewrite Hc. discriminate.
Qed.

(** X13. Subroutines of the ring.  A call word fetched while no
    subroutine is active moves the cursor to its target (the word with
    its two low bits cleared), records the address of the word after the
    call and marks the subroutine active; a return word fetched while a
    subroutine is active moves the cursor to the recorded address and
    clears the mark, so that the ring resumes behind the call.  A call
    inside a subroutine and a return outside one are skipped: the cursor
    goes one word on and nothing else changes. *)
Theorem fifo_call_and_return pfuel s t chid :
  valid_chid s chid -> mcnt (dma_state (get_channel s chid)) = 0 ->
  Z.land (fifo_fetch s) 3 = 2 ->
  valid_chid t chid -> mcnt (dma_state (get_channel t chid)) = 0 ->
  fifo_fetch t = 0x00020000 ->
  (subr_active (get_channel s chid) = false ->
   exists s1, fifo_step pfuel s chid = Some (s1, false)
     /\ fifo_cache1_dma_get s1 = Z.land (fifo_fetch s) 0xfffffffc
     /\ subr_active (get_channel s1 chid) = true
     /\ subr_return (get_channel s1 chid) = u32 (fifo_cache1_dma_get s + 4))
  /\ (subr_active (get_channel s chid) = true ->
      fifo_step pfuel s chid
      = Some (set_fifo_cache1_dma_get (u32 (fifo_cache1_dma_get s + 4)) s, false))
  /\ (subr_active (get_channel t chid) = true ->
      exists t1, fifo_step pfuel t chid = Some (t1, false)
        /\ fifo_cache1_dma_get t1 = subr_return (get_channel t chid)
        /\ subr_active (get_channel t1 chid) = false)
  /\ (subr_active (get_channel t chid) = false ->
      fifo_step pfuel t chid
      = Some (set_fifo_cache1_dma_get (u32 (fifo_cache1_dma_get t + 4)) t, false)).
Proof.
  intros Hvs Hms Hcall Hvt Hmt Hret.
  destruct (call_word_exclusive _ Hcall) as (E1 & E2).
  assert (R1 : (Z.land 0x00020000 0xe0000003 =? 0x20000000) = false) by reflexivity.
  assert (R2 : (Z.land 0x00020000 3 =? 1) = false) by reflexivity.
  assert (R3 : (Z.land 0x00020000 3 =? 2) = false) by reflexivity.
  assert (R4 : (0x00020000 =? 0x00020000) = true) by reflexivity.
  split; [|split; [|split]].
  - intros Ha. eexists. split; [apply (fifo_step_header pfuel s chid Hms)|].
    unfold fifo_parse_header. rewrite E1, E2, Hcall, get_channel_set_dma_get, Ha.
    cbn [Z.eqb Pos.eqb].
    rewrite get_channel_set_dma_get.
    rewrite get_put_channel_same by exact Hvs.
    cbn [subr_active subr_return set_subr_active set_subr_return]. repeat split.
  - intros Ha. rewrite (fifo_step_header pfuel s chid Hms).
    unfold fifo_parse_header. rewrite E1, E2, Hcall, get_channel_set_dma_get, Ha. reflexivity.
  - intros Ha. eexists. split; [apply (fifo_step_header pfuel t chid Hmt)|].
    unfold fifo_parse_header. rewrite Hret, get_channel_set_dma_get, Ha, R1, R2, R3, R4.
    cbn [negb].
    rewrite get_put_channel_same by exact Hvt.
    cbn [subr_active set_subr_active]. split; reflexivity.
  - intros Ha. rewrite (fifo_step_header pfuel t chid Hmt).
    unfold fifo_parse_header. rewrite Hret, get_channel_set_dma_get, Ha, R1, R2, R3, R4.
    reflexivity.
Qed.

Lemma fifo_parse_header_aligned s chid w :
  valid_chid s chid -> cursor_aligned s chid ->
  cursor_aligned (fifo_parse_header s chid w) chid.
Proof.
  intros Hv [Hg Hr]. unfold fifo_parse_header.
  destruct (Z.eqb_spec (Z.land w 0xe0000003) 0x20000000) as [Eo|_].
  { split; [|exact Hr]. cbn [fifo_cache1_dma_get set_fifo_cache1_dma_get].
    rewrite land_land_mod4. change (Z.land 536870911 3) with 3.
    apply (f_equal (fun x => Z.land x 3)) in Eo.
    rewrite <- Z.land_assoc in Eo. exact Eo. }
  destruct (Z.land w 3 =? 1).
  { split; [|exact Hr]. cbn [fifo_cache1_dma_get set_fifo_cache1_dma_get].
    rewrite land_land_mod4. change (Z.land 4294967292 3) with 0. apply Z.land_0_r. }
  destruct (Z.land w 3 =? 2).
  { destruct (subr_active (get_channel s chid)) eqn:Ha;
      [split; [exact Hg | intros _; now apply Hr]|].
    split.
    - cbn [fifo_cache1_dma_get set_fifo_cache1_dma_get].
      rewrite land_land_mod4. change (Z.land 4294967292 3) with 0. apply Z.land_0_r.
    - intros _. rewrite get_channel_set_dma_get, get_put_channel_same by exact Hv.
      cbn [subr_return set_subr_active set_subr_return]. exact Hg. }
  destruct (w =? 0x00020000).
  { destruct (subr_active (get_channel s chid)) eqn:Ha; cbn [negb];
      [|split; [exact Hg | intros Hx; rewrite Ha in Hx; discriminate Hx]].
    split.
    - change (fifo_cache1_dma_get (put_channel ?j ?c ?x)) with (fifo_cache1_dma_get x).
      cbn [fifo_cache1_dma_get set_fifo_cache1_dma_get]. now apply Hr.
    - intros Hx. rewrite get_put_channel_same in Hx by exact Hv. discriminate Hx. }
  destruct (_ =? 0); [|split; [exact Hg | exact Hr]].
  split; [exact Hg|].
  rewrite get_put_channel_same by exact Hv. cbn [subr_active subr_return set_dma_state]. exact Hr.
Qed.

Lemma fifo_parse_header_valid s chid w :
  valid_chid s chid -> valid_chid (fifo_parse_header s chid w) chid.
Proof.
  intros Hv. unfold fifo_parse_header.
  repeat match goal with |- context [if ?b then _ else _] => destruct b end;
    try exact Hv; now apply valid_chid_put_channel.
Qed.

Lemma fifo_step_aligned pfuel s chid s' brk :
  valid_chid s chid -> cursor_aligned s chid ->
  fifo_step pfuel s chid = Some (s', brk) ->
  cursor_aligned s' chid /\ valid_chid s' chid.
Proof.
  intros Hv [Hg Hr] E.
  assert (Hg4 : u32 (fifo_cache1_dma_get s + 4) mod 4 = 0).
  { rewrite u32_mod4. replace (fifo_cache1_dma_get s + 4) with (fifo_cache1_dma_get s + 1 * 4) by lia.
    now rewrite Z.mod_add by lia. }
  destruct (Z.eq_dec (mcnt (dma_state (get_channel s chid))) 0) as [Hm|Hm].
  - rewrite (fifo_step_header pfuel s chid Hm) in E. injection E as <- _.
    assert (Hv2 : valid_chid (set_fifo_cache1_dma_get (u32 (fifo_cache1_dma_get s + 4)) s) chid)
      by exact Hv.
    split.
    + apply fifo_parse_header_aligned; [exact Hv2|].
      split; [exact Hg4|]. rewrite get_channel_set_dma_get. exact Hr.
    + apply fifo_parse_header_valid. exact Hv2.
  - destruct (fifo_step_dispatch pfuel s chid s' brk Hv Hm E) as (_ & Hg1 & _ & _ & _ & Hv').
    destruct (fifo_step_dispatch_subr pfuel s chid s' brk Hv Hm E) as (Ha & Hret).
    split; [|exact Hv']. split; [now rewrite Hg1|]. rewrite Ha, Hret. exact Hr.
Qed.

(** With a put cursor that is not word aligned the loop never finds the
    two cursors equal. *)
Lemma fifo_loop_misaligned pfuel chid (fuel : nat) : forall s,
  valid_chid s chid -> cursor_aligned s chid -> fifo_cache1_dma_put s mod 4 <> 0 ->
  fifo_loop pfuel fuel s chid = None.
Proof.
  induction fuel as [|fuel IH]; intros s Hv Hal Hp; [reflexivity|].
  cbn [fifo_loop].
  destruct (Z.eqb_spec (fifo_cache1_dma_get s) (fifo_cache1_dma_put s)) as [E|_].
  { exfalso. apply Hp. rewrite <- E. apply Hal. }
  destruct (fifo_step pfuel s chid) as [[s1 brk]|] eqn:Es; [|reflexivity].
  pose proof (fifo_step_never_breaks _ _ _ _ _ Es) as ->.
  destruct (fifo_step_aligned pfuel s chid s1 false Hv Hal Es) as (Hal1 & Hv1).
  apply IH; [exact Hv1 | exact Hal1|].
  now rewrite (fifo_step_put _ _ _ _ _ Es).
Qed.


(** X15. The loop of [geforce_fifo_process] compares the cursors for
    equality only: with a word-aligned get cursor and a put cursor that
    is not a multiple of four, no amount of fuel makes the loop return,
    and neither does [geforce_fifo_process] on the active channel. *)
Theorem fifo_misaligned_put_never_drains pfuel s chid :
  valid_chid s chid -> cursor_aligned s chid -> fifo_cache1_dma_put s mod 4 <> 0 ->
  (forall fuel, fifo_loop pfuel fuel s chid = None)
  /\ (Z.land (fifo_cache1_push1 s) 0x1F = chid ->
      forall fuel, geforce_fifo_process pfuel fuel s chid = None).
Proof.
  intros Hv Hal Hp. split.
  - intros fuel. now apply fifo_loop_misaligned.
  - intros Hc fuel. unfold geforce_fifo_process, fifo_idle, fifo_context_switch.
    rewrite Hc, Z.eqb_refl. cbn [negb].
    destruct (Z.eqb_spec (fifo_cache1_dma_put s) (fifo_cache1_dma_get s)) as [E|_].
    + exfalso. apply Hp. rewrite E. apply Hal.
    + now apply fifo_loop_misaligned.
Qed.

End SubroutineFacts.

Lemma fifo_call_and_return_witness :
  exists s1 s2,
    fifo_step 0 call_ring_state 0 = Some (s1, false)
    /\ fifo_cache1_dma_get s1 = 8
    /\ fifo_step 0 s1 0 = Some (s2, false)
    /\ fifo_cache1_dma_get s2 = 4
    /\ subr_active (get_channel s2 0) = false.
Proof.
  destruct (fifo_step 0 call_ring_state 0) as [[s1 b1]|] eqn:E1;
    [|vm_compute in E1; discriminate].
  assert (Hg1 : fifo_cache1_dma_get s1 = 8
                /\ subr_active (get_channel s1 0) = true
                /\ subr_return (get_channel s1 0) = 4
                /\ fifo_fetch s1 = 0x00020000
                /\ mcnt (dma_state (get_channel s1 0)) = 0
                /\ length (channels s1) = 32%nat /\ b1 = false).
  { vm_compute in E1. injection E1 as <- <-. vm_compute. repeat split. }
  destruct Hg1 as (Hg1 & Ha1 & Hr1 & Hf1 & Hm1 & Hl1 & ->).
  destruct (fifo_call_and_return 0 call_ring_state s1 0) as (_ & _ & Hret & _).
  - split; [lia | vm_compute; lia].
  - vm_compute. reflexivity.
  - vm_compute. reflexivity.
  - split; [lia | rewrite Hl1; vm_compute; lia].
  - exact Hm1.
  - exact Hf1.
  - destruct (Hret Ha1) as (s2 & E2 & Hg2 & Ha2).
    exists s1, s2. split; [reflexivity|]. split; [exact Hg1|]. split; [exact E2|].
    split; [now rewrite Hg2, Hr1 | exact Ha2].
Defined.


Lemma fifo_misaligned_put_never_drains_witness :
  fifo_cache1_dma_put misaligned_put_state = 6
  /\ forall fuel, geforce_fifo_process 0 fuel misaligned_put_state 0 = None.
Proof.
  split; [vm_compute; reflexivity|].
  apply (fifo_misaligned_put_never_drains 0 misaligned_put_state 0).
  - split; [lia | vm_compute; lia].
  - split; [vm_compute; reflexivity | vm_compute; discriminate].
  - vm_compute. discriminate.
  - vm_compute. reflexivity.
Defined.

(** ** Interrupts *)

Section InterruptFacts.
Context {ClassRegs : Type} `{Inhabited ClassRegs} {ops : ClassOps ClassRegs}.
Implicit Types s : GeForceState ClassRegs.

Lemma update_irq_sources s :
  bus_intr (geforce_update_irq s) = bus_intr s
  /\ bus_intr_en (geforce_update_irq s) = bus_intr_en s
  /\ fifo_intr (geforce_update_irq s) = fifo_intr s
  /\ fifo_intr_en (geforce_update_irq s) = fifo_intr_en s
  /\ graph_intr (geforce_update_irq s) = graph_intr s
  /\ graph_intr_en (geforce_update_irq s) = graph_intr_en s
  /\ crtc_intr (geforce_update_irq s) = crtc_intr s
  /\ crtc_intr_en (geforce_update_irq s) = crtc_intr_en s
  /\ mc_intr_en (geforce_update_irq s) = mc_intr_en s.
Proof. repeat split. Qed.

Lemma update_irq_level_eq s :
  irq_level (geforce_update_irq s)
  = nonzero (geforce_mmio_read_pmc_intr s) && nonzero (Z.land (mc_intr_en s) 1).
Proof. reflexivity. Qed.

Lemma pmc_intr_nonzero s :
  nonzero (geforce_mmio_read_pmc_intr s)
  = nonzero (Z.land (bus_intr s) (bus_intr_en s))
    || nonzero (Z.land (fifo_intr s) (fifo_intr_en s))
    || nonzero (Z.land (graph_intr s) (graph_intr_en s))
    || nonzero (Z.land (crtc_intr s) (crtc_intr_en s)).
Proof.
  unfold geforce_mmio_read_pmc_intr.
  destruct (nonzero (Z.land (bus_intr s) (bus_intr_en s)));
    destruct (nonzero (Z.land (fifo_intr s) (fifo_intr_en s)));
    destruct (nonzero (Z.land (graph_intr s) (graph_intr_en s)));
    destruct (nonzero (Z.land (crtc_intr s) (crtc_intr_en s))); reflexivity.
Qed.

(** X16. [geforce_update_irq] raises the interrupt line exactly when bit 0
    of the master enable PMC_INTR_EN is set and one of the four sources
    (bus, FIFO, graphics, CRTC) has a pending bit that is enabled; the
    level is the one a read of PMC_INTR reports as non-zero, each source
    having its own bit there (28, 8, 12 and 24).  The function writes
    nothing but the line, and calling it twice is calling it once. *)
Theorem update_irq_level s :
  let s' := geforce_update_irq s in
  irq_level s'
  = nonzero (geforce_mmio_read_pmc_intr s) && nonzero (Z.land (mc_intr_en s) 1)
  /\ (irq_level s' = true <->
      Z.land (mc_intr_en s) 1 <> 0
      /\ (Z.land (bus_intr s) (bus_intr_en s) <> 0
          \/ Z.land (fifo_intr s) (fifo_intr_en s) <> 0
          \/ Z.land (graph_intr s) (graph_intr_en s) <> 0
          \/ Z.land (crtc_intr s) (crtc_intr_en s) <> 0))
  /\ Z.testbit (geforce_mmio_read_pmc_intr s) 28 = nonzero (Z.land (bus_intr s) (bus_intr_en s))
  /\ Z.testbit (geforce_mmio_read_pmc_intr s) 8 = nonzero (Z.land (fifo_intr s) (fifo_intr_en s))
  /\ Z.testbit (geforce_mmio_read_pmc_intr s) 12
     = nonzero (Z.land (graph_intr s) (graph_intr_en s))
  /\ Z.testbit (geforce_mmio_read_pmc_intr s) 24
     = nonzero (Z.land (crtc_intr s) (crtc_intr_en s))
  /\ geforce_mmio_read_pmc_intr s' = geforce_mmio_read_pmc_intr s
  /\ geforce_update_irq s' = s'.
Proof.
  intros s'. split; [apply update_irq_level_eq|]. split.
  - unfold s'. rewrite update_irq_level_eq, pmc_intr_nonzero, andb_true_iff, !orb_true_iff,
      !nonzero_true. tauto.
  - unfold geforce_mmio_read_pmc_intr.
    repeat split;
      try (destruct (nonzero (Z.land (bus_intr s) (bus_intr_en s)));
           destruct (nonzero (Z.land (fifo_intr s) (fifo_intr_en s)));
           destruct (nonzero (Z.land (graph_intr s) (graph_intr_en s)));
           destruct (nonzero (Z.land (crtc_intr s) (crtc_intr_en s))); reflexivity).
Qed.

Lemma land_lnot_clears x v : Z.land (Z.land x (Z.lnot v)) v = 0.
Proof.
  apply Z.bits_inj'. intros i Hi.
  rewrite !Z.land_spec, Z.lnot_spec, Z.bits_0 by lia.
  destruct (Z.testbit x i), (Z.testbit v i); reflexivity.
Qed.

Lemma land_lnot_range x v : 0 <= x < 2 ^ 32 -> u32 (Z.land x (Z.lnot v)) = Z.land x (Z.lnot v).
Proof. intros Hx. apply u32_small. now apply land_range_l. Qed.

(** X17. PFIFO_INTR is write-one-to-clear: a write of [val] clears the
    bits of [val] in the pending word and leaves the others, and a read
    returns the new word.  The line is re-evaluated: once every pending
    FIFO bit that is enabled has been acknowledged and no other source is
    pending, it is low. *)
Theorem fifo_intr_write_one_to_clear s val :
  0 <= fifo_intr s < 2 ^ 32 ->
  exists s',
    geforce_mmio_write_intr s 0x002100 val = Some s'
    /\ fifo_intr s' = Z.land (fifo_intr s) (Z.lnot val)
    /\ Z.land (fifo_intr s') val = 0
    /\ (forall i, 0 <= i -> Z.testbit val i = false ->
          Z.testbit (fifo_intr s') i = Z.testbit (fifo_intr s) i)
    /\ geforce_mmio_read_intr s' 0x002100 = Some (fifo_intr s')
    /\ (Z.land (Z.land (fifo_intr s) (Z.lnot val)) (fifo_intr_en s) = 0 ->
        Z.land (bus_intr s) (bus_intr_en s) = 0 ->
        Z.land (graph_intr s) (graph_intr_en s) = 0 ->
        Z.land (crtc_intr s) (crtc_intr_en s) = 0 ->
        irq_level s' = false).
Proof.
  intros Hr. eexists. split; [reflexivity|].
  assert (E : fifo_intr (geforce_update_irq
                           (set_fifo_intr (u32 (Z.land (fifo_intr s) (Z.lnot val))) s))
              = Z.land (fifo_intr s) (Z.lnot val)).
  { destruct (update_irq_sources
                (set_fifo_intr (u32 (Z.land (fifo_intr s) (Z.lnot val))) s))
      as (_ & _ & -> & _).
    cbn [fifo_intr set_fifo_intr]. now apply land_lnot_range. }
  split; [exact E|]. split; [rewrite E; apply land_lnot_clears|]. split; [|split].
  - intros i Hi Hv. rewrite E, Z.land_spec, Z.lnot_spec, Hv by lia. apply andb_true_r.
  - reflexivity.
  - intros Hf Hb Hg Hc. rewrite update_irq_level_eq, pmc_intr_nonzero.
    cbn [bus_intr bus_intr_en fifo_intr fifo_intr_en graph_intr graph_intr_en crtc_intr
           crtc_intr_en mc_intr_en set_fifo_intr].
    rewrite land_lnot_range by exact Hr. rewrite Hf, Hb, Hg, Hc. reflexivity.
Qed.

Lemma lor_one_clear c : 0 <= c < 2 ^ 32 -> Z.testbit c 0 = false ->
  u32 (Z.land (Z.lor c 1) (Z.lnot 1)) = c.
Proof.
  intros Hc Hb.
  assert (E : Z.land (Z.lor c 1) (Z.lnot 1) = c).
  { apply Z.bits_inj'. intros i Hi.
    rewrite Z.land_spec, Z.lor_spec, Z.lnot_spec by lia.
    destruct (Z.eq_dec i 0) as [->|Hi0].
    - rewrite Hb. reflexivity.
    - rewrite (Z.bits_above_log2 1 i) by (simpl; lia).
      cbn [negb]. now rewrite orb_false_r, andb_true_r. }
  rewrite E. now apply u32_small.
Qed.


End InterruptFacts.

Lemma fifo_intr_write_one_to_clear_witness :
  exists s', geforce_mmio_write_intr (set_fifo_intr 0x11 software_ring_state) 0x002100 0x1
             = Some s'
    /\ fifo_intr s' = 0x10.
Proof.
  destruct (fifo_intr_write_one_to_clear (set_fifo_intr 0x11 software_ring_state) 0x1)
    as (s' & E & Hf & _).
  - vm_compute. split; [discriminate | reflexivity].
  - exists s'. split; [exact E|]. rewrite Hf. vm_compute. reflexivity.
Defined.


(** ** The software-method queue *)

Section QueueFacts.
Context {ClassRegs : Type} `{Inhabited ClassRegs} {ops : ClassOps ClassRegs}.
Implicit Types s : GeForceState ClassRegs.

Lemma software_method_push_regs s sc method param :
  let s' := software_method_push s sc method param in
  fifo_cache1_get s' = fifo_cache1_get s
  /\ fifo_cache1_pull0 s' = Z.lor (fifo_cache1_pull0 s) 0x00000100
  /\ length (fifo_cache1_data s') = length (fifo_cache1_data s)
  /\ length (fifo_cache1_method s') = length (fifo_cache1_method s).
Proof.
  unfold software_method_push.
  destruct (_ =? _); cbn [fifo_cache1_get fifo_cache1_pull0 fifo_cache1_data fifo_cache1_method
                            set_fifo_cache1_put set_fifo_cache1_data set_fifo_cache1_method
                            set_fifo_cache1_pull0 geforce_update_irq set_irq_level set_fifo_intr];
    rewrite !length_insert; repeat split.
Qed.

Lemma software_method_push_put s sc method param :
  fifo_cache1_put s mod 4 = 0 -> 0 <= fifo_cache1_put s < GEFORCE_CACHE1_SIZE * 4 ->
  fifo_cache1_put (software_method_push s sc method param)
  = (fifo_cache1_put s + 4) mod (GEFORCE_CACHE1_SIZE * 4).
Proof.
  intros Ha Hr. destruct (software_method_push_spec s sc method param) as (_ & _ & _ & ->).
  change (GEFORCE_CACHE1_SIZE * 4) with 256 in *.
  rewrite u32_small by lia.
  destruct (Z.eqb_spec (fifo_cache1_put s + 4) 256) as [E|E].
  - rewrite E. reflexivity.
  - assert (fifo_cache1_put s + 4 < 256).
    { pose proof (Z_div_mod_eq_full (fifo_cache1_put s) 4). lia. }
    now rewrite Z.mod_small by lia.
Qed.

(** X19. The software-method handshake.  A push onto a queue whose put
    cursor is in range sets bit 0 of the FIFO interrupt word and bit 8 of
    PULL0 and moves the put cursor, so that a queue that was empty
    ([get == put], status 0x10) reads as non-empty (status 0).  When the
    host then writes the new put cursor to PFIFO_CACHE1_GET, the queue is
    empty again and both bits are cleared. *)
Theorem software_method_handshake s sc method param :
  fifo_cache1_put s mod 4 = 0 -> 0 <= fifo_cache1_put s < GEFORCE_CACHE1_SIZE * 4 ->
  let s1 := software_method_push s sc method param in
  let s2 := geforce_mmio_write_cache1_get s1 (fifo_cache1_put s1) in
  Z.testbit (fifo_intr s1) 0 = true /\ Z.testbit (fifo_cache1_pull0 s1) 8 = true
  /\ fifo_cache1_put s1 <> fifo_cache1_put s
  /\ (fifo_cache1_get s = fifo_cache1_put s ->
      geforce_mmio_read_cache1_status s = 0x10 /\ geforce_mmio_read_cache1_status s1 = 0)
  /\ fifo_cache1_get s2 = fifo_cache1_put s2
  /\ Z.testbit (fifo_intr s2) 0 = false /\ Z.testbit (fifo_cache1_pull0 s2) 8 = false
  /\ geforce_mmio_read_cache1_status s2 = 0x10.
Proof.
  intros Ha Hr s1 s2.
  destruct (software_method_push_spec s sc method param) as (Hi & _ & _ & _).
  destruct (software_method_push_regs s sc method param) as (Hg & Hp0 & _).
  pose proof (software_method_push_put s sc method param Ha Hr) as Hput.
  fold s1 in Hi, Hg, Hp0, Hput. clearbody s1.
  change (GEFORCE_CACHE1_SIZE * 4) with 256 in *.
  assert (Hr1 : 0 <= fifo_cache1_put s1 < 256) by (rewrite Hput; apply Z.mod_pos_bound; lia).
  assert (Hne : fifo_cache1_put s1 <> fifo_cache1_put s).
  { rewrite Hput. destruct (Z.eq_dec (fifo_cache1_put s + 4) 256) as [E|E].
    - rewrite E. change (256 mod 256) with 0. lia.
    - assert (fifo_cache1_put s + 4 < 256) by (pose proof (Z_div_mod_eq_full (fifo_cache1_put s) 4); lia).
      rewrite Z.mod_small by lia. lia. }
  split; [rewrite Hi, Z.lor_spec; apply orb_true_r|].
  split; [rewrite Hp0, Z.lor_spec; apply orb_true_r|].
  split; [exact Hne|]. split.
  { intros Hq. unfold geforce_mmio_read_cache1_status. rewrite Hg, Hq, Z.eqb_refl.
    split; [reflexivity|]. apply Z.eqb_neq in Hne. rewrite Z.eqb_sym, Hne. reflexivity. }
  assert (E2 : s2 = geforce_update_irq
                      (set_fifo_cache1_pull0
                         (Z.land (fifo_cache1_pull0 s1) 0xFFFFFEFF)
                         (set_fifo_intr (Z.land (fifo_intr s1) 0xFFFFFFFE)
                            (set_fifo_cache1_get (fifo_cache1_put s1) s1)))).
  { unfold s2, geforce_mmio_write_cache1_get.
    change (GEFORCE_CACHE1_SIZE * 4 - 1) with (Z.ones 8).
    rewrite u32_small by lia. rewrite Z.land_ones by lia.
    rewrite Z.mod_small by lia.
    cbn [fifo_cache1_get fifo_cache1_put set_fifo_cache1_get]. rewrite Z.eqb_refl. reflexivity. }
  rewrite E2. cbn [fifo_cache1_get fifo_cache1_put fifo_intr fifo_cache1_pull0 geforce_update_irq
                     set_irq_level set_fifo_cache1_pull0 set_fifo_intr set_fifo_cache1_get].
  split; [reflexivity|].
  split; [rewrite Z.land_spec; apply andb_false_r|].
  split; [rewrite Z.land_spec; apply andb_false_r|].
  unfold geforce_mmio_read_cache1_status.
  cbn [fifo_cache1_get fifo_cache1_put geforce_update_irq set_irq_level set_fifo_cache1_pull0
         set_fifo_intr set_fifo_cache1_get].
  rewrite Z.eqb_refl. reflexivity.
Qed.

Lemma software_method_pushes_cons s sc method param l :
  software_method_pushes s ((sc, method, param) :: l)
  = software_method_pushes (software_method_push s sc method param) l.
Proof. reflexivity. Qed.

Lemma software_method_pushes_app s l1 l2 :
  software_method_pushes s (l1 ++ l2)
  = software_method_pushes (software_method_pushes s l1) l2.
Proof. apply fold_left_app. Qed.

Lemma software_method_pushes_put l : forall s,
  fifo_cache1_put s mod 4 = 0 -> 0 <= fifo_cache1_put s < 256 ->
  fifo_cache1_put (software_method_pushes s l)
  = (fifo_cache1_put s + 4 * Z.of_nat (length l)) mod 256
  /\ fifo_cache1_get (software_method_pushes s l) = fifo_cache1_get s
  /\ length (fifo_cache1_data (software_method_pushes s l)) = length (fifo_cache1_data s).
Proof.
  induction l as [|[[sc method] param] l IH]; intros s Ha Hr.
  - change (software_method_pushes s []) with s.
    change (Z.of_nat (length (@nil (Z * Z * Z)))) with 0.
    rewrite Z.mul_0_r, Z.add_0_r, Z.mod_small by lia. repeat split.
  - destruct (software_method_push_in_queue s sc method param Ha Hr) as (Ha1 & Hr1 & _).
    destruct (software_method_push_regs s sc method param) as (Hg1 & _ & Hl1 & _).
    pose proof (software_method_push_put s sc method param Ha Hr) as Hp1.
    destruct (IH (software_method_push s sc method param) Ha1 Hr1) as (Hp & Hg & Hl).
    rewrite software_method_pushes_cons.
    split; [|split].
    + rewrite Hp, Hp1. change (GEFORCE_CACHE1_SIZE * 4) with 256.
      rewrite Zplus_mod_idemp_l. f_equal.
      change (length ((sc, method, param) :: l)) with (S (length l)). lia.
    + rewrite Hg. exact Hg1.
    + rewrite Hl. exact Hl1.
Qed.

(** X20. The software-method queue is a ring of [GEFORCE_CACHE1_SIZE]
    entries without a fullness test: [n] pushes move the put cursor by
    [4 * n] modulo [GEFORCE_CACHE1_SIZE * 4] and never touch the get
    cursor, so 64 pushes bring the put cursor back to where it was, and
    the push after them overwrites the entry of the first one, consumed
    or not. *)
Theorem software_queue_wraps s l x0 x64 :
  fifo_cache1_put s mod 4 = 0 -> 0 <= fifo_cache1_put s < GEFORCE_CACHE1_SIZE * 4 ->
  length (fifo_cache1_data s) = Z.to_nat GEFORCE_CACHE1_SIZE ->
  fifo_cache1_put (software_method_pushes s l)
  = (fifo_cache1_put s + 4 * Z.of_nat (length l)) mod (GEFORCE_CACHE1_SIZE * 4)
  /\ fifo_cache1_get (software_method_pushes s l) = fifo_cache1_get s
  /\ (length l = 63%nat ->
      fifo_cache1_put (software_method_pushes s (x0 :: l)) = fifo_cache1_put s
      /\ fifo_cache1_data (software_method_pushes s [x0]) !! Z.to_nat (fifo_cache1_put s / 4)
         = Some (snd x0)
      /\ fifo_cache1_data (software_method_pushes s (x0 :: l ++ [x64]))
           !! Z.to_nat (fifo_cache1_put s / 4)
         = Some (snd x64)
      /\ fifo_cache1_get (software_method_pushes s (x0 :: l ++ [x64])) = fifo_cache1_get s).
Proof.
  intros Ha Hr Hlen.
  assert (Hr' : 0 <= fifo_cache1_put s < 256) by exact Hr.
  destruct (software_method_pushes_put l s Ha Hr') as (Hp & Hg & _).
  split; [exact Hp|]. split; [exact Hg|]. intros Hl.
  destruct (software_method_pushes_put (x0 :: l) s Ha Hr') as (Hp64 & Hg64 & Hl64).
  assert (E64 : fifo_cache1_put (software_method_pushes s (x0 :: l)) = fifo_cache1_put s).
  { rewrite Hp64. change (length (x0 :: l)) with (S (length l)). rewrite Hl.
    replace (fifo_cache1_put s + 4 * Z.of_nat 64) with (fifo_cache1_put s + 1 * 256) by lia.
    rewrite Z.mod_add by lia. apply Z.mod_small. lia. }
  assert (Hidx : (Z.to_nat (fifo_cache1_put s / 4) < 64)%nat).
  { assert (0 <= fifo_cache1_put s / 4 < 64)
      by (split; [apply Z.div_pos; lia | apply Z.div_lt_upper_bound; lia]).
    lia. }
  assert (Hlen' : length (fifo_cache1_data s) = 64%nat) by exact Hlen.
  split; [exact E64|]. split; [|split].
  - destruct x0 as [[sc0 m0] p0].
    rewrite software_method_pushes_cons. change (software_method_pushes ?t []) with t.
    destruct (software_method_push_spec s sc0 m0 p0) as (_ & _ & -> & _).
    apply list_lookup_insert_eq. rewrite Hlen'. exact Hidx.
  - change (x0 :: l ++ [x64]) with ((x0 :: l) ++ [x64]).
    rewrite software_method_pushes_app.
    destruct x64 as [[sc m] p].
    rewrite software_method_pushes_cons. change (software_method_pushes ?t []) with t.
    destruct (software_method_push_spec (software_method_pushes s (x0 :: l)) sc m p)
      as (_ & _ & -> & _).
    rewrite E64. apply list_lookup_insert_eq. rewrite Hl64, Hlen'. exact Hidx.
  - change (x0 :: l ++ [x64]) with ((x0 :: l) ++ [x64]).
    rewrite software_method_pushes_app.
    destruct x64 as [[sc m] p].
    rewrite software_method_pushes_cons. change (software_method_pushes ?t []) with t.
    destruct (software_method_push_regs (software_method_pushes s (x0 :: l)) sc m p)
      as (-> & _).
    exact Hg64.
Qed.

End QueueFacts.

Lemma software_method_handshake_witness :
  Z.testbit (fifo_intr (software_method_push queue_end_state 0 0x100 7)) 0 = true
  /\ fifo_cache1_put (software_method_push queue_end_state 0 0x100 7) = 0
  /\ geforce_mmio_read_cache1_status
       (geforce_mmio_write_cache1_get (software_method_push queue_end_state 0 0x100 7) 0) = 0x10.
Proof.
  pose proof (software_method_handshake queue_end_state 0 0x100 7
                ltac:(vm_compute; reflexivity)
                ltac:(vm_compute; split; [discriminate | reflexivity])) as T.
  cbv zeta in T. destruct T as (Hi & _ & _ & _ & _ & _ & _ & Hs).
  split; [exact Hi|]. split; [vm_compute; reflexivity|].
  assert (E : fifo_cache1_put (software_method_push queue_end_state 0 0x100 7) = 0)
    by (vm_compute; reflexivity).
  rewrite E in Hs. exact Hs.
Defined.

Lemma software_queue_wraps_witness :
  fifo_cache1_put
    (software_method_pushes software_ring_state (replicate 64 (0, 0x100, 7))) = 0
  /\ fifo_cache1_data
       (software_method_pushes software_ring_state
          ((0, 0x100, 1) :: replicate 63 (0, 0x100, 7) ++ [(0, 0x100, 9)])) !! 0%nat = Some 9.
Proof.
  destruct (software_queue_wraps software_ring_state (replicate 63 (0, 0x100, 7))
              (0, 0x100, 1) (0, 0x100, 9)
              ltac:(vm_compute; reflexivity)
              ltac:(vm_compute; split; [discriminate | reflexivity])
              ltac:(vm_compute; reflexivity)) as (_ & _ & Hw).
  destruct (Hw ltac:(vm_compute; reflexivity)) as (_ & _ & Ho & _).
  split; [vm_compute; reflexivity|]. exact Ho.
Defined.

(** ** The channel windows of the register space *)

(** X21. Every address of the two channel windows selects a channel below
    [GEFORCE_CHANNEL_COUNT].  In the window at 0x800000 the 32 channels
    lie 0x10000 apart and the offset is taken modulo 0x2000; in the
    window at 0xC00000 the channels lie 0x1000 apart, the offset is taken
    modulo 0x200, and the 480 slots behind the 32 channels all select
    channel 0. *)
Theorem mmio_fifo_window_decode addr c off :
  0 <= mmio_fifo_chid addr < GEFORCE_CHANNEL_COUNT
  /\ (0 <= c < 32 -> 0 <= off < 0x10000 ->
      mmio_fifo_window (0x800000 + c * 0x10000 + off) = true
      /\ mmio_fifo_chid (0x800000 + c * 0x10000 + off) = c
      /\ mmio_fifo_offset (0x800000 + c * 0x10000 + off) = off mod 0x2000)
  /\ (0 <= c < 512 -> 0 <= off < 0x1000 ->
      mmio_fifo_window (0xC00000 + c * 0x1000 + off) = true
      /\ mmio_fifo_chid (0xC00000 + c * 0x1000 + off) = (if c <? 32 then c else 0)
      /\ mmio_fifo_offset (0xC00000 + c * 0x1000 + off) = off mod 0x200).
Proof.
  split; [|split].
  - unfold mmio_fifo_chid, GEFORCE_CHANNEL_COUNT.
    match goal with |- context [32 <=? ?x] =>
      assert (Hx : 0 <= x) by (destruct (_ && _); apply u32_range);
      destruct (Z.leb_spec 32 x) end; lia.
  - intros Hc Ho. set (a := 0x800000 + c * 0x10000 + off).
    assert (W : (0x800000 <=? a) && (a <? 0xA00000) = true).
    { apply andb_true_iff. split; [apply Z.leb_le | apply Z.ltb_lt]; unfold a; lia. }
    unfold mmio_fifo_window, mmio_fifo_chid, mmio_fifo_offset. rewrite W.
    split; [reflexivity|].
    change 0x1F with (Z.ones 5). change 0x1FFF with (Z.ones 13).
    rewrite Z.shiftr_div_pow2, !Z.land_ones by lia.
    assert (Hd : a / 2 ^ 16 = 128 + c).
    { symmetry. apply (Z.div_unique a (2 ^ 16) (128 + c) off); unfold a; lia. }
    rewrite Hd. replace (128 + c) with (c + 4 * 2 ^ 5) by lia.
    rewrite Z.mod_add, (Z.mod_small c) by lia.
    rewrite (u32_small c) by lia.
    unfold GEFORCE_CHANNEL_COUNT. destruct (Z.leb_spec 32 c); [lia|]. split; [reflexivity|].
    replace a with (off + (1024 + 8 * c) * 2 ^ 13) by (unfold a; lia).
    rewrite Z.mod_add by lia. apply u32_small.
    pose proof (Z.mod_pos_bound off 8192 ltac:(lia)). lia.
  - intros Hc Ho. set (a := 0xC00000 + c * 0x1000 + off).
    assert (W1 : (0x800000 <=? a) && (a <? 0xA00000) = false).
    { apply andb_false_iff. right. apply Z.ltb_ge. unfold a. lia. }
    assert (W2 : (0xC00000 <=? a) && (a <? 0xE00000) = true).
    { apply andb_true_iff. split; [apply Z.leb_le | apply Z.ltb_lt]; unfold a; lia. }
    unfold mmio_fifo_window, mmio_fifo_chid, mmio_fifo_offset. rewrite W1, W2.
    split; [reflexivity|].
    change 0x1FF with (Z.ones 9).
    rewrite Z.shiftr_div_pow2, !Z.land_ones by lia.
    assert (Hd : a / 2 ^ 12 = 3072 + c).
    { symmetry. apply (Z.div_unique a (2 ^ 12) (3072 + c) off); unfold a; lia. }
    rewrite Hd. replace (3072 + c) with (c + 6 * 2 ^ 9) by lia.
    rewrite Z.mod_add, (Z.mod_small c) by lia.
    rewrite (u32_small c) by lia.
    unfold GEFORCE_CHANNEL_COUNT. split.
    + destruct (Z.leb_spec 32 c), (Z.ltb_spec c 32); first [reflexivity | lia].
    + replace a with (off + (24576 + 8 * c) * 2 ^ 9) by (unfold a; lia).
      rewrite Z.mod_add by lia. apply u32_small.
      pose proof (Z.mod_pos_bound off 512 ltac:(lia)). lia.
Qed.

Section WindowFacts.
Context {ClassRegs : Type} `{Inhabited ClassRegs} {ops : ClassOps ClassRegs}.
Implicit Types s : GeForceState ClassRegs.

(** X22. What the channel window shows of a channel does not depend on
    whether the channel is the active one: the put cursor, the get cursor
    and the reference count read at offsets 0x40, 0x44 and 0x48 of the
    active channel are read unchanged, now from its RAMFC record, after
    [geforce_fifo_process] has switched to another channel. *)
Theorem mmio_cursor_view_across_switch s A B addr :
  Z.land (fifo_cache1_push1 s) 0x1F = A -> 0 <= A < 32 -> 0 <= B < 32 -> A <> B ->
  pull_registers_u32 s -> ramfc_in_vram s A = true ->
  mmio_fifo_chid addr = A ->
  geforce_mmio_read_fifo_channel (fifo_context_switch s B) addr
  = geforce_mmio_read_fifo_channel s addr
  /\ (mmio_fifo_offset addr = 0x40 ->
      geforce_mmio_read_fifo_channel s addr = fifo_cache1_dma_put s)
  /\ (mmio_fifo_offset addr = 0x44 ->
      geforce_mmio_read_fifo_channel s addr = fifo_cache1_dma_get s)
  /\ (mmio_fifo_offset addr = 0x48 ->
      geforce_mmio_read_fifo_channel s addr = fifo_cache1_ref_cnt s).
Proof.
  intros HoldA HA HB Hne Hregs Hin Hchid.
  set (s1 := fifo_context_switch s B).
  assert (HneB : Z.land (fifo_cache1_push1 s) 0x1F <> B) by (rewrite HoldA; exact Hne).
  pose proof (fifo_context_switch_ne s B HneB) as E1. fold s1 in E1. rewrite HoldA in E1.
  unfold ramfc_in_vram, ramfc_offsets in Hin. cbn [forallb] in Hin.
  repeat (apply andb_true_iff in Hin; destruct Hin as [?I Hin]).
  destruct (fifo_save_context_spec s A (ramfc_sro s) HA (ramfc_sro_cases s) Hregs)
    as (V & S0 & S4 & S8 & _); try assumption.
  assert (R1 : forall o, geforce_ramfc_read32 s1 A o
                         = geforce_ramfc_read32 (fifo_save_context s A (ramfc_sro s)) A o).
  { intros o. rewrite E1, ramfc_read_set_push1. apply ramfc_read_load_context. }
  assert (C1 : Z.land (fifo_cache1_push1 s1) 0x1F = B).
  { rewrite E1, push1_set_push1. now apply active_channel_after_switch. }
  clearbody s1.
  unfold geforce_mmio_read_fifo_channel. rewrite Hchid, C1, HoldA, Z.eqb_refl.
  assert ((B =? A) = false) as -> by (apply Z.eqb_neq; congruence).
  rewrite !R1, S0, S4, S8.
  split; [reflexivity|]. split; [|split]; intros ->; reflexivity.
Qed.

End WindowFacts.

Lemma mmio_fifo_window_decode_witness :
  mmio_fifo_chid 0x830040 = 3 /\ mmio_fifo_offset 0x830040 = 0x40
  /\ mmio_fifo_chid 0xC20040 = 0 /\ mmio_fifo_offset 0xC20040 = 0x40.
Proof.
  destruct (mmio_fifo_window_decode 0 3 0x40) as (_ & H1 & _).
  destruct (H1 ltac:(lia) ltac:(lia)) as (_ & Hc & Ho).
  destruct (mmio_fifo_window_decode 0 32 0x40) as (_ & _ & H2).
  destruct (H2 ltac:(lia) ltac:(lia)) as (_ & Hc2 & Ho2).
  split; [exact Hc|]. split; [exact Ho|]. split; [exact Hc2 | exact Ho2].
Defined.

Lemma mmio_cursor_view_across_switch_witness :
  geforce_mmio_read_fifo_channel switch_state 0x800040 = 0x40
  /\ geforce_mmio_read_fifo_channel (fifo_context_switch switch_state 1) 0x800040 = 0x40.
Proof.
  destruct (mmio_cursor_view_across_switch switch_state 0 1 0x800040
              ltac:(vm_compute; reflexivity) ltac:(lia) ltac:(lia) ltac:(lia))
    as (Hsw & Hput & _).
  - vm_compute. repeat split; (discriminate || reflexivity).
  - vm_compute. reflexivity.
  - vm_compute. reflexivity.
  - assert (E : geforce_mmio_read_fifo_channel switch_state 0x800040 = 0x40).
    { rewrite Hput by (vm_compute; reflexivity). vm_compute. reflexivity. }
    split; [exact E|]. rewrite Hsw. exact E.
Defined.

(** ** Device realization *)

(** Exclusive-or with [2 ^ k - 64] reverses the order of the 64-byte
    blocks below [2 ^ k] and keeps the position inside a block. *)
Lemma ramin_flip_block k a :
  6 <= k -> 0 <= a < 2 ^ k ->
  Z.lxor a (2 ^ k - 64) = 2 ^ k - 64 - 64 * (a / 64) + a mod 64.
Proof.
  intros Hk Ha.
  assert (HF : 2 ^ k - 64 = Z.shiftl (Z.ones (k - 6)) 6).
  { rewrite Z.shiftl_mul_pow2, Z.ones_equiv by lia.
    replace (2 ^ k) with (2 ^ (k - 6) * 2 ^ 6)
      by (rewrite <- Z.pow_add_r by lia; f_equal; lia).
    change (2 ^ 6) with 64. lia. }
  assert (HA : 64 * (a / 64) = Z.shiftl (Z.shiftr a 6) 6).
  { rewrite Z.shiftl_mul_pow2, Z.shiftr_div_pow2 by lia. change (2 ^ 6) with 64. lia. }
  assert (HR : a mod 64 = Z.land a (Z.ones 6)).
  { rewrite Z.land_ones by lia. reflexivity. }
  assert (Hhigh : forall i, k <= i -> Z.testbit a i = false).
  { intros i Hi. rewrite <- (Z.mod_small a (2 ^ k)) by lia.
    apply Z.mod_pow2_bits_high. lia. }
  assert (FB : forall i, 0 <= i ->
             Z.testbit (2 ^ k - 64) i = negb (i <? 6) && (i <? k)).
  { intros i Hi. rewrite HF.
    destruct (Z.ltb_spec i 6) as [H6|H6].
    - rewrite Z.shiftl_spec_low by lia. reflexivity.
    - rewrite Z.shiftl_spec by lia. rewrite ones_testbit by lia.
      cbn [negb andb]. destruct (Z.ltb_spec (i - 6) (k - 6)), (Z.ltb_spec i k);
        first [reflexivity | lia]. }
  assert (AB : forall i, 0 <= i ->
             Z.testbit (64 * (a / 64)) i = negb (i <? 6) && Z.testbit a i).
  { intros i Hi. rewrite HA.
    destruct (Z.ltb_spec i 6) as [H6|H6].
    - rewrite Z.shiftl_spec_low by lia. reflexivity.
    - rewrite Z.shiftl_spec, Z.shiftr_spec by lia. cbn [negb andb].
      f_equal. lia. }
  assert (RB : forall i, 0 <= i -> Z.testbit (a mod 64) i = (i <? 6) && Z.testbit a i).
  { intros i Hi. rewrite HR, Z.land_spec, ones_testbit by lia.
    apply andb_comm. }
  assert (E1 : Z.lxor a (2 ^ k - 64) + 64 * (a / 64)
               = Z.lxor (Z.lxor a (2 ^ k - 64)) (64 * (a / 64))).
  { apply Z.add_nocarry_lxor. apply Z.bits_inj'. intros i Hi.
    rewrite Z.land_spec, Z.lxor_spec, FB, AB, Z.bits_0 by lia.
    destruct (Z.ltb_spec i 6), (Z.ltb_spec i k); cbn [negb andb];
      try rewrite (Hhigh i) by lia; destruct (Z.testbit a i); reflexivity. }
  assert (E2 : 2 ^ k - 64 + a mod 64 = Z.lxor (2 ^ k - 64) (a mod 64)).
  { apply Z.add_nocarry_lxor. apply Z.bits_inj'. intros i Hi.
    rewrite Z.land_spec, FB, RB, Z.bits_0 by lia.
    destruct (Z.ltb_spec i 6); cbn [negb andb]; [reflexivity|].
    apply andb_false_r. }
  assert (E3 : Z.lxor (Z.lxor a (2 ^ k - 64)) (64 * (a / 64))
               = Z.lxor (2 ^ k - 64) (a mod 64)).
  { apply Z.bits_inj'. intros i Hi.
    rewrite !Z.lxor_spec, FB, AB, RB by lia.
    destruct (Z.ltb_spec i 6), (Z.ltb_spec i k); cbn [negb andb].
    - destruct (Z.testbit a i); reflexivity.
    - lia.
    - destruct (Z.testbit a i); reflexivity.
    - rewrite Hhigh by lia. reflexivity. }
  lia.
Qed.

Lemma geforce_realize_inv card_type cfg :
  geforce_realize card_type = Some cfg ->
  0 <= card_type <= 2 /\
  setup_class_mask cfg = 0xFFF /\
  setup_memsize cfg = 2 ^ (26 + card_type) /\
  setup_memsize_mask cfg = setup_memsize cfg - 1 /\
  setup_ramin_flip cfg = setup_memsize cfg - 64 /\
  setup_ramin_bar cfg = negb (card_type =? 1) /\
  512 * 1024 <= setup_bar2_size cfg.
Proof.
  unfold geforce_realize, GEFORCE_3, GEFORCE_FX_5900, GEFORCE_6800.
  destruct (Z.eqb_spec card_type 0) as [->|H0].
  { intros [= <-]. vm_compute. repeat split; discriminate. }
  destruct (Z.eqb_spec card_type 1) as [->|H1].
  { intros [= <-]. vm_compute. repeat split; discriminate. }
  destruct (Z.eqb_spec card_type 2) as [->|H2].
  { intros [= <-]. vm_compute. repeat split; discriminate. }
  discriminate.
Qed.

(** X23. [geforce_realize] accepts exactly the three models of the
    enumeration and rejects every other value.  For an accepted model
    the class mask is the 12-bit one (the model number is below 0x40),
    the memory size is the power of two [2 ^ (26 + model)], and the
    instance-memory flip is [memsize - 64]: it maps every address below
    the memory size to an address below the memory size, reversing the
    order of the 64-byte blocks and keeping the position inside a
    block, so instance memory grows downwards from the top of VRAM. *)
Theorem realize_configuration card_type cfg :
  geforce_realize card_type = Some cfg ->
  0 <= card_type <= 2 /\
  (forall other, other < 0 \/ 2 < other -> geforce_realize other = None) /\
  setup_class_mask cfg = 0xFFF /\
  setup_memsize cfg = 2 ^ (26 + card_type) /\
  setup_memsize_mask cfg = setup_memsize cfg - 1 /\
  setup_ramin_flip cfg = setup_memsize cfg - 64 /\
  forall a, 0 <= a < setup_memsize cfg ->
    Z.lxor a (setup_ramin_flip cfg)
      = setup_memsize cfg - 64 - 64 * (a / 64) + a mod 64 /\
    0 <= Z.lxor a (setup_ramin_flip cfg) < setup_memsize cfg.
Proof.
  intros H. destruct (geforce_realize_inv _ _ H) as (Hc & Hm & Hs & Hk & Hf & _).
  split; [exact Hc|]. split.
  { intros other Ho. unfold geforce_realize, GEFORCE_3, GEFORCE_FX_5900, GEFORCE_6800.
    destruct (Z.eqb_spec other 0); [lia|].
    destruct (Z.eqb_spec other 1); [lia|].
    destruct (Z.eqb_spec other 2); [lia|]. reflexivity. }
  split; [exact Hm|]. split; [exact Hs|]. split; [exact Hk|]. split; [exact Hf|].
  intros a Ha. rewrite Hf, Hs in *.
  assert (E := ramin_flip_block (26 + card_type) a ltac:(lia) Ha).
  split; [exact E|]. rewrite E.
  assert (0 <= a / 64) by (apply Z.div_pos; lia).
  assert (64 * (a / 64) <= a) by (apply Z.mul_div_le; lia).
  assert (0 <= a mod 64 < 64) by (apply Z.mod_pos_bound; lia).
  assert (HM : 2 ^ (26 + card_type) = 64 * 2 ^ (20 + card_type)).
  { change 64 with (2 ^ 6). rewrite <- Z.pow_add_r by lia. f_equal. lia. }
  rewrite HM in *. lia.
Qed.

Lemma realize_configuration_witness :
  geforce_realize 1 = Some {| setup_device_id := 0x0331; setup_revision_id := 0;
                              setup_memsize := 0x8000000; setup_bar2_size := 0x01000000;
                              setup_straps0_primary_original := 0x7FF86DCB;
                              setup_subsystem_id := 0x297B;
                              setup_memsize_mask := 0x7FFFFFF;
                              setup_ramin_flip := 0x7FFFFC0;
                              setup_class_mask := 0xFFF;
                              setup_straps0_primary := 0x7FF86DCB;
                              setup_ramin_bar := false |} /\
  Z.lxor 0x1004 0x7FFFFC0 = 0x7FFEFC4.
Proof.
  assert (H : geforce_realize 1 = Some {| setup_device_id := 0x0331; setup_revision_id := 0;
                              setup_memsize := 0x8000000; setup_bar2_size := 0x01000000;
                              setup_straps0_primary_original := 0x7FF86DCB;
                              setup_subsystem_id := 0x297B;
                              setup_memsize_mask := 0x7FFFFFF;
                              setup_ramin_flip := 0x7FFFFC0;
                              setup_class_mask := 0xFFF;
                              setup_straps0_primary := 0x7FF86DCB;
                              setup_ramin_bar := false |}) by (vm_compute; reflexivity).
  split; [exact H|].
  pose proof (realize_configuration 1 _ H) as T.
  destruct T as (_ & _ & _ & _ & _ & _ & T).
  destruct (T 0x1004 ltac:(vm_compute; split; [discriminate | reflexivity])) as (_ & _).
  reflexivity.
Defined.

(** X24. Where [geforce_realize] registers BAR 2, the region it hands
    over starts at [ramin_flip] bytes into the VRAM allocation and is
    [bar2_size] bytes long, while only the last 64 bytes of the
    allocation lie at or after the start: the region reaches
    [bar2_size - 64] bytes past the end of the allocation. *)
Theorem realize_ramin_bar_exceeds_vram card_type cfg :
  geforce_realize card_type = Some cfg ->
  setup_ramin_bar cfg = true ->
  setup_memsize cfg - setup_ramin_flip cfg = 64 /\
  setup_ramin_flip cfg + setup_bar2_size cfg
    = setup_memsize cfg + (setup_bar2_size cfg - 64) /\
  setup_memsize cfg < setup_ramin_flip cfg + setup_bar2_size cfg.
Proof.
  intros H Hb. destruct (geforce_realize_inv _ _ H) as (_ & _ & _ & _ & Hf & _ & Hsz).
  rewrite Hf. lia.
Qed.

Lemma realize_ramin_bar_exceeds_vram_witness :
  exists cfg, geforce_realize 0 = Some cfg /\
    setup_memsize cfg < setup_ramin_flip cfg + setup_bar2_size cfg.
Proof.
  eexists. split; [vm_compute; reflexivity|].
  refine (proj2 (proj2 (realize_ramin_bar_exceeds_vram 0 _ _ _))).
  - vm_compute. reflexivity.
  - reflexivity.
Defined.

(** ** The memory-to-memory copy *)

Section M2mf.
Context {ClassRegs : Type} `{Inhabited ClassRegs} {ops : ClassOps ClassRegs}.
Implicit Types s : GeForceState ClassRegs.

Lemma m2mf_copy_line_returns r :
  m2mf_line_length r <= 0xFFFFFFFC ->
  forall n lfuel s so d i,
    0 <= i -> m2mf_line_length r - i <= 4 * Z.of_nat n -> (n < lfuel)%nat ->
    exists s', m2mf_copy_line lfuel s r so d i = Some s'.
Proof.
  intros Hl. induction n as [|n IH]; intros lfuel s so d i Hi Hn Hf;
    (destruct lfuel as [|lfuel]; [lia|]); cbn [m2mf_copy_line].
  - destruct (Z.ltb_spec i (m2mf_line_length r)); [lia|]. eexists; reflexivity.
  - destruct (Z.ltb_spec i (m2mf_line_length r)); [|eexists; reflexivity].
    cbv zeta. rewrite (u32_small (i + 4)) by lia.
    apply IH; lia.
Qed.

Lemma m2mf_copy_lines_returns r lfuel :
  m2mf_line_length r <= 0xFFFFFFFC ->
  m2mf_line_count r <= 0xFFFF ->
  (Z.to_nat ((m2mf_line_length r + 3) / 4) < lfuel)%nat ->
  forall n fuel s so d y,
    0 <= y -> m2mf_line_count r - y <= Z.of_nat n -> (n < fuel)%nat ->
    exists s', m2mf_copy_lines lfuel fuel s r so d y = Some s'.
Proof.
  intros Hl Hc Hlf. induction n as [|n IH]; intros fuel s so d y Hy Hn Hf;
    (destruct fuel as [|fuel]; [lia|]); cbn [m2mf_copy_lines].
  - destruct (Z.ltb_spec y (m2mf_line_count r)); [lia|]. eexists; reflexivity.
  - destruct (Z.ltb_spec y (m2mf_line_count r)); [|eexists; reflexivity].
    destruct (m2mf_copy_line_returns r Hl (Z.to_nat ((m2mf_line_length r + 3) / 4))
                lfuel s so d 0 ltac:(lia)) as (s' & ->).
    + destruct (Z.le_gt_cases (m2mf_line_length r) 0) as [Hle|Hgt]; [lia|].
      rewrite Z2Nat.id by (apply Z.div_pos; lia).
      assert (E := Z.div_mod (m2mf_line_length r + 3) 4 ltac:(lia)).
      assert (B := Z.mod_pos_bound (m2mf_line_length r + 3) 4 ltac:(lia)).
      lia.
    + exact Hlf.
    + unfold u16. rewrite (Z.mod_small (y + 1)) by lia.
      apply IH; lia.
Qed.

Lemma m2mf_copy_line_diverges r :
  0xFFFFFFFC < m2mf_line_length r ->
  forall lfuel s so d i,
    0 <= i < 2 ^ 32 -> i mod 4 = 0 -> m2mf_copy_line lfuel s r so d i = None.
Proof.
  intros Hl. induction lfuel as [|lfuel IH]; intros s so d i Hi Ha;
    cbn [m2mf_copy_line]; [reflexivity|].
  assert (i <= 0xFFFFFFFC).
  { assert (E := Z.div_mod i 4 ltac:(lia)). rewrite Ha in E.
    change (2 ^ 32) with 4294967296 in Hi. lia. }
  destruct (Z.ltb_spec i (m2mf_line_length r)); [|lia].
  cbv zeta. apply IH.
  - apply u32_range.
  - rewrite u32_mod4. rewrite <- Z.add_mod_idemp_l, Ha by lia. reflexivity.
Qed.

Lemma m2mf_copy_lines_diverges r lfuel :
  0x10000 <= m2mf_line_count r \/
  (0 < m2mf_line_count r /\ 0xFFFFFFFC < m2mf_line_length r) ->
  forall fuel s so d y,
    0 <= y < 2 ^ 16 -> (y = 0 \/ 0x10000 <= m2mf_line_count r) ->
    m2mf_copy_lines lfuel fuel s r so d y = None.
Proof.
  intros Hc. induction fuel as [|fuel IH]; intros s so d y Hy Hy0;
    cbn [m2mf_copy_lines]; [reflexivity|].
  change (2 ^ 16) with 65536 in Hy.
  destruct (Z.ltb_spec y (m2mf_line_count r)); [|lia].
  destruct Hc as [Hc|(Hc & Hl)].
  - destruct (m2mf_copy_line lfuel s r so d 0); [|reflexivity].
    apply IH; [apply Z.mod_pos_bound; lia | right; exact Hc].
  - rewrite (m2mf_copy_line_diverges r Hl) by (first [reflexivity | lia]).
    reflexivity.
Qed.

End M2mf.

(** X25. The two copy loops of [geforce_m2mf] end when the line count is
    at most 0xFFFF and the line length is at most 0xFFFFFFFC: then
    neither loop counter wraps around, the inner loop ends after one
    round per 4 bytes of the line and the outer loop after one round per
    line. *)
Theorem m2mf_returns {ClassRegs : Type} `{Inhabited ClassRegs} {ops : ClassOps ClassRegs}
    (lfuel fuel : nat) (s : GeForceState ClassRegs) (r : M2mfRegs) :
  m2mf_line_length r <= 0xFFFFFFFC ->
  m2mf_line_count r <= 0xFFFF ->
  (Z.to_nat ((m2mf_line_length r + 3) / 4) < lfuel)%nat ->
  (Z.to_nat (m2mf_line_count r) < fuel)%nat ->
  exists s', geforce_m2mf lfuel fuel s r = Some s'.
Proof.
  intros Hl Hc Hlf Hf. unfold geforce_m2mf.
  apply (m2mf_copy_lines_returns r lfuel Hl Hc Hlf (Z.to_nat (m2mf_line_count r)));
    [lia | lia | exact Hf].
Qed.

Lemma m2mf_returns_witness :
  (exists s', geforce_m2mf 3 2 m2mf_state (m2mf_regs 8 1) = Some s') /\
  option_map (fun s' => (geforce_vram_read32 s' 0x90000,
                         geforce_vram_read32 s' 0x90004))
    (geforce_m2mf 3 2 m2mf_state (m2mf_regs 8 1)) = Some (0x11111111, 0x22222222).
Proof.
  split.
  - apply (m2mf_returns 3 2 m2mf_state (m2mf_regs 8 1)).
    + vm_compute; discriminate.
    + vm_compute; discriminate.
    + vm_compute; lia.
    + vm_compute; lia.
  - vm_compute. reflexivity.
Defined.

(** X26. The copy of [geforce_m2mf] does not end when the line count,
    which method 0x0c8 sets to its parameter, is 0x10000 or more: the
    16-bit line counter wraps to 0 before it reaches the count.  Nor does
    it end when the line length, which method 0x0c7 sets to its
    parameter, is above 0xFFFFFFFC while the line count is positive: the
    32-bit byte counter, a multiple of 4, wraps to 0 before it reaches
    the length.  No amount of fuel gives a result. *)
Theorem m2mf_wraps_and_hangs {ClassRegs : Type} `{Inhabited ClassRegs}
    {ops : ClassOps ClassRegs} (s : GeForceState ClassRegs) (r : M2mfRegs) :
  0x10000 <= m2mf_line_count r \/
  (0 < m2mf_line_count r /\ 0xFFFFFFFC < m2mf_line_length r) ->
  forall lfuel fuel, geforce_m2mf lfuel fuel s r = None.
Proof.
  intros Hc lfuel fuel. unfold geforce_m2mf.
  apply m2mf_copy_lines_diverges.
  - exact Hc.
  - split; [lia | reflexivity].
  - left; reflexivity.
Qed.

Lemma m2mf_wraps_and_hangs_witness :
  m2mf_line_count (geforce_execute_m2mf_regs (m2mf_regs 8 1) 0x0c8 0x10000) = 0x10000 /\
  forall lfuel fuel,
    geforce_m2mf lfuel fuel m2mf_state
      (geforce_execute_m2mf_regs (m2mf_regs 8 1) 0x0c8 0x10000) = None.
Proof.
  split; [reflexivity|].
  apply (m2mf_wraps_and_hangs m2mf_state
           (geforce_execute_m2mf_regs (m2mf_regs 8 1) 0x0c8 0x10000)).
  left. vm_compute. discriminate.
Defined.

(** ** The vertex-data cursor *)

(** X27. Method 0x606 keeps its cursor inside the first three vertices
    of [d3d_vertex_data[4][16][4]]: from a cursor with vertex below 3,
    attribute below 16 and component below 4 the next cursor is again
    such a cursor, and its offset in the array is the successor of the
    old one modulo 192.  So the stores of the method cycle through the
    elements 0 to 191 and never touch the fourth vertex. *)
Theorem d3d_vertex_cursor_cycles (c : D3dVertexCursor) :
  0 <= d3d_vertex_index c < 3 ->
  0 <= d3d_attrib_index c < 16 ->
  0 <= d3d_comp_index c < 4 ->
  let c' := geforce_execute_d3d_vertex_data c in
  0 <= d3d_vertex_index c' < 3 /\
  0 <= d3d_attrib_index c' < 16 /\
  0 <= d3d_comp_index c' < 4 /\
  d3d_vertex_data_offset c' = (d3d_vertex_data_offset c + 1) mod 192.
Proof.
  intros Hv Ha Hc c'. subst c'.
  unfold geforce_execute_d3d_vertex_data, d3d_vertex_data_offset. cbv zeta.
  rewrite !u32_small by (change (2 ^ 32) with 4294967296; lia).
  destruct (Z.eqb_spec (d3d_comp_index c + 1) 4) as [E4|N4].
  - destruct (Z.eqb_spec (d3d_attrib_index c + 1) 16) as [E16|N16].
    + destruct (Z.leb_spec 3 (d3d_vertex_index c + 1)) as [E3|N3];
        cbn [d3d_vertex_index d3d_attrib_index d3d_comp_index].
      * replace ((d3d_vertex_index c * 16 + d3d_attrib_index c) * 4
                 + d3d_comp_index c + 1) with (1 * 192) by lia.
        rewrite Z.mod_mul by lia. lia.
      * rewrite Z.mod_small by lia. lia.
    + cbn [d3d_vertex_index d3d_attrib_index d3d_comp_index].
      rewrite Z.mod_small by lia. lia.
  - cbn [d3d_vertex_index d3d_attrib_index d3d_comp_index].
    rewrite Z.mod_small by lia. lia.
Qed.

Lemma d3d_vertex_cursor_cycles_witness :
  d3d_vertex_data_offset
    (geforce_execute_d3d_vertex_data
       {| d3d_vertex_index := 2; d3d_attrib_index := 15; d3d_comp_index := 3 |}) = 0.
Proof.
  pose proof (d3d_vertex_cursor_cycles
                {| d3d_vertex_index := 2; d3d_attrib_index := 15; d3d_comp_index := 3 |}
                ltac:(cbn; lia) ltac:(cbn; lia) ltac:(cbn; lia)) as T.
  cbv zeta in T. destruct T as (_ & _ & _ & T). rewrite T. reflexivity.
Defined.

(** ** Methods of the graphics engine: notification and indirect parameters *)

Section Graphics.
Context {ClassRegs : Type} `{Inhabited ClassRegs} {ops : ClassOps ClassRegs}.
Implicit Types s : GeForceState ClassRegs.
Implicit Types c : GeForceChannel ClassRegs.

Lemma channels_vram_write32 s a v : channels (geforce_vram_write32 s a v) = channels s.
Proof. unfold geforce_vram_write32. destruct (_ <? _); reflexivity. Qed.

Lemma channels_vram_write64 s a v : channels (geforce_vram_write64 s a v) = channels s.
Proof. unfold geforce_vram_write64. destruct (_ <? _); reflexivity. Qed.

Lemma channels_dma_write32 s o a v : channels (geforce_dma_write32 s o a v) = channels s.
Proof.
  unfold geforce_dma_write32. cbv zeta.
  destruct (nonzero _); [reflexivity | apply channels_vram_write32].
Qed.

Lemma channels_dma_write64 s o a v : channels (geforce_dma_write64 s o a v) = channels s.
Proof.
  unfold geforce_dma_write64. cbv zeta.
  destruct (nonzero _); [reflexivity | apply channels_vram_write64].
Qed.

Lemma graph_regs_vram_write32 s a v : graph_regs (geforce_vram_write32 s a v) = graph_regs s.
Proof. unfold geforce_vram_write32. destruct (_ <? _); reflexivity. Qed.

Lemma graph_regs_vram_write64 s a v : graph_regs (geforce_vram_write64 s a v) = graph_regs s.
Proof. unfold geforce_vram_write64. destruct (_ <? _); reflexivity. Qed.

Lemma graph_regs_dma_write32 s o a v : graph_regs (geforce_dma_write32 s o a v) = graph_regs s.
Proof.
  unfold geforce_dma_write32. cbv zeta.
  destruct (nonzero _); [reflexivity | apply graph_regs_vram_write32].
Qed.

Lemma graph_regs_dma_write64 s o a v : graph_regs (geforce_dma_write64 s o a v) = graph_regs s.
Proof.
  unfold geforce_dma_write64. cbv zeta.
  destruct (nonzero _); [reflexivity | apply graph_regs_vram_write64].
Qed.

Lemma graph_regs_put_channel s chid c : graph_regs (put_channel chid c s) = graph_regs s.
Proof. reflexivity. Qed.

Lemma get_channel_channels s s' chid :
  channels s' = channels s -> get_channel s' chid = get_channel s chid.
Proof. unfold get_channel. now intros ->. Qed.

Lemma execute_class_channel s chid sc cls method param :
  valid_chid s chid ->
  exists regs,
    get_channel (execute_class s chid sc cls method param) chid
    = set_class_regs regs (get_channel s chid).
Proof.
  intros Hv. unfold execute_class. destruct (class_of_id _).
  - destruct (geforce_execute_class _ _ _ _ _ _ _) as [[vm sm] regs].
    exists regs. rewrite get_put_channel_same; [reflexivity|exact Hv].
  - exists (class_regs (get_channel s chid)). destruct (get_channel s chid); reflexivity.
Qed.

Lemma execute_class_graph_regs s chid sc cls method param :
  graph_regs (execute_class s chid sc cls method param) = graph_regs s.
Proof.
  unfold execute_class. destruct (class_of_id _); [|reflexivity].
  destruct (geforce_execute_class _ _ _ _ _ _ _) as [[vm sm] regs]. reflexivity.
Qed.

Lemma execute_class_valid s chid sc cls method param :
  valid_chid s chid -> valid_chid (execute_class s chid sc cls method param) chid.
Proof.
  intros Hv. destruct (frame_execute_class s chid sc cls method param)
    as (_ & _ & _ & _ & _ & _ & _ & _ & _ & _ & _ & _ & Hl & _).
  unfold valid_chid. rewrite Hl. exact Hv.
Qed.

Lemma execute_notify_valid s chid sc :
  valid_chid s chid -> valid_chid (execute_notify s chid sc) chid.
Proof.
  intros Hv. destruct (frame_execute_notify s chid sc)
    as (_ & _ & _ & _ & _ & _ & _ & _ & _ & _ & _ & _ & Hl & _).
  unfold valid_chid. rewrite Hl. exact Hv.
Qed.

Lemma execute_notify_channel s chid sc :
  valid_chid s chid ->
  get_channel (execute_notify s chid sc) chid = set_notify_pending false (get_channel s chid).
Proof.
  intros Hv. unfold execute_notify.
  destruct (notify_pending (get_channel s chid)) eqn:Hp.
  - set (s1 := put_channel chid (set_notify_pending false (get_channel s chid)) s).
    assert (G1 : get_channel s1 chid = set_notify_pending false (get_channel s chid))
      by (apply get_put_channel_same; exact Hv).
    clearbody s1. cbv zeta.
    destruct (negb _); destruct (nonzero _); rewrite <- G1; apply get_channel_channels;
      cbn [channels set_graph_notify set_graph_nsource set_graph_intr geforce_update_irq
           set_irq_level];
      rewrite ?channels_dma_write32, ?channels_dma_write64; reflexivity.
  - destruct (get_channel s chid); cbn in Hp |- *; subst; reflexivity.
Qed.

Lemma execute_notify_graph_regs s chid sc :
  valid_chid s chid ->
  graph_regs (execute_notify s chid sc)
  = if notify_pending (get_channel s chid) && nonzero (notify_type (get_channel s chid))
    then (Z.lor (graph_intr s) 1, Z.lor (graph_nsource s) 1, 0x00110000)
    else graph_regs s.
Proof.
  intros Hv. unfold execute_notify.
  destruct (notify_pending (get_channel s chid)) eqn:Hp; [|reflexivity].
  set (s1 := put_channel chid (set_notify_pending false (get_channel s chid)) s).
  assert (G1 : get_channel s1 chid = set_notify_pending false (get_channel s chid))
    by (apply get_put_channel_same; exact Hv).
  assert (R1 : graph_regs s1 = graph_regs s) by reflexivity.
  clearbody s1. cbv zeta. cbn [andb].
  set (s2 := if negb _ then _ else s1).
  assert (C2 : channels s2 = channels s1).
  { subst s2. destruct (negb _); [|reflexivity].
    rewrite channels_dma_write32, channels_dma_write32, channels_dma_write64. reflexivity. }
  assert (R2 : graph_regs s2 = graph_regs s).
  { rewrite <- R1. subst s2. destruct (negb _); [|reflexivity].
    rewrite graph_regs_dma_write32, graph_regs_dma_write32, graph_regs_dma_write64.
    reflexivity. }
  clearbody s2.
  rewrite (get_channel_channels s1 s2 chid C2), G1.
  change (notify_type (set_notify_pending false (get_channel s chid)))
    with (notify_type (get_channel s chid)).
  destruct (nonzero _); [|exact R2].
  unfold graph_regs in R2 |- *. injection R2 as R2a R2b R2c.
  cbn [graph_intr graph_nsource graph_notify set_graph_notify set_graph_nsource
       set_graph_intr geforce_update_irq set_irq_level].
  rewrite R2a, R2b. reflexivity.
Qed.

(** The engine-1 branch: the notification state, and the binding of the
    subchannel, after one method. *)
Lemma execute_graphics_method_spec s chid sc method param :
  valid_chid s chid -> (Z.to_nat sc < length (schs (get_channel s chid)))%nat ->
  let s' := execute_graphics_method s chid sc method param in
  let ch := get_channel s chid in
  notify_state s' chid
  = (method =? 0x041, if method =? 0x041 then param else notify_type ch,
     if notify_pending ch && nonzero (notify_type ch)
     then (Z.lor (graph_intr s) 1, Z.lor (graph_nsource s) 1, 0x00110000)
     else (graph_intr s, graph_nsource s, graph_notify s))
  /\ get_subch (get_channel s' chid) sc
     = (if method =? 0x060 then set_notifier param (get_subch ch sc) else get_subch ch sc).
Proof.
  intros Hv Hsc s' ch. subst s'. unfold execute_graphics_method. cbv zeta.
  set (cls := Z.land _ _).
  destruct (execute_class_channel s chid sc cls method param Hv) as (regs & G1).
  pose proof (execute_class_graph_regs s chid sc cls method param) as R1.
  pose proof (execute_class_valid s chid sc cls method param Hv) as V1.
  set (s1 := execute_class s chid sc cls method param) in *. clearbody s1.
  pose proof (execute_notify_channel s1 chid sc V1) as G2.
  pose proof (execute_notify_graph_regs s1 chid sc V1) as R2.
  pose proof (execute_notify_valid s1 chid sc V1) as V2.
  set (s2 := execute_notify s1 chid sc) in *. clearbody s2.
  rewrite G1 in G2, R2.
  change (notify_pending (set_class_regs regs (get_channel s chid)))
    with (notify_pending ch) in R2.
  change (notify_type (set_class_regs regs (get_channel s chid)))
    with (notify_type ch) in R2.
  assert (R2' : graph_regs s2
                = if notify_pending ch && nonzero (notify_type ch)
                  then (Z.lor (graph_intr s) 1, Z.lor (graph_nsource s) 1, 0x00110000)
                  else (graph_intr s, graph_nsource s, graph_notify s)).
  { rewrite R2. destruct (_ && _); [|exact R1].
    unfold graph_regs in R1. injection R1 as -> -> _. reflexivity. }
  clear R2 R1.
  unfold notify_state.
  destruct (Z.eqb_spec method 0x041) as [->|N41].
  - rewrite get_put_channel_same by exact V2.
    rewrite graph_regs_put_channel, G2. fold ch.
    change (0x041 =? 0x060) with false. cbv iota.
    split; [|reflexivity].
    change (notify_pending (set_notify_type param (set_notify_pending true
              (set_notify_pending false (set_class_regs regs ch))))) with true.
    change (notify_type (set_notify_type param (set_notify_pending true
              (set_notify_pending false (set_class_regs regs ch))))) with param.
    f_equal. exact R2'.
  - destruct (method =? 0x060) eqn:E60.
    + rewrite get_put_channel_same by exact V2.
      rewrite graph_regs_put_channel, G2. fold ch. split.
      * f_equal. exact R2'.
      * apply get_put_subch_same. exact Hsc.
    + rewrite G2. fold ch. split; [|reflexivity]. f_equal. exact R2'.
Qed.

End Graphics.

Section GraphicsCommand.
Context {ClassRegs : Type} `{Inhabited ClassRegs} {ops : ClassOps ClassRegs}.
Implicit Types s : GeForceState ClassRegs.

(** [geforce_execute_command] on a subchannel of engine 1, for a method
    from 0x040 on. *)
Lemma execute_command_graphics pfuel s chid sc method param :
  0x40 <= method -> engine (get_subch (get_channel s chid) sc) = 1 ->
  geforce_execute_command pfuel s chid sc method param
  = match
      (if (0x060 <=? method) && (method <? 0x080)
       then geforce_ramht_lookup pfuel s param chid (Some param) None
       else Some (Some param, None))
    with
    | None => None
    | Some (p, _) =>
        Some (execute_graphics_method
                (set_dispatch_log (dispatch_log s ++ [(chid, sc, method, param)]) s)
                chid sc method (default param p), true)
    end.
Proof.
  intros Hm He. unfold geforce_execute_command, execute_method.
  destruct (Z.eqb_spec method 0) as [|_]; [lia|].
  destruct (Z.eqb_spec method 0x014) as [|_]; [lia|].
  destruct (Z.leb_spec 0x040 method) as [_|]; [|lia].
  set (l := dispatch_log s ++ [(chid, sc, method, param)]).
  change (get_channel (set_dispatch_log l s) chid) with (get_channel s chid).
  rewrite He, Z.eqb_refl. rewrite ramht_lookup_log.
  destruct (if (0x060 <=? method) && (method <? 0x080) then _ else _) as [[p e]|];
    reflexivity.
Qed.

End GraphicsCommand.

(** X28. A notification armed by method 0x041 is delivered by the next
    method of the channel that reaches the graphics engine, after the
    handler of that method has run.  On a subchannel of engine 1, a
    method from 0x040 on leaves the channel armed exactly when it is
    method 0x041 itself, which also records its parameter as the type;
    and if the channel was armed before the method with a type other
    than 0, bit 0 of [graph_intr] and of [graph_nsource] is set and
    [graph_notify] becomes 0x00110000, while with type 0, or when the
    channel was not armed, the three registers keep their values. *)
Theorem notify_delivered_by_next_method {ClassRegs : Type} `{Inhabited ClassRegs}
    {ops : ClassOps ClassRegs} (pfuel : nat) (s s' : GeForceState ClassRegs)
    (chid sc method param : Z) (r : bool) :
  valid_chid s chid -> (Z.to_nat sc < length (schs (get_channel s chid)))%nat ->
  engine (get_subch (get_channel s chid) sc) = 1 -> 0x40 <= method ->
  geforce_execute_command pfuel s chid sc method param = Some (s', r) ->
  notify_state s' chid
  = (method =? 0x041,
     if method =? 0x041 then param else notify_type (get_channel s chid),
     if notify_pending (get_channel s chid) && nonzero (notify_type (get_channel s chid))
     then (Z.lor (graph_intr s) 1, Z.lor (graph_nsource s) 1, 0x00110000)
     else (graph_intr s, graph_nsource s, graph_notify s)).
Proof.
  intros Hv Hsc He Hm E. rewrite execute_command_graphics in E by assumption.
  set (l := dispatch_log s ++ [(chid, sc, method, param)]) in E.
  assert (Hv' : valid_chid (set_dispatch_log l s) chid) by exact Hv.
  destruct (Z.eqb_spec method 0x041) as [->|N41].
  - change ((0x060 <=? 0x041) && (0x041 <? 0x080)) with false in E. cbv iota in E.
    injection E as <- _. cbn [default from_option id].
    destruct (execute_graphics_method_spec (set_dispatch_log l s) chid sc 0x041 param Hv' Hsc)
      as (T & _).
    exact T.
  - destruct (if (0x060 <=? method) && (method <? 0x080) then _ else _) as [[p e]|];
      [|discriminate E].
    injection E as <- _.
    destruct (execute_graphics_method_spec (set_dispatch_log l s) chid sc method
                (default param p) Hv' Hsc) as (T & _).
    rewrite T. destruct (Z.eqb_spec method 0x041) as [|_]; [contradiction|]. reflexivity.
Qed.

Lemma notify_delivered_by_next_method_witness :
  exists s', geforce_execute_command 0 armed_state 0 0 0x100 7 = Some (s', true) /\
             notify_state s' 0 = (false, 1, (1, 1, 0x00110000)).
Proof.
  destruct (execute_command_total 0 armed_state 0 0 0x100 7
              ltac:(discriminate) ltac:(lia)) as (s' & E).
  exists s'. split; [exact E|].
  rewrite (notify_delivered_by_next_method 0 armed_state s' 0 0 0x100 7 true
             ltac:(vm_compute; split; [discriminate | lia])
             ltac:(vm_compute; lia) ltac:(reflexivity) ltac:(discriminate) E).
  reflexivity.
Defined.

(** X29. Method 0x060 on a subchannel of engine 1 makes the translated
    parameter the notifier of the subchannel and leaves its object and
    engine alone: the instance address the handle resolves to when the
    lookup finds the handle, and the handle itself, untranslated, when
    no slot of the table matches. *)
Theorem set_notifier_translates_handle {ClassRegs : Type} `{Inhabited ClassRegs}
    {ops : ClassOps ClassRegs} (pfuel : nat) (s : GeForceState ClassRegs)
    (chid sc param : Z) :
  valid_chid s chid -> (Z.to_nat sc < length (schs (get_channel s chid)))%nat ->
  engine (get_subch (get_channel s chid) sc) = 1 ->
  (forall obj,
     geforce_ramht_lookup pfuel s param chid (Some param) None = Some (Some obj, None) ->
     exists s', geforce_execute_command pfuel s chid sc 0x060 param = Some (s', true) /\
                get_subch (get_channel s' chid) sc
                = set_notifier obj (get_subch (get_channel s chid) sc)) /\
  (ramht_bits s <= 28 -> 0 <= param < 2 ^ 32 -> 2 ^ ramht_bits s <= Z.of_nat pfuel ->
   ramht_no_match s param chid = true ->
   exists s', geforce_execute_command pfuel s chid sc 0x060 param = Some (s', true) /\
              get_subch (get_channel s' chid) sc
              = set_notifier param (get_subch (get_channel s chid) sc)).
Proof.
  intros Hv Hsc He.
  assert (A : forall obj,
     geforce_ramht_lookup pfuel s param chid (Some param) None = Some (Some obj, None) ->
     exists s', geforce_execute_command pfuel s chid sc 0x060 param = Some (s', true) /\
                get_subch (get_channel s' chid) sc
                = set_notifier obj (get_subch (get_channel s chid) sc)).
  { intros obj Hl. rewrite execute_command_graphics by (first [assumption | lia]).
    change ((0x060 <=? 0x060) && (0x060 <? 0x080)) with true. cbv iota.
    rewrite Hl. cbn [default from_option id].
    eexists. split; [reflexivity|].
    set (l := dispatch_log s ++ [(chid, sc, 0x060, param)]).
    assert (Hv' : valid_chid (set_dispatch_log l s) chid) by exact Hv.
    destruct (execute_graphics_method_spec (set_dispatch_log l s) chid sc 0x060 obj Hv' Hsc)
      as (_ & T).
    exact T. }
  split; [exact A|].
  intros Hb Hp Hf Hno. apply A. apply ramht_lookup_fail; assumption.
Qed.

Lemma set_notifier_translates_handle_witness :
  exists s', geforce_execute_command 512 bind_state 0 0 0x060 0x777 = Some (s', true) /\
             get_subch (get_channel s' 0) 0
             = {| object := 0x2000; engine := 1; notifier := 0x777 |}.
Proof.
  refine (proj2 (set_notifier_translates_handle 512 bind_state 0 0 0x777 _ _ _) _ _ _ _).
  - vm_compute. split; [discriminate | lia].
  - vm_compute. lia.
  - reflexivity.
  - vm_compute. discriminate.
  - vm_compute. split; [discriminate | reflexivity].
  - vm_compute. discriminate.
  - vm_compute. reflexivity.
Defined.

(** ** DMA objects in device memory *)

Section DmaVram.
Context {ClassRegs : Type}.
Implicit Types s : GeForceState ClassRegs.

(** A store to device memory leaves an instance word whose four bytes lie
    apart from the four bytes of the store. *)
Lemma ramin_read_vram_write_apart s a v d :
  Z.lxor d (ramin_flip s) + 4 <= a \/ a + 4 <= Z.lxor d (ramin_flip s) ->
  geforce_ramin_read32 (geforce_vram_write32 s a v) d = geforce_ramin_read32 s d.
Proof.
  intros Hd. unfold geforce_ramin_read32, geforce_vram_write32, geforce_vram_read32.
  destruct (u32 (a + 3) <? memsize s); [|reflexivity].
  cbn [vram memsize ramin_flip set_vram].
  destruct (u32 (Z.lxor d (ramin_flip s) + 3) <? memsize s); [|reflexivity].
  apply ldl_stl_disjoint. exact Hd.
Qed.

(** X30. For a DMA object whose target is device memory (bit 17 of its
    first word clear), a word written with [geforce_dma_write32] at a
    translated address that passes the bounds test is read back by
    [geforce_dma_read32] at the same offset, provided the four bytes
    stored lie apart from the two descriptor words the translation reads
    (the first word, and the base word or the page-table entry); a write
    whose translated address fails the test is dropped and reads back as
    0.  The proviso is needed: a write whose translated address is that
    of the first descriptor word replaces the flags and the adjust field
    of the object it goes through. *)
Theorem dma_vram_write_then_read s obj addr v :
  let flags := geforce_ramin_read32 s obj in
  let a := geforce_dma_addr_abs s flags obj addr in
  let d :=
    if nonzero (Z.land flags 0x00002000) then u32 (obj + 8)
    else u32 (u32 (obj + 8) + u32 (Z.shiftr (u32 (addr + Z.shiftr flags 20)) 12 * 4)) in
  let s' := geforce_dma_write32 s obj addr v in
  nonzero (Z.land flags 0x00020000) = false -> 0 <= v < 2 ^ 32 ->
  ((Z.lxor obj (ramin_flip s) + 4 <= a \/ a + 4 <= Z.lxor obj (ramin_flip s)) ->
   (Z.lxor d (ramin_flip s) + 4 <= a \/ a + 4 <= Z.lxor d (ramin_flip s)) ->
   geforce_ramin_read32 s' obj = flags
   /\ geforce_dma_addr_abs s' flags obj addr = a
   /\ geforce_dma_read32 s' obj addr = (if u32 (a + 3) <? memsize s then v else 0)
   /\ ((u32 (a + 3) <? memsize s) = false -> s' = s))
  /\ (a = Z.lxor obj (ramin_flip s) -> u32 (a + 3) < memsize s ->
      geforce_ramin_read32 s' obj = v).
Proof.
  intros flags a d s' Hf Hv.
  assert (E : s' = geforce_vram_write32 s a v).
  { unfold s', geforce_dma_write32. fold flags. rewrite Hf. reflexivity. }
  split.
  - intros Ho Hd.
    assert (Ef : geforce_ramin_read32 s' obj = flags).
    { rewrite E. apply ramin_read_vram_write_apart. exact Ho. }
    assert (Ed : geforce_ramin_read32 s' d = geforce_ramin_read32 s d).
    { rewrite E. apply ramin_read_vram_write_apart. exact Hd. }
    assert (Ea : geforce_dma_addr_abs s' flags obj addr = a).
    { unfold a, geforce_dma_addr_abs, geforce_dma_lin_lookup, geforce_dma_pt_lookup.
      cbv zeta. rewrite Ef. fold flags. unfold d in Ed.
      destruct (nonzero (Z.land flags 0x00002000)); rewrite Ed; reflexivity. }
    split; [exact Ef|]. split; [exact Ea|]. split.
    + unfold geforce_dma_read32. cbv zeta. rewrite Ef, Ea, Hf.
      rewrite E. unfold geforce_vram_write32, geforce_vram_read32.
      destruct (u32 (a + 3) <? memsize s) eqn:Hin.
      * cbn [vram memsize set_vram]. rewrite Hin. apply ldl_stl_same. exact Hv.
      * rewrite Hin. reflexivity.
    + intros Hout. rewrite E. unfold geforce_vram_write32. rewrite Hout. reflexivity.
  - intros Ha Hin. rewrite E. unfold geforce_ramin_read32, geforce_vram_write32.
    apply Z.ltb_lt in Hin. rewrite Hin. cbn [ramin_flip set_vram]. rewrite <- Ha.
    unfold geforce_vram_read32. cbn [vram memsize set_vram]. rewrite Hin.
    apply ldl_stl_same. exact Hv.
Qed.

End DmaVram.

Lemma dma_vram_write_then_read_witness :
  geforce_dma_read32 (geforce_dma_write32 m2mf_state 0x1100 0x10 0xCAFE) 0x1100 0x10 = 0xCAFE.
Proof.
  pose proof (dma_vram_write_then_read m2mf_state 0x1100 0x10 0xCAFE
                ltac:(vm_compute; reflexivity) ltac:(lia)) as T.
  cbv zeta in T. destruct T as (T & _).
  destruct T as (_ & _ & T & _).
  - right. vm_compute. discriminate.
  - right. vm_compute. discriminate.
  - rewrite T. vm_compute. reflexivity.
Defined.
